(** * LM4 I2C master driver (chip/lm4/i2c.c): shallow embedding and properties

    The driver is embedded as a state-and-error monad over a log of
    hardware accesses.  Every read of the outside world (a register, a GPIO
    level, the scheduler) is answered by an environment that sees the whole
    log so far, so the theorems hold for every behaviour of the hardware. *)

From Stdlib Require Import ZArith QArith Qround Lia List Bool String.
From stdpp Require Import base list.
Import ListNotations.

Local Open Scope Z_scope.

(** ** Machine integers *)

(** A C [int] on this target is 32 bits wide; [sint32] is the two's
    complement wrap-around of a mathematical result. *)
Definition INT_MAX : Z := 2147483647.
Definition INT_MIN : Z := -2147483648.

Definition sint32 (x : Z) : Z := (x + 2147483648) mod 4294967296 - 2147483648.

Definition int_range (x : Z) : Prop := INT_MIN <= x <= INT_MAX.

(** Conversion to [uint8_t]. *)
Definition to_uint8 (x : Z) : Z := x mod 256.

(** Flags for writes to MCS *)
Definition LM4_I2C_MCS_RUN   : Z := Z.shiftl 1 0.
Definition LM4_I2C_MCS_START : Z := Z.shiftl 1 1.
Definition LM4_I2C_MCS_STOP  : Z := Z.shiftl 1 2.
Definition LM4_I2C_MCS_ACK   : Z := Z.shiftl 1 3.

(** Flags for reads from MCS *)
Definition LM4_I2C_MCS_BUSY   : Z := Z.shiftl 1 0.
Definition LM4_I2C_MCS_ERROR  : Z := Z.shiftl 1 1.
Definition LM4_I2C_MCS_ARBLST : Z := Z.shiftl 1 4.
Definition LM4_I2C_MCS_CLKTO  : Z := Z.shiftl 1 7.

Definition START : Z := 1.
Definition STOP : Z := 1.
Definition NO_START : Z := 0.
Definition NO_STOP : Z := 0.

(** Delay for bitbanging i2c corresponds roughly to 100kHz. *)
Definition I2C_BITBANG_DELAY_US : Z := 5.

(** Number of attempts to unwedge each pin. *)
Definition UNWEDGE_SCL_ATTEMPTS : nat := 10.
Definition UNWEDGE_SDA_ATTEMPTS : nat := 3.

(** ** Clock divisor *)

(** The two [const int] locals of the loop body of [i2c_freq_changed]:
    [d = 2 * (6 + 4) * (kbps * 1000)] and
    [tpr = (freq + d - 1) / d - 1], in 32-bit arithmetic.  C division
    truncates towards zero ([Z.quot]).  [None] is the division by zero. *)
Definition i2c_d (kbps : Z) : Z := sint32 (2 * (6 + 4) * sint32 (kbps * 1000)).

Definition i2c_tpr (freq kbps : Z) : option Z :=
  let d := i2c_d kbps in
  if d =? 0 then None
  else Some (sint32 (sint32 (Z.quot (sint32 (sint32 (freq + d) - 1)) d) - 1)).

(** The bus frequency [C / (2 * (1 + D) * 10)] produced by divisor [D], as
    a rational number, is at most [F] kHz. *)
Definition bus_freq_within (C F D : Z) : Prop :=
  (inject_Z C / inject_Z (2 * (1 + D) * 10) <= inject_Z (F * 1000))%Q.

(** ** Result codes *)

(** Modelled from the spec: the closed set of result codes of the public
    calls (success, hardware fault, timeout, invalid parameter); the
    enumeration itself is declared in a header that is not part of the
    sources.  A C test [if (rv)] is a test against [EC_SUCCESS]. *)
Inductive ec_error : Type :=
  | EC_SUCCESS
  | EC_ERROR_UNKNOWN
  | EC_ERROR_TIMEOUT
  | EC_ERROR_INVAL.

Definition ec_is_success (rv : ec_error) : bool :=
  match rv with EC_SUCCESS => true | _ => false end.

(** ** The hardware and its log *)

(** Registers of one I2C master port. *)
Inductive i2c_reg : Type := MSA | MCS | MDR | MTPR | MIMR | MICR | MMIS | MCR | MBMON.

Inductive hwreg : Type :=
  | LM4_I2C (r : i2c_reg) (port : Z)
  | LM4_SYSTEM_SRI2C.

Inductive gpio_flag : Type := GPIO_INPUT | GPIO_OUTPUT | GPIO_OPEN_DRAIN.

Inductive mutex : Type :=
  | port_mutex (port : Z)
  | raw_mode_mutex.

(** The console messages of the driver. *)
Inductive log_msg : Type :=
  | LogBadStatus (port slave_addr reg_mcs scl sda : Z)
  | LogSclHeldLow
  | LogSdaHeldLowOnEntry
  | LogSdaStillLow
  | LogSclStillLow.

(** One entry of the log per access to the world outside the function.
    [StoreTaskWaiting port id] is the store [task_waiting_on_port[port] = id]
    to the driver's static table, which the interrupt handlers read. *)
Inductive event : Type :=
  | Read (r : hwreg) (v : Z)
  | Write (r : hwreg) (v : Z)
  | GpioGetLevel (g v : Z)
  | GpioSetLevel (g v : Z)
  | GpioSetFlags (g : Z) (flags : list gpio_flag)
  | GpioSetAlternateFunction (gpio_port mask func : Z)
  | MutexLock (m : mutex)
  | MutexUnlock (m : mutex)
  | TaskGetCurrent (id : Z)
  | TaskWaitEvent (timeout_us ret : Z)
  | TaskSetEvent (tskid ev wait : Z)
  | StoreTaskWaiting (port id : Z)
  | Udelay (us : Z)
  | Usleep (us : Z)
  | ClockWaitCycles (n : Z)
  | ClockGetFreq (v : Z)
  | Cprintf (m : log_msg).

(** What the driver can ask of the world. *)
Inductive query : Type :=
  | QRead (r : hwreg)
  | QGpioLevel (g : Z)
  | QTaskCurrent
  | QTaskWait (timeout_us : Z)
  | QClockFreq.

(** The world answers a query knowing everything that happened so far. *)
Definition environment : Type := list event -> query -> Z.

(** ** The monad: a log threaded through, and the ways to get stuck *)

Inductive stuck : Type :=
  | AssertFailed     (* ASSERT() failed *)
  | OutOfBounds      (* access outside an array *)
  | DivideByZero
  | OutOfFuel.       (* the wait loop did not finish within the fuel *)

Inductive res (A : Type) : Type :=
  | Ok (a : A)
  | Stuck (w : stuck).
Arguments Ok {A} a.
Arguments Stuck {A} w.

Definition M (A : Type) : Type := list event -> res A * list event.

Definition ret {A : Type} (a : A) : M A := fun h => (Ok a, h).

Definition bind {A B : Type} (m : M A) (f : A -> M B) : M B :=
  fun h =>
    match m h with
    | (Ok a, h') => f a h'
    | (Stuck w, h') => (Stuck w, h')
    end.

Definition stop_with {A : Type} (w : stuck) : M A := fun h => (Stuck w, h).

Definition emit (e : event) : M unit := fun h => (Ok tt, h ++ [e]).

Declare Scope hw_scope.
Delimit Scope hw_scope with hw.
Notation "'let*' x := m 'in' k" := (bind m (fun x => k))
  (at level 10, x name, m at level 100, k at level 200) : hw_scope.
Notation "m ;; k" := (bind m (fun _ => k))
  (at level 100, k at level 200, right associativity) : hw_scope.
Local Open Scope hw_scope.

(** Array accesses.  An index outside the array is undefined behaviour in
    C: the compiled code goes on with whatever lies there, the model has
    nothing to say about it and stops.  What is proved of a result therefore
    holds for accesses that stay inside their arrays. *)
Definition load (buf : list Z) (i : Z) : M Z :=
  if i <? 0 then stop_with OutOfBounds
  else match buf !! Z.to_nat i with
       | Some v => ret v
       | None => stop_with OutOfBounds
       end.

Definition store (buf : list Z) (i v : Z) : M (list Z) :=
  if (0 <=? i) && (i <? Z.of_nat (length buf))
  then ret (<[Z.to_nat i := v]> buf)
  else stop_with OutOfBounds.

(** ** Board configuration *)

(** Modelled from the spec: the port descriptor [struct i2c_port_t]
    (declared in i2c.h, not part of the sources), with the fields the
    driver reads. *)
Record i2c_port_t : Type := {
  name : string;
  port : Z;
  kbps : Z;
  scl : Z;
  sda : Z
}.

(** Modelled from the spec: an entry of [gpio_list] (gpio.h), the bank and
    the bit mask of a signal. *)
Record gpio_info : Type := {
  gpio_port : Z;
  gpio_mask : Z
}.

Definition NUM_PORTS : Z := 6.

(** Modelled from the spec: line levels (i2c.h); the driver's own comment
    gives the bits, MBMON bit 1 is SDA and bit 0 is SCL. *)
Definition I2C_LINE_SCL_HIGH : Z := Z.shiftl 1 0.
Definition I2C_LINE_SDA_HIGH : Z := Z.shiftl 1 1.
Definition I2C_LINE_IDLE : Z := Z.lor I2C_LINE_SCL_HIGH I2C_LINE_SDA_HIGH.

Section Driver.

(** The world, and the board tables that are compiled in. *)
Variable env : environment.
Variable i2c_ports : list i2c_port_t.
Variable gpio_list : Z -> gpio_info.

(** C does not fix the order in which the arguments of a call are
    evaluated.  The bad-status message of [i2c_transmit_receive] samples the
    lines twice, once for its SCL argument and once for its SDA argument;
    [scl_read_first] is the choice of the compiler there: [true] when the
    sample for the SCL argument is taken before the one for the SDA
    argument, [false] when it is taken after. *)
Variable scl_read_first : bool.

(** Modelled from the spec: the event masks and the invalid task id of the
    scheduler (task.h), and the address flag of i2c.h; their values are not
    part of the sources. *)
Variable TASK_EVENT_TIMER : Z.
Variable TASK_EVENT_I2C_IDLE : Z.
Variable TASK_ID_INVALID : Z.
Variable I2C_FLAG_BIG_ENDIAN : Z.

(** *** Primitive accesses *)

Definition ask (q : query) (obs : Z -> event) : M Z :=
  fun h => let v := env h q in (Ok v, h ++ [obs v]).

Definition reg_read (r : hwreg) : M Z := ask (QRead r) (Read r).
Definition reg_write (r : hwreg) (v : Z) : M unit := emit (Write r v).

Definition gpio_get_level (g : Z) : M Z := ask (QGpioLevel g) (GpioGetLevel g).
Definition gpio_set_level (g v : Z) : M unit := emit (GpioSetLevel g v).
Definition gpio_set_flags (g : Z) (flags : list gpio_flag) : M unit :=
  emit (GpioSetFlags g flags).
Definition gpio_set_alternate_function (gp mask func : Z) : M unit :=
  emit (GpioSetAlternateFunction gp mask func).

Definition mutex_lock (m : mutex) : M unit := emit (MutexLock m).
Definition mutex_unlock (m : mutex) : M unit := emit (MutexUnlock m).

Definition task_get_current : M Z := ask QTaskCurrent TaskGetCurrent.
Definition task_wait_event (timeout_us : Z) : M Z :=
  ask (QTaskWait timeout_us) (TaskWaitEvent timeout_us).
Definition task_set_event (tskid ev wait : Z) : M unit :=
  emit (TaskSetEvent tskid ev wait).

Definition udelay (us : Z) : M unit := emit (Udelay us).
Definition usleep (us : Z) : M unit := emit (Usleep us).
Definition clock_wait_cycles (n : Z) : M unit := emit (ClockWaitCycles n).
Definition clock_get_freq : M Z := ask QClockFreq ClockGetFreq.
Definition cprintf (m : log_msg) : M unit := emit (Cprintf m).

(** [task_waiting_on_port[port] = id]; the table has [NUM_PORTS] entries.
    The source does not check [port]: a store outside the table is undefined
    behaviour, and the model stops there as it does for the arrays. *)
Definition set_task_waiting_on_port (p id : Z) : M unit :=
  if (0 <=? p) && (p <? NUM_PORTS) then emit (StoreTaskWaiting p id)
  else stop_with OutOfBounds.

(** *** Pins of a port *)

(** The search loop of [get_sda_from_i2c_port] and [get_scl_from_i2c_port]:
    the first entry of [i2c_ports] whose port matches, [None] when the loop
    runs to [I2C_PORTS_USED]. *)
Fixpoint find_port (tbl : list i2c_port_t) (p : Z) : option i2c_port_t :=
  match tbl with
  | [] => None
  | e :: tbl' => if port e =? p then Some e else find_port tbl' p
  end.

(** [None] is the return code [EC_ERROR_INVAL] (the only failure code of
    these two functions); [Some g] is [EC_SUCCESS] with the pin stored
    through the out-pointer. *)
Definition get_sda_from_i2c_port (p : Z) : M (option Z) :=
  match find_port i2c_ports p with
  | None => stop_with AssertFailed
  | Some e =>
      if (scl e =? 0) && (sda e =? 0) then ret None
      else ret (Some (sda e))
  end.

Definition get_scl_from_i2c_port (p : Z) : M (option Z) :=
  match find_port i2c_ports p with
  | None => stop_with AssertFailed
  | Some e =>
      if (scl e =? 0) && (sda e =? 0) then ret None
      else ret (Some (scl e))
  end.

Definition i2c_raw_set_scl (p level : Z) : M unit :=
  let* g := get_scl_from_i2c_port p in
  match g with
  | Some g => gpio_set_level g level
  | None => ret tt
  end.

Definition i2c_raw_set_sda (p level : Z) : M unit :=
  let* g := get_sda_from_i2c_port p in
  match g with
  | Some g => gpio_set_level g level
  | None => ret tt
  end.

Definition i2c_raw_get_scl (p : Z) : M Z :=
  let* g := get_scl_from_i2c_port p in
  match g with
  | None => ret 1
  | Some g =>
      let* l := gpio_get_level g in
      if l =? 0 then ret 0
      else
        gpio_set_flags g [GPIO_INPUT];;
        let* r := gpio_get_level g in
        gpio_set_flags g [GPIO_OUTPUT; GPIO_OPEN_DRAIN];;
        ret r
  end.

Definition i2c_raw_get_sda (p : Z) : M Z :=
  let* g := get_sda_from_i2c_port p in
  match g with
  | None => ret 1
  | Some g =>
      let* l := gpio_get_level g in
      if l =? 0 then ret 0
      else
        gpio_set_flags g [GPIO_INPUT];;
        let* r := gpio_get_level g in
        gpio_set_flags g [GPIO_OUTPUT; GPIO_OPEN_DRAIN];;
        ret r
  end.

Definition i2c_get_line_levels (p : Z) : M Z :=
  let* v := reg_read (LM4_I2C MBMON p) in
  ret (Z.land v 3).

Definition i2c_raw_mode (p enable : Z) : M ec_error :=
  let* s := get_sda_from_i2c_port p in
  match s with
  | None => ret EC_ERROR_INVAL
  | Some sda_pin =>
      let* c := get_scl_from_i2c_port p in
      match c with
      | None => ret EC_ERROR_INVAL
      | Some scl_pin =>
          if enable =? 0 then
            gpio_set_alternate_function
              (gpio_port (gpio_list sda_pin)) (gpio_mask (gpio_list sda_pin)) 3;;
            gpio_set_alternate_function
              (gpio_port (gpio_list scl_pin)) (gpio_mask (gpio_list scl_pin)) 3;;
            gpio_set_flags scl_pin [GPIO_OUTPUT];;
            gpio_set_flags sda_pin [GPIO_OUTPUT; GPIO_OPEN_DRAIN];;
            mutex_unlock raw_mode_mutex;;
            ret EC_SUCCESS
          else
            mutex_lock raw_mode_mutex;;
            gpio_set_alternate_function
              (gpio_port (gpio_list sda_pin)) (gpio_mask (gpio_list sda_pin)) 0;;
            gpio_set_alternate_function
              (gpio_port (gpio_list scl_pin)) (gpio_mask (gpio_list scl_pin)) 0;;
            gpio_set_flags scl_pin [GPIO_OUTPUT; GPIO_OPEN_DRAIN];;
            gpio_set_level scl_pin 1;;
            gpio_set_flags sda_pin [GPIO_OUTPUT; GPIO_OPEN_DRAIN];;
            gpio_set_level sda_pin 1;;
            ret EC_SUCCESS
      end
  end.

(** *** Bus recovery *)

(** The clock-stretch loop [for (i = 0;; i++)] of [i2c_unwedge], with
    [left = UNWEDGE_SCL_ATTEMPTS - i].  [true]: the loop was left by
    [break]; [false]: by [goto unwedge_done] with [ret = EC_ERROR_UNKNOWN]. *)
Fixpoint unwedge_wait_scl (p : Z) (left : nat) : M bool :=
  match left with
  | O => cprintf LogSclHeldLow;; ret false
  | S left' =>
      udelay I2C_BITBANG_DELAY_US;;
      let* c := i2c_raw_get_scl p in
      if c =? 0 then unwedge_wait_scl p left' else ret true
  end.

(** The inner loop [for (j = 0; j < 9; j++)], with [left = 9 - j]. *)
Fixpoint unwedge_clock_bits (p : Z) (left : nat) : M unit :=
  match left with
  | O => ret tt
  | S left' =>
      let* d := i2c_raw_get_sda p in
      if d =? 0 then
        i2c_raw_set_scl p 0;;
        udelay I2C_BITBANG_DELAY_US;;
        i2c_raw_set_scl p 1;;
        udelay I2C_BITBANG_DELAY_US;;
        unwedge_clock_bits p left'
      else ret tt
  end.

(** The loop [for (i = 0; i < UNWEDGE_SDA_ATTEMPTS; i++)], with
    [left = UNWEDGE_SDA_ATTEMPTS - i]. *)
Fixpoint unwedge_sda_attempts (p : Z) (left : nat) : M unit :=
  match left with
  | O => ret tt
  | S left' =>
      i2c_raw_set_scl p 1;;
      udelay I2C_BITBANG_DELAY_US;;
      unwedge_clock_bits p 9;;
      i2c_raw_set_sda p 0;;
      udelay I2C_BITBANG_DELAY_US;;
      i2c_raw_set_sda p 1;;
      udelay I2C_BITBANG_DELAY_US;;
      let* d := i2c_raw_get_sda p in
      if d =? 0 then unwedge_sda_attempts p left'
      else
        let* c := i2c_raw_get_scl p in
        if c =? 0 then unwedge_sda_attempts p left' else ret tt
  end.

Definition i2c_unwedge (p : Z) : M ec_error :=
  let* rv := i2c_raw_mode p 1 in
  if ec_is_success rv then
    let* c := i2c_raw_get_scl p in
    let* released :=
      (if c =? 0 then unwedge_wait_scl p UNWEDGE_SCL_ATTEMPTS else ret true) in
    if released then
      let* d := i2c_raw_get_sda p in
      if d =? 0 then
        cprintf LogSdaHeldLowOnEntry;;
        unwedge_sda_attempts p UNWEDGE_SDA_ATTEMPTS;;
        let* d' := i2c_raw_get_sda p in
        let* ret1 :=
          (if d' =? 0 then cprintf LogSdaStillLow;; ret EC_ERROR_UNKNOWN
           else ret EC_SUCCESS) in
        let* c' := i2c_raw_get_scl p in
        let* ret2 :=
          (if c' =? 0 then cprintf LogSclStillLow;; ret EC_ERROR_UNKNOWN
           else ret ret1) in
        i2c_raw_mode p 0;;
        ret ret2
      else
        i2c_raw_mode p 0;;
        ret EC_SUCCESS
    else
      i2c_raw_mode p 0;;
      ret EC_ERROR_UNKNOWN
  else ret EC_ERROR_UNKNOWN.

(** *** Waiting for the port *)

(** The loop [while (i & LM4_I2C_MCS_BUSY)] of [wait_idle] and the code
    after it.  The loop has no bound of its own (a wait that is woken by
    other events before its timer fires starts over), hence the fuel. *)
Fixpoint wait_idle_loop (fuel : nat) (p i event : Z) : M ec_error :=
  if Z.land i LM4_I2C_MCS_BUSY =? 0 then
    let* cur := task_get_current in
    task_set_event cur event 0;;
    if Z.land i (Z.lor (Z.lor LM4_I2C_MCS_CLKTO LM4_I2C_MCS_ARBLST)
                       LM4_I2C_MCS_ERROR) =? 0
    then ret EC_SUCCESS
    else ret EC_ERROR_UNKNOWN
  else
    match fuel with
    | O => stop_with OutOfFuel
    | S fuel' =>
        let* cur := task_get_current in
        set_task_waiting_on_port p cur;;
        reg_write (LM4_I2C MIMR p) 3;;
        let* w := task_wait_event 1000000 in
        let event' := Z.lor event (Z.land w (Z.lnot TASK_EVENT_I2C_IDLE)) in
        reg_write (LM4_I2C MIMR p) 0;;
        set_task_waiting_on_port p TASK_ID_INVALID;;
        if Z.land event' TASK_EVENT_TIMER =? 0 then
          let* i' := reg_read (LM4_I2C MCS p) in
          wait_idle_loop fuel' p i' event'
        else
          let* cur' := task_get_current in
          task_set_event cur' (Z.land event' (Z.lnot TASK_EVENT_TIMER)) 0;;
          ret EC_ERROR_TIMEOUT
    end.

Definition wait_idle (fuel : nat) (p : Z) : M ec_error :=
  let* i := reg_read (LM4_I2C MCS p) in
  wait_idle_loop fuel p i 0.

(** *** The transaction engine *)

(** The block guarded by the stale-state test at the head of
    [i2c_transmit_receive]: log, unwedge, soft-reset, restore, settle.
    Of the two samples of the lines taken for the message, the one for the
    SCL argument is the first or the second, as [scl_read_first] says. *)
Definition i2c_transmit_receive_recover (p slave_addr reg_mcs : Z) : M unit :=
  let* tpr := reg_read (LM4_I2C MTPR p) in
  let* l1 := i2c_get_line_levels p in
  let* l2 := i2c_get_line_levels p in
  cprintf (LogBadStatus p slave_addr reg_mcs
             (Z.land (if scl_read_first then l1 else l2) I2C_LINE_SCL_HIGH)
             (Z.land (if scl_read_first then l2 else l1) I2C_LINE_SDA_HIGH));;
  i2c_unwedge p;;
  let* r1 := reg_read LM4_SYSTEM_SRI2C in
  reg_write LM4_SYSTEM_SRI2C (Z.lor r1 (Z.shiftl 1 p));;
  clock_wait_cycles 3;;
  let* r2 := reg_read LM4_SYSTEM_SRI2C in
  reg_write LM4_SYSTEM_SRI2C (Z.land r2 (Z.lnot (Z.shiftl 1 p)));;
  clock_wait_cycles 3;;
  reg_write (LM4_I2C MCR p) 16;;
  reg_write (LM4_I2C MTPR p) tpr;;
  usleep 1000.

(** The stale-state test itself, with C's short-circuit evaluation: the
    line levels are sampled only when the status bits are clear. *)
Definition i2c_transmit_receive_stale (p reg_mcs : Z) (started : bool) : M bool :=
  if started then ret false
  else if negb (Z.land reg_mcs (Z.lor LM4_I2C_MCS_CLKTO LM4_I2C_MCS_ARBLST) =? 0)
  then ret true
  else
    let* l := i2c_get_line_levels p in
    ret (negb (l =? I2C_LINE_IDLE)).

(** The loop [for (i = 0; i < transmit_size; i++)], with
    [left = transmit_size - i].  [Some rv] is the early [return rv]. *)
Fixpoint transmit_loop (fuel : nat) (p : Z) (transmit_data : list Z)
    (transmit_size receive_size stop : Z) (left : nat) (i : Z) (started : bool)
    : M (option ec_error * bool) :=
  match left with
  | O => ret (None, started)
  | S left' =>
      let* b := load transmit_data i in
      reg_write (LM4_I2C MDR p) b;;
      let reg_mcs := LM4_I2C_MCS_RUN in
      let reg_mcs :=
        if started then reg_mcs else Z.lor reg_mcs LM4_I2C_MCS_START in
      let reg_mcs :=
        if negb (stop =? 0) && (receive_size =? 0) && (i =? transmit_size - 1)
        then Z.lor reg_mcs LM4_I2C_MCS_STOP else reg_mcs in
      reg_write (LM4_I2C MCS p) reg_mcs;;
      let* rv := wait_idle fuel p in
      if ec_is_success rv
      then transmit_loop fuel p transmit_data transmit_size receive_size stop
             left' (i + 1) true
      else ret (Some rv, true)
  end.

(** The loop [for (i = 0; i < receive_size; i++)], with
    [left = receive_size - i]; the buffer is returned as the loop left it. *)
Fixpoint receive_loop (fuel : nat) (p : Z) (receive_data : list Z)
    (receive_size stop : Z) (left : nat) (i : Z) (started : bool)
    : M (option ec_error * list Z) :=
  match left with
  | O => ret (None, receive_data)
  | S left' =>
      let* b := load receive_data i in
      reg_write (LM4_I2C MDR p) b;;
      let reg_mcs := LM4_I2C_MCS_RUN in
      let reg_mcs :=
        if started then reg_mcs else Z.lor reg_mcs LM4_I2C_MCS_START in
      let reg_mcs :=
        if negb (stop =? 0) && (i =? receive_size - 1)
        then Z.lor reg_mcs LM4_I2C_MCS_STOP
        else Z.lor reg_mcs LM4_I2C_MCS_ACK in
      reg_write (LM4_I2C MCS p) reg_mcs;;
      let* rv := wait_idle fuel p in
      if ec_is_success rv then
        let* v := reg_read (LM4_I2C MDR p) in
        let* receive_data' := store receive_data i (Z.land v 255) in
        receive_loop fuel p receive_data' receive_size stop left' (i + 1) true
      else ret (Some rv, receive_data)
  end.

(** The block [if (transmit_data) { ... }]. *)
Definition i2c_transmit_phase (fuel : nat) (p slave_addr : Z)
    (transmit_data : option (list Z)) (transmit_size receive_size stop : Z)
    (started : bool) : M (option ec_error * bool) :=
  match transmit_data with
  | None => ret (None, started)
  | Some d =>
      reg_write (LM4_I2C MSA p) (Z.land slave_addr 255);;
      transmit_loop fuel p d transmit_size receive_size stop
        (Z.to_nat transmit_size) 0 started
  end.

(** The block [if (receive_size) { ... }]. *)
Definition i2c_receive_phase (fuel : nat) (p slave_addr : Z)
    (transmit_size : Z) (receive_data : list Z) (receive_size stop : Z)
    (started : bool) : M (option ec_error * list Z) :=
  if receive_size =? 0 then ret (None, receive_data)
  else
    let started := if transmit_size =? 0 then started else false in
    reg_write (LM4_I2C MSA p) (Z.lor (Z.land slave_addr 255) 1);;
    receive_loop fuel p receive_data receive_size stop
      (Z.to_nat receive_size) 0 started.

(** The two phases and the final status check, lines 151 to 220 of the
    function.  The result carries the receive buffer as the call left it. *)
Definition i2c_transmit_receive_phases (fuel : nat) (p slave_addr : Z)
    (transmit_data : option (list Z)) (transmit_size : Z)
    (receive_data : list Z) (receive_size : Z) (stop : Z) (started : bool)
    : M (ec_error * list Z) :=
  let* tx := i2c_transmit_phase fuel p slave_addr transmit_data transmit_size
               receive_size stop started in
  match tx with
  | (Some rv, _) => ret (rv, receive_data)
  | (None, started) =>
      let* rx := i2c_receive_phase fuel p slave_addr transmit_size
                   receive_data receive_size stop started in
      match rx with
      | (Some rv, buf) => ret (rv, buf)
      | (None, buf) =>
          let* v := reg_read (LM4_I2C MCS p) in
          if Z.land v (Z.lor (Z.lor LM4_I2C_MCS_CLKTO LM4_I2C_MCS_ARBLST)
                             LM4_I2C_MCS_ERROR) =? 0
          then ret (EC_SUCCESS, buf)
          else ret (EC_ERROR_UNKNOWN, buf)
      end
  end.

(** The status read and the stale-state block, lines 118 to 149. *)
Definition i2c_transmit_receive_preflight (p slave_addr : Z) (started : bool)
    : M unit :=
  let* reg_mcs := reg_read (LM4_I2C MCS p) in
  let* stale := i2c_transmit_receive_stale p reg_mcs started in
  if stale then i2c_transmit_receive_recover p slave_addr reg_mcs else ret tt.

(** [transmit_data] is [None] for a null pointer. *)
Definition i2c_transmit_receive (fuel : nat) (p slave_addr : Z)
    (transmit_data : option (list Z)) (transmit_size : Z)
    (receive_data : list Z) (receive_size : Z) (start stop : Z)
    : M (ec_error * list Z) :=
  let started := start =? 0 in
  if (transmit_size =? 0) && (receive_size =? 0) then ret (EC_SUCCESS, receive_data)
  else
    i2c_transmit_receive_preflight p slave_addr started;;
    i2c_transmit_receive_phases fuel p slave_addr transmit_data transmit_size
      receive_data receive_size stop started.

(** *** Register reads *)

(** [data] is the value at the caller's [*data] before the call, the
    result carries its value after the call.  [b0] and [b1] are the
    indeterminate initial contents of the local [buf]. *)
Definition i2c_read16 (fuel : nat) (p slave_addr offset data b0 b1 : Z)
    : M (ec_error * Z) :=
  let reg := to_uint8 (Z.land offset 255) in
  mutex_lock (port_mutex p);;
  let* r := i2c_transmit_receive fuel p slave_addr (Some [reg]) 1 [b0; b1] 2
              START STOP in
  mutex_unlock (port_mutex p);;
  let (rv, buf) := r in
  if ec_is_success rv then
    let* x0 := load buf 0 in
    let* x1 := load buf 1 in
    if negb (Z.land slave_addr I2C_FLAG_BIG_ENDIAN =? 0)
    then ret (EC_SUCCESS, Z.lor (Z.shiftl x0 8) x1)
    else ret (EC_SUCCESS, Z.lor (Z.shiftl x1 8) x0)
  else ret (rv, data).

(** [val0] is the indeterminate initial content of the local [val]. *)
Definition i2c_read8 (fuel : nat) (p slave_addr offset data val0 : Z)
    : M (ec_error * Z) :=
  let reg := to_uint8 offset in
  mutex_lock (port_mutex p);;
  let* r := i2c_transmit_receive fuel p slave_addr (Some [reg]) 1 [val0] 1
              START STOP in
  mutex_unlock (port_mutex p);;
  let (rv, buf) := r in
  if ec_is_success rv then
    let* val := load buf 0 in
    ret (rv, val)
  else ret (rv, data).

(** [data] is the caller's buffer and [len] the capacity the caller
    states; the result carries the buffer after the call.  [bl0] is the
    indeterminate initial content of the local [block_length]. *)
Definition i2c_read_string (fuel : nat) (p slave_addr offset : Z)
    (data : list Z) (len : Z) (bl0 : Z) : M (ec_error * list Z) :=
  mutex_lock (port_mutex p);;
  let reg := to_uint8 offset in
  let* r := i2c_transmit_receive fuel p slave_addr (Some [reg]) 1 [bl0] 1
              START NO_STOP in
  let (rv, lenbuf) := r in
  if ec_is_success rv then
    let* block_length := load lenbuf 0 in
    let block_length :=
      if negb (len =? 0) && (block_length >? sint32 (len - 1))
      then to_uint8 (sint32 (len - 1)) else block_length in
    let* r2 := i2c_transmit_receive fuel p slave_addr None 0 data block_length
                 NO_START STOP in
    let (rv2, data') := r2 in
    let* data'' := store data' block_length 0 in
    mutex_unlock (port_mutex p);;
    ret (rv2, data'')
  else
    mutex_unlock (port_mutex p);;
    ret (rv, data).

(** *** Clock recalibration *)

(** The loop [for (i = 0; i < I2C_PORTS_USED; i++)] over the port table. *)
Fixpoint i2c_freq_changed_loop (freq : Z) (tbl : list i2c_port_t) : M unit :=
  match tbl with
  | [] => ret tt
  | e :: tbl' =>
      match i2c_tpr freq (kbps e) with
      | None => stop_with DivideByZero
      | Some tpr =>
          reg_write (LM4_I2C MTPR (port e)) tpr;;
          i2c_freq_changed_loop freq tbl'
      end
  end.

Definition i2c_freq_changed : M ec_error :=
  let* freq := clock_get_freq in
  i2c_freq_changed_loop freq i2c_ports;;
  ret EC_SUCCESS.

End Driver.

(** ** Observing the bus lines in a log *)

(** A monitor of the two lines of one port while the driver bit-bangs
    them.  It reads a log from left to right and keeps
    - [polls]: the delays that elapsed before the data line was first
      sampled, that is the polls of the clock-stretch wait;
    - [toggles]: the low pulses driven on the clock since the last STOP;
    - [attempts]: for each STOP condition driven so far (data driven low),
      the number of clock pulses that led to it, one entry per attempt of
      the data-release loop;
    - [scl_level], [sda_level]: the level last sampled on each line. *)
Record bus_obs : Type := {
  polls : nat;
  data_phase : bool;
  toggles : nat;
  attempts : list nat;
  scl_level : option Z;
  sda_level : option Z
}.

Definition obs0 : bus_obs :=
  {| polls := 0; data_phase := false; toggles := 0; attempts := [];
     scl_level := None; sda_level := None |}.

Definition observe (scl_pin sda_pin : Z) (o : bus_obs) (e : event) : bus_obs :=
  match e with
  | Udelay _ =>
      if data_phase o then o
      else {| polls := S (polls o); data_phase := false; toggles := toggles o;
              attempts := attempts o; scl_level := scl_level o;
              sda_level := sda_level o |}
  | GpioGetLevel g v =>
      if g =? sda_pin then
        {| polls := polls o; data_phase := true; toggles := toggles o;
           attempts := attempts o; scl_level := scl_level o;
           sda_level := Some v |}
      else if g =? scl_pin then
        {| polls := polls o; data_phase := data_phase o; toggles := toggles o;
           attempts := attempts o; scl_level := Some v;
           sda_level := sda_level o |}
      else o
  | GpioSetLevel g v =>
      if (g =? sda_pin) && (v =? 0) then
        {| polls := polls o; data_phase := data_phase o; toggles := 0;
           attempts := attempts o ++ [toggles o]; scl_level := scl_level o;
           sda_level := sda_level o |}
      else if (g =? scl_pin) && (v =? 0) then
        {| polls := polls o; data_phase := data_phase o; toggles := S (toggles o);
           attempts := attempts o; scl_level := scl_level o;
           sda_level := sda_level o |}
      else o
  | _ => o
  end.

Definition observe_all (scl_pin sda_pin : Z) (tr : list event) : bus_obs :=
  fold_left (observe scl_pin sda_pin) tr obs0.

(** A line reads idle-high when its last sample exists and is not 0. *)
Definition reads_high (l : option Z) : Prop :=
  match l with
  | Some v => v <> 0
  | None => False
  end.

(** What [i2c_raw_mode] does to the pins of entry [e] on entry and on exit. *)
Definition raw_mode_enter (gl : Z -> gpio_info) (e : i2c_port_t) : list event :=
  [ MutexLock raw_mode_mutex;
    GpioSetAlternateFunction (gpio_port (gl (sda e))) (gpio_mask (gl (sda e))) 0;
    GpioSetAlternateFunction (gpio_port (gl (scl e))) (gpio_mask (gl (scl e))) 0;
    GpioSetFlags (scl e) [GPIO_OUTPUT; GPIO_OPEN_DRAIN];
    GpioSetLevel (scl e) 1;
    GpioSetFlags (sda e) [GPIO_OUTPUT; GPIO_OPEN_DRAIN];
    GpioSetLevel (sda e) 1 ].

Definition raw_mode_exit (gl : Z -> gpio_info) (e : i2c_port_t) : list event :=
  [ GpioSetAlternateFunction (gpio_port (gl (sda e))) (gpio_mask (gl (sda e))) 3;
    GpioSetAlternateFunction (gpio_port (gl (scl e))) (gpio_mask (gl (scl e))) 3;
    GpioSetFlags (scl e) [GPIO_OUTPUT];
    GpioSetFlags (sda e) [GPIO_OUTPUT; GPIO_OPEN_DRAIN];
    MutexUnlock raw_mode_mutex ].

(** Events of the bit-bang session proper: sampling, driving, waiting and
    logging; nothing that changes the pin function or takes a lock. *)
Definition line_event (e : event) : bool :=
  match e with
  | GpioGetLevel _ _ | GpioSetLevel _ _ | GpioSetFlags _ _ | Udelay _ | Cprintf _ => true
  | _ => false
  end.

(** ** A board and some worlds to run the driver on *)

Definition demo_ports : list i2c_port_t :=
  [ {| name := "batt"; port := 0; kbps := 100; scl := 10; sda := 11 |};
    {| name := "lightbar"; port := 1; kbps := 400; scl := 12; sda := 13 |} ].

Definition demo_port (i : nat) : i2c_port_t :=
  nth i demo_ports {| name := "none"; port := 0; kbps := 0; scl := 0; sda := 0 |}.

Definition demo_gpio_list (g : Z) : gpio_info :=
  {| gpio_port := g / 8; gpio_mask := Z.shiftl 1 (g mod 8) |}.

Definition DEMO_EVENT_TIMER : Z := Z.shiftl 1 31.
Definition DEMO_EVENT_I2C_IDLE : Z := Z.shiftl 1 28.
Definition DEMO_TASK_ID_INVALID : Z := 255.
Definition DEMO_FLAG_BIG_ENDIAN : Z := Z.shiftl 1 16.

(** A quiet bus: the port is never busy, both lines read high. *)
Definition env_idle : environment :=
  fun _ q =>
    match q with
    | QRead (LM4_I2C MBMON _) => 3
    | QGpioLevel _ => 1
    | QTaskCurrent => 7
    | QClockFreq => 66666667
    | _ => 0
    end.

(** A slave stretches the clock of the demo battery port forever. *)
Definition env_scl_low : environment :=
  fun _ q =>
    match q with
    | QGpioLevel g => if g =? 10 then 0 else 1
    | _ => 0
    end.

(** A slave holds the data line of the demo battery port low forever. *)
Definition env_sda_low : environment :=
  fun _ q =>
    match q with
    | QGpioLevel g => if g =? 11 then 0 else 1
    | _ => 0
    end.

(** The system clock runs at the largest value an [int] holds. *)
Definition env_clock_max : environment :=
  fun _ q =>
    match q with
    | QClockFreq => 2147483647
    | _ => 0
    end.

(** ** What the clock recalibration has to achieve *)

(** [D] is the least non-negative divisor that keeps the bus of a port with
    target [F] kHz at or below the target under system clock [C]. *)
Definition divisor_spec (C F D : Z) : Prop :=
  0 <= D /\
  bus_freq_within C F D /\
  forall D', 0 <= D' -> bus_freq_within C F D' -> D <= D'.

(** The divisor of the datasheet formula, rounded up:
    [ceil (C / (2 * (6 + 4) * F * 1000)) - 1]. *)
Definition round_up_divisor (C F : Z) : Z :=
  Qceiling (inject_Z C / inject_Z (2 * (6 + 4) * F * 1000)) - 1.

(** ** Reading a log of [wait_idle] *)

(** The values [task_wait_event] returned, oldest first. *)
Fixpoint wait_events (tr : list event) : list Z :=
  match tr with
  | [] => []
  | TaskWaitEvent _ w :: tr' => w :: wait_events tr'
  | _ :: tr' => wait_events tr'
  end.

(** The port stays busy and the only wake-up is the timer, which comes
    together with an unrelated event (bit 2); the calling task is task 7. *)
Definition env_never_idle : environment :=
  fun _ q =>
    match q with
    | QRead (LM4_I2C MCS _) => 1
    | QRead (LM4_I2C MBMON _) => 3
    | QTaskWait _ => Z.lor DEMO_EVENT_TIMER 4
    | QTaskCurrent => 7
    | _ => 0
    end.

(** ** Kinds of log entries *)

(** A byte is issued on a port by a write to its address, data or control
    register. *)
Definition issue_event (e : event) : bool :=
  match e with
  | Write (LM4_I2C MSA _) _ | Write (LM4_I2C MDR _) _ | Write (LM4_I2C MCS _) _ => true
  | _ => false
  end.

(** What only the recovery block of [i2c_transmit_receive] does: the bad
    status message, the raw-mode session of [i2c_unwedge], the soft reset
    through [LM4_SYSTEM_SRI2C], the restore of MCR and MTPR, the settle
    delay. *)
Definition recovery_event (e : event) : bool :=
  match e with
  | Read LM4_SYSTEM_SRI2C _ | Write LM4_SYSTEM_SRI2C _
  | Read (LM4_I2C MTPR _) _ | Write (LM4_I2C MTPR _) _ | Write (LM4_I2C MCR _) _
  | Usleep _ | ClockWaitCycles _ | Udelay _
  | GpioGetLevel _ _ | GpioSetLevel _ _ | GpioSetFlags _ _
  | GpioSetAlternateFunction _ _ _
  | MutexLock raw_mode_mutex | MutexUnlock raw_mode_mutex
  | Cprintf _ => true
  | _ => false
  end.

(** The accesses of [i2c_unwedge]: pins, the raw-mode lock, delays, log. *)
Definition raw_event (e : event) : bool :=
  match e with
  | Udelay _
  | GpioGetLevel _ _ | GpioSetLevel _ _ | GpioSetFlags _ _
  | GpioSetAlternateFunction _ _ _
  | MutexLock raw_mode_mutex | MutexUnlock raw_mode_mutex
  | Cprintf _ => true
  | _ => false
  end.

(** The accesses of a transfer proper: the port's status, address, data,
    control and interrupt-mask registers, and the scheduler. *)
Definition transfer_event (e : event) : bool :=
  match e with
  | Read (LM4_I2C MCS _) _ | Read (LM4_I2C MDR _) _
  | Write (LM4_I2C MSA _) _ | Write (LM4_I2C MDR _) _ | Write (LM4_I2C MCS _) _
  | Write (LM4_I2C MIMR _) _
  | TaskGetCurrent _ | TaskWaitEvent _ _ | TaskSetEvent _ _ _
  | StoreTaskWaiting _ _ => true
  | _ => false
  end.

(** The accesses of [wait_idle]. *)
Definition wait_event (e : event) : bool :=
  match e with
  | Read (LM4_I2C MCS _) _ | Write (LM4_I2C MIMR _) _
  | TaskGetCurrent _ | TaskWaitEvent _ _ | TaskSetEvent _ _ _
  | StoreTaskWaiting _ _ => true
  | _ => false
  end.

(** The control words written to the MCS register of port [p], oldest first. *)
Fixpoint mcs_writes (p : Z) (tr : list event) : list Z :=
  match tr with
  | [] => []
  | Write (LM4_I2C MCS q) w :: tr' =>
      if q =? p then w :: mcs_writes p tr' else mcs_writes p tr'
  | _ :: tr' => mcs_writes p tr'
  end.

(** ** Shapes of runs *)

(** [m] only appends to the log, and what it appends satisfies [P];
    it may get stuck. *)
Definition logs_only {A : Type} (P : event -> bool) (m : M A) : Prop :=
  forall h, exists r tr, m h = (r, h ++ tr) /\ forallb P tr = true.

(** The same, and [m] returns. *)
Definition returns_logging {A : Type} (P : event -> bool) (m : M A) : Prop :=
  forall h, exists a tr, m h = (Ok a, h ++ tr) /\ forallb P tr = true.

(** [w & flag] is not zero. *)
Definition has_flag (w flag : Z) : bool := negb (Z.land w flag =? 0).

(** The soft reset of port [p] through the system register, the restore of
    master mode and of the divisor [tpr], and the settle delay; [r1] and [r2]
    are the values the system register held at its two reads. *)
Definition soft_reset_events (p tpr r1 r2 : Z) : list event :=
  [ Read LM4_SYSTEM_SRI2C r1;
    Write LM4_SYSTEM_SRI2C (Z.lor r1 (Z.shiftl 1 p));
    ClockWaitCycles 3;
    Read LM4_SYSTEM_SRI2C r2;
    Write LM4_SYSTEM_SRI2C (Z.land r2 (Z.lnot (Z.shiftl 1 p)));
    ClockWaitCycles 3;
    Write (LM4_I2C MCR p) 16;
    Write (LM4_I2C MTPR p) tpr;
    Usleep 1000 ].

(** The stale-state test of [i2c_transmit_receive], on the status [m] read
    from MCS and the line levels [l]: a start is requested, and the status
    shows a clock timeout or a lost arbitration, or the lines are not idle. *)
Definition stale_port (start m l : Z) : bool :=
  negb (start =? 0) &&
  (negb (Z.land m (Z.lor LM4_I2C_MCS_CLKTO LM4_I2C_MCS_ARBLST) =? 0)
   || negb (l =? I2C_LINE_IDLE)).

(** The status register shows a stale clock timeout, the lines are idle. *)
Definition env_clock_timeout : environment :=
  fun _ q =>
    match q with
    | QRead (LM4_I2C MCS _) => 128
    | QRead (LM4_I2C MBMON _) => 3
    | QGpioLevel _ => 1
    | QTaskCurrent => 7
    | _ => 0
    end.

(** The status register is clean, the data line is low. *)
Definition env_data_low_clean_status : environment :=
  fun _ q =>
    match q with
    | QRead (LM4_I2C MBMON _) => 1
    | QGpioLevel g => if g =? 11 then 0 else 1
    | QTaskCurrent => 7
    | _ => 0
    end.

(** The values read from the data register of port [p], oldest first. *)
Fixpoint mdr_reads (p : Z) (tr : list event) : list Z :=
  match tr with
  | [] => []
  | Read (LM4_I2C MDR q) v :: tr' =>
      if q =? p then v :: mdr_reads p tr' else mdr_reads p tr'
  | _ :: tr' => mdr_reads p tr'
  end.

Definition is_mdr_read (e : event) : bool :=
  match e with
  | Read (LM4_I2C MDR _) _ => true
  | _ => false
  end.

(** A slave that reports a block of 200 bytes, every byte reading 200; the
    port is never busy. *)
Definition env_long_block : environment :=
  fun _ q =>
    match q with
    | QRead (LM4_I2C MDR _) => 200
    | QRead (LM4_I2C MBMON _) => 3
    | QTaskCurrent => 7
    | _ => 0
    end.

(** A slave that reports a block of 3 bytes and stalls after the first
    byte of the block: the port is idle until two bytes have been read from
    the data register (the length and one byte of the block) and busy for
    ever after, so that the next wait ends with the timer. *)
Definition env_stalls_in_block : environment :=
  fun h q =>
    match q with
    | QRead (LM4_I2C MDR _) => 3
    | QRead (LM4_I2C MCS _) => if Nat.leb 2 (length (mdr_reads 0 h)) then 1 else 0
    | QRead (LM4_I2C MBMON _) => 3
    | QTaskWait _ => DEMO_EVENT_TIMER
    | QTaskCurrent => 7
    | _ => 0
    end.

(** ** The rest of the driver: writes, the lock, interrupts, console commands *)

(** The driver's table [task_waiting_on_port] as the stores of a log leave
    it.  The table has static storage, so an entry holds 0 until the first
    store to it. *)
Definition store_task_waiting (p id : Z) (e : event) : Z :=
  match e with
  | StoreTaskWaiting q id' => if q =? p then id' else id
  | _ => id
  end.

Definition task_waiting_on_port (h : list event) (p : Z) : Z :=
  fold_left (store_task_waiting p) h 0.

(** What the console commands print with [ccprintf] and [ccputs], one
    constructor per format string of the source, in the order of the
    source.  The command console is an output of its own: a command returns
    what it printed, in order, beside the log of its hardware accesses. *)
Inductive console_out : Type :=
  | ConScanning (port : Z) (desc : string)
  | ConPortBusy (sda scl : Z)
  | ConDot
  | ConFound (a : Z)
  | ConNewline
  | ConReading (count port addr : Z)
  | ConByte (d : Z).

(** What a console command returns: a code of the driver ([CmdReturn rv]) or
    one of the parameter errors that the commands name.  In C these are
    members of the one enumeration of [ec_error], which is declared in a
    header that is not part of the sources. *)
Inductive command_result : Type :=
  | CmdReturn (rv : ec_error)
  | EC_ERROR_PARAM_COUNT
  | EC_ERROR_PARAM1
  | EC_ERROR_PARAM2
  | EC_ERROR_PARAM3.

Section EntryPoints.

Variable env : environment.
Variable i2c_ports : list i2c_port_t.
Variable gpio_list : Z -> gpio_info.
Variable scl_read_first : bool.
Variable TASK_EVENT_TIMER : Z.
Variable TASK_EVENT_I2C_IDLE : Z.
Variable TASK_ID_INVALID : Z.
Variable I2C_FLAG_BIG_ENDIAN : Z.

(** [strtoi] of util.c is not part of the sources and is left abstract: any
    function from a string to the number parsed and to what is left of the
    string (the commands call it with base 0).  The test of the source on
    the end pointer is a test for a non-empty rest. *)
Variable strtoi : string -> Z * string.

(** C does not fix the order in which the arguments of a call are
    evaluated.  The two arguments of the busy message of [scan_bus] each
    read the bus monitor; [sda_read_first] is the choice of the compiler
    there: [true] when the read for the SDA argument comes before the read
    for the SCL argument, [false] when it comes after. *)
Variable sda_read_first : bool.

Local Abbreviation wait_idle' :=
  (wait_idle env TASK_EVENT_TIMER TASK_EVENT_I2C_IDLE TASK_ID_INVALID).
Local Abbreviation i2c_transmit_receive' :=
  (i2c_transmit_receive env i2c_ports gpio_list scl_read_first
      TASK_EVENT_TIMER TASK_EVENT_I2C_IDLE
     TASK_ID_INVALID).

(** *** The bus lock *)

Definition i2c_lock (p lock : Z) : M unit :=
  if lock =? 0 then mutex_unlock (port_mutex p) else mutex_lock (port_mutex p).

(** *** Register writes *)

(** The receive pointer of the writes is null and the receive size 0: the
    empty buffer.  [data >> 8] on an [int] is the arithmetic shift. *)
Definition i2c_write16 (fuel : nat) (p slave_addr offset data : Z) : M ec_error :=
  let buf0 := to_uint8 (Z.land offset 255) in
  let buf12 :=
    if negb (Z.land slave_addr I2C_FLAG_BIG_ENDIAN =? 0)
    then (to_uint8 (Z.land (Z.shiftr data 8) 255), to_uint8 (Z.land data 255))
    else (to_uint8 (Z.land data 255), to_uint8 (Z.land (Z.shiftr data 8) 255)) in
  mutex_lock (port_mutex p);;
  let* r := i2c_transmit_receive' fuel p slave_addr
              (Some [buf0; fst buf12; snd buf12]) 3 [] 0 START STOP in
  mutex_unlock (port_mutex p);;
  ret (fst r).

Definition i2c_write8 (fuel : nat) (p slave_addr offset data : Z) : M ec_error :=
  let buf0 := to_uint8 offset in
  let buf1 := to_uint8 data in
  mutex_lock (port_mutex p);;
  let* r := i2c_transmit_receive' fuel p slave_addr (Some [buf0; buf1]) 2 [] 0
              START STOP in
  mutex_unlock (port_mutex p);;
  ret (fst r).

(** *** Interrupt handlers *)

(** The read [task_waiting_on_port[port]]; the table has [NUM_PORTS]
    entries, and a read outside the table stops the model. *)
Definition get_task_waiting_on_port (p : Z) : M Z :=
  if (0 <=? p) && (p <? NUM_PORTS)
  then fun h => (Ok (task_waiting_on_port h p), h)
  else stop_with OutOfBounds.

Definition handle_interrupt (p : Z) : M unit :=
  let* id := get_task_waiting_on_port p in
  let* s := reg_read env (LM4_I2C MMIS p) in
  reg_write (LM4_I2C MICR p) s;;
  if id =? TASK_ID_INVALID then ret tt
  else task_set_event id TASK_EVENT_I2C_IDLE 0.

Definition i2c0_interrupt : M unit := handle_interrupt 0.
Definition i2c1_interrupt : M unit := handle_interrupt 1.
Definition i2c2_interrupt : M unit := handle_interrupt 2.
Definition i2c3_interrupt : M unit := handle_interrupt 3.
Definition i2c4_interrupt : M unit := handle_interrupt 4.
Definition i2c5_interrupt : M unit := handle_interrupt 5.

(** *** Console commands *)

(** The loop [for (a = 0; a < 0x100; a += 2)] of [scan_bus], with
    [left = (0x100 - a) / 2]; the result is what the loop printed. *)
Fixpoint scan_bus_loop (fuel : nat) (p : Z) (left : nat) (a : Z)
    : M (list console_out) :=
  match left with
  | O => ret []
  | S left' =>
      reg_write (LM4_I2C MSA p) (Z.lor a 1);;
      reg_write (LM4_I2C MCS p) 7;;
      let* rv := wait_idle' fuel p in
      let found := if ec_is_success rv then [ConFound a] else [] in
      let* out := scan_bus_loop fuel p left' (a + 2) in
      ret (ConDot :: found ++ out)
  end.

(** The busy message reads the bus monitor twice more, once for each of its
    arguments: [d] is the read for the SDA argument and [c] the read for the
    SCL argument, whichever of the two comes first. *)
Definition scan_bus (fuel : nat) (p : Z) (desc : string) : M (list console_out) :=
  let* a := reg_read env (LM4_I2C MBMON p) in
  if negb (Z.land a 3 =? 3) then
    let* m1 := reg_read env (LM4_I2C MBMON p) in
    let* m2 := reg_read env (LM4_I2C MBMON p) in
    let d := if sda_read_first then m1 else m2 in
    let c := if sda_read_first then m2 else m1 in
    ret [ConScanning p desc;
         ConPortBusy (if Z.land d 2 =? 0 then 0 else 1)
                     (if Z.land c 1 =? 0 then 0 else 1)]
  else
    mutex_lock (port_mutex p);;
    let* out := scan_bus_loop fuel p 128 0 in
    mutex_unlock (port_mutex p);;
    ret (ConScanning p desc :: out ++ [ConNewline]).

(** The loop [for (i = 0; i < I2C_PORTS_USED; i++)] of [command_scan]. *)
Fixpoint command_scan_loop (fuel : nat) (tbl : list i2c_port_t)
    : M (list console_out) :=
  match tbl with
  | [] => ret []
  | e :: tbl' =>
      let* out := scan_bus fuel (port e) (name e) in
      let* out' := command_scan_loop fuel tbl' in
      ret (out ++ out')
  end.

Definition command_scan (fuel : nat) (argc : Z) (argv : list string)
    : M (command_result * list console_out) :=
  let* out := command_scan_loop fuel i2c_ports in
  ret (CmdReturn EC_SUCCESS, out).

(** An argument [argv[i]]. *)
Definition arg (argv : list string) (i : nat) : M string :=
  match argv !! i with
  | Some s => ret s
  | None => stop_with OutOfBounds
  end.

(** The read loop [for (i = 0; i < count; i++)] of [command_i2cread], with
    [left = count - i].  [Some rv] is the early [return rv]; the result
    carries what the loop printed. *)
Fixpoint command_i2cread_loop (fuel : nat) (p count : Z) (left : nat) (i : Z)
    : M (option ec_error * list console_out) :=
  match left with
  | O => ret (None, [])
  | S left' =>
      (if i =? 0
       then reg_write (LM4_I2C MCS p) (if count >? 1 then 11 else 7)
       else reg_write (LM4_I2C MCS p) (if i =? count - 1 then 5 else 9));;
      let* rv := wait_idle' fuel p in
      if ec_is_success rv then
        let* v := reg_read env (LM4_I2C MDR p) in
        let d := Z.land v 255 in
        let* r := command_i2cread_loop fuel p count left' (i + 1) in
        ret (fst r, ConByte d :: snd r)
      else
        mutex_unlock (port_mutex p);;
        ret (Some rv, [])
  end.

(** The search loop over [i2c_ports] finds an entry or runs to
    [I2C_PORTS_USED]: [find_port].  [count] is an [int]: a count that is
    zero or negative reads nothing. *)
Definition command_i2cread (fuel : nat) (argc : Z) (argv : list string)
    : M (command_result * list console_out) :=
  if argc <? 3 then ret (EC_ERROR_PARAM_COUNT, [])
  else
    let* a1 := arg argv 1 in
    let (p, e1) := strtoi a1 in
    if negb (String.eqb e1 EmptyString) then ret (EC_ERROR_PARAM1, [])
    else
      match find_port i2c_ports p with
      | None => ret (EC_ERROR_PARAM1, [])
      | Some _ =>
          let* a2 := arg argv 2 in
          let (addr, e2) := strtoi a2 in
          if negb (String.eqb e2 EmptyString) || negb (Z.land addr 1 =? 0)
          then ret (EC_ERROR_PARAM2, [])
          else
            let* parsed :=
              (if argc >? 3 then
                 let* a3 := arg argv 3 in
                 let (count, e3) := strtoi a3 in
                 if negb (String.eqb e3 EmptyString) then ret None
                 else ret (Some count)
               else ret (Some 1)) in
            match parsed with
            | None => ret (EC_ERROR_PARAM3, [])
            | Some count =>
                mutex_lock (port_mutex p);;
                reg_write (LM4_I2C MSA p) (Z.lor addr 1);;
                let* r := command_i2cread_loop fuel p count (Z.to_nat count) 0 in
                match r with
                | (Some rv, out) =>
                    ret (CmdReturn rv, ConReading count p addr :: out)
                | (None, out) =>
                    mutex_unlock (port_mutex p);;
                    ret (CmdReturn EC_SUCCESS,
                         ConReading count p addr :: out ++ [ConNewline])
                end
            end
      end.

End EntryPoints.

(** ** More ways to read a log *)

(** The bytes written to the data register of port [p], oldest first. *)
Fixpoint mdr_writes (p : Z) (tr : list event) : list Z :=
  match tr with
  | [] => []
  | Write (LM4_I2C MDR q) v :: tr' =>
      if q =? p then v :: mdr_writes p tr' else mdr_writes p tr'
  | _ :: tr' => mdr_writes p tr'
  end.

(** The values written to the slave address register of port [p]. *)
Fixpoint msa_writes (p : Z) (tr : list event) : list Z :=
  match tr with
  | [] => []
  | Write (LM4_I2C MSA q) v :: tr' =>
      if q =? p then v :: msa_writes p tr' else msa_writes p tr'
  | _ :: tr' => msa_writes p tr'
  end.

(** Taking or releasing the lock of a port. *)
Definition port_mutex_event (e : event) : bool :=
  match e with
  | MutexLock (port_mutex _) | MutexUnlock (port_mutex _) => true
  | _ => false
  end.

(** An access that stays within port [p]: every controller register and
    every entry of [task_waiting_on_port] it touches is the one of [p]; it
    is no operation on a port lock and no read of the system clock. *)
Definition on_port (p : Z) (e : event) : bool :=
  match e with
  | Read (LM4_I2C _ q) _ | Write (LM4_I2C _ q) _ | StoreTaskWaiting q _ => q =? p
  | MutexLock (port_mutex _) | MutexUnlock (port_mutex _) => false
  | ClockGetFreq _ => false
  | _ => true
  end.

(** [m] only appends to the log, and what it appends satisfies [Q] as a
    whole; it may get stuck. *)
Definition logs_trace {A : Type} (Q : list event -> Prop) (m : M A) : Prop :=
  forall h, exists r tr, m h = (r, h ++ tr) /\ Q tr.

(** A log leaves no task registered: every entry of
    [task_waiting_on_port] is as it was before the log, or holds [inv]. *)
Definition clears_waiting (inv : Z) (tr : list event) : Prop :=
  forall q id0,
    fold_left (store_task_waiting q) tr id0 = id0 \/
    fold_left (store_task_waiting q) tr id0 = inv.

(** [m] holds the lock of port [p] for as long as it runs: when it
    returns, taking the lock was the first thing it did, releasing it the
    last, and it did not touch a port lock in between. *)
Definition holds_port_lock {A : Type} (p : Z) (m : M A) : Prop :=
  forall h, exists r tr,
    m h = (r, h ++ tr) /\
    forall a, r = Ok a ->
      exists body,
        tr = MutexLock (port_mutex p) :: body ++ [MutexUnlock (port_mutex p)] /\
        forallb (fun e => negb (port_mutex_event e)) body = true.

(** The port is busy until the task has waited once; the wait is resumed by
    the I2C completion together with an unrelated event (bit 2); the calling
    task is task 7. *)
Definition env_busy_once : environment :=
  fun h q =>
    match q with
    | QRead (LM4_I2C MCS _) => if Nat.leb 1 (length (wait_events h)) then 0 else 1
    | QRead (LM4_I2C MBMON _) => 3
    | QTaskWait _ => Z.lor DEMO_EVENT_I2C_IDLE 4
    | QTaskCurrent => 7
    | _ => 0
    end.

(** A slave that answers every read with the bytes 239 and 190 in turn (the
    word 0xBEEF, low byte first); the port is never busy. *)
Definition env_reads_word : environment :=
  fun h q =>
    match q with
    | QRead (LM4_I2C MDR _) => if Nat.even (length (mdr_reads 0 h)) then 239 else 190
    | QRead (LM4_I2C MBMON _) => 3
    | QTaskCurrent => 7
    | _ => 0
    end.

(** Every value [m] returns satisfies [R]. *)
Definition returns_with {A : Type} (R : A -> Prop) (m : M A) : Prop :=
  forall h a h', m h = (Ok a, h') -> R a.

(** Every switch of a pin to input in a log is followed at once by one
    sample of that pin and by the switch of the pin back to an open-drain
    output: wherever in the log a pin is given flags with [GPIO_INPUT] among
    them, these two are the next two events. *)
Definition inputs_restored (tr : list event) : Prop :=
  forall t1 g flags t2,
    tr = t1 ++ GpioSetFlags g flags :: t2 ->
    In GPIO_INPUT flags ->
    exists v t3,
      t2 = GpioGetLevel g v :: GpioSetFlags g [GPIO_OUTPUT; GPIO_OPEN_DRAIN] :: t3.

(** A parser to run the commands with: the decimal digits at the head of a
    string, and the rest of the string. *)
Fixpoint demo_strtoi_from (acc : Z) (s : string) : Z * string :=
  match s with
  | String c s' =>
      let n := Z.of_nat (Ascii.nat_of_ascii c) in
      if (48 <=? n) && (n <=? 57) then demo_strtoi_from (10 * acc + (n - 48)) s'
      else (acc, s)
  | EmptyString => (acc, EmptyString)
  end.

Definition demo_strtoi (s : string) : Z * string := demo_strtoi_from 0 s.

(** The ports a console output announces a scan of, with their names. *)
Definition scan_headers (out : list console_out) : list (Z * string) :=
  flat_map (fun o => match o with ConScanning p d => [(p, d)] | _ => [] end) out.


(** * Properties *)

(** ** Arithmetic of the clock divisor *)

Lemma sint32_id (x : Z) : int_range x -> sint32 x = x.
Proof.
  unfold int_range, INT_MIN, INT_MAX, sint32. intros H.
  rewrite Z.mod_small; lia.
Qed.

Lemma bus_freq_within_iff (C F D : Z) :
  0 <= D -> (bus_freq_within C F D <-> C <= 2 * (1 + D) * 10 * (F * 1000)).
Proof.
  intros HD. unfold bus_freq_within.
  assert (Hpos : (0 < inject_Z (2 * (1 + D) * 10))%Q).
  { unfold Qlt, inject_Z. simpl. lia. }
  split; intros H.
  - apply (Qmult_le_compat_r _ _ (inject_Z (2 * (1 + D) * 10))) in H;
      [| apply Qlt_le_weak; exact Hpos].
    rewrite Qmult_comm in H. rewrite Qmult_div_r in H.
    + rewrite <- inject_Z_mult in H. rewrite <- Zle_Qle in H. lia.
    + intros E. rewrite E in Hpos. apply (Qlt_irrefl 0). exact Hpos.
  - apply Qle_shift_div_r; [exact Hpos|].
    rewrite <- inject_Z_mult. rewrite <- Zle_Qle. lia.
Qed.

Lemma i2c_tpr_exact (C F : Z) :
  0 < C -> 0 < F -> C + 20000 * F <= INT_MAX ->
  i2c_tpr C F = Some ((C + 20000 * F - 1) / (20000 * F) - 1).
Proof.
  intros HC HF Hb. unfold INT_MAX in Hb.
  assert (Hr : forall x, 0 <= x <= 2147483647 -> sint32 x = x).
  { intros x Hx. apply sint32_id. unfold int_range, INT_MIN, INT_MAX. lia. }
  unfold i2c_tpr, i2c_d.
  rewrite (Hr (F * 1000)) by lia.
  replace (2 * (6 + 4) * (F * 1000)) with (20000 * F) by lia.
  rewrite (Hr (20000 * F)) by lia.
  destruct (Z.eqb_spec (20000 * F) 0) as [E|_]; [lia|].
  rewrite (Hr (C + 20000 * F)) by lia.
  rewrite (Hr (C + 20000 * F - 1)) by lia.
  rewrite Z.quot_div_nonneg by lia.
  assert (Hq : 1 <= (C + 20000 * F - 1) / (20000 * F) <= C + 20000 * F - 1).
  { split.
    - apply Z.div_le_lower_bound; lia.
    - apply Z.div_le_upper_bound; [lia|]. nia. }
  rewrite (Hr ((C + 20000 * F - 1) / (20000 * F))) by lia.
  rewrite sint32_id; [reflexivity|].
  unfold int_range, INT_MIN, INT_MAX. lia.
Qed.

Lemma Qceiling_div (C d : Z) :
  0 < d -> Qceiling (inject_Z C / inject_Z d) = (C + d - 1) / d.
Proof.
  intros Hd. unfold Qceiling, Qfloor, Qdiv, Qinv, Qmult, Qopp, inject_Z.
  destruct d as [|p|p]; try lia. cbn -[Z.div Z.mul].
  rewrite Z.mul_1_r, Pos.mul_1_l.
  pose proof (Z.div_mod (- C) (Z.pos p) ltac:(lia)) as H1.
  pose proof (Z.mod_pos_bound (- C) (Z.pos p) ltac:(lia)) as H2.
  apply Z.div_unique with (r := (Z.pos p - 1) - (- C) mod Z.pos p).
  - left. revert H2. generalize ((- C) mod Z.pos p). intros. lia.
  - revert H1 H2. generalize ((- C) mod Z.pos p) ((- C) / Z.pos p). intros. lia.
Qed.

Lemma round_up_divisor_eq (C F : Z) :
  0 < F -> round_up_divisor C F = (C + 20000 * F - 1) / (20000 * F) - 1.
Proof.
  intros HF. unfold round_up_divisor.
  replace (2 * (6 + 4) * F * 1000) with (20000 * F) by lia.
  rewrite Qceiling_div by lia. reflexivity.
Qed.

(** The rounded-up quotient is the least divisor that keeps the bus at or
    below the target. *)
Lemma round_up_divisor_spec (C F : Z) :
  0 < C -> 0 < F -> divisor_spec C F (round_up_divisor C F).
Proof.
  intros HC HF. rewrite round_up_divisor_eq by exact HF.
  set (d := 20000 * F).
  assert (Hd : 0 < d) by (unfold d; lia).
  pose proof (Z.div_mod (C + d - 1) d ltac:(lia)) as Hdm.
  pose proof (Z.mod_pos_bound (C + d - 1) d Hd) as Hm.
  assert (Hq : 1 <= (C + d - 1) / d) by (apply Z.div_le_lower_bound; lia).
  unfold divisor_spec. split; [lia|]. split.
  - apply bus_freq_within_iff; [lia|]. fold d in Hdm |- *. nia.
  - intros D' HD' H. apply bus_freq_within_iff in H; [|exact HD'].
    assert (Hlt : (C + d - 1) / d < D' + 2); [|lia].
    apply Z.div_lt_upper_bound; [exact Hd|]. unfold d in *. nia.
Qed.

Lemma i2c_freq_changed_loop_run (C : Z) (tbl : list i2c_port_t) :
  0 < C ->
  Forall (fun e => 0 < kbps e /\ C + 20000 * kbps e <= INT_MAX) tbl ->
  forall h,
    i2c_freq_changed_loop C tbl h =
      (Ok tt, h ++ map (fun e => Write (LM4_I2C MTPR (port e))
                                   (round_up_divisor C (kbps e))) tbl).
Proof.
  intros HC. induction 1 as [|e tbl [HF Hb] _ IH]; intros h; simpl.
  - rewrite app_nil_r. reflexivity.
  - rewrite (i2c_tpr_exact C (kbps e) HC HF Hb).
    rewrite <- round_up_divisor_eq by exact HF.
    unfold bind at 1, reg_write, emit. rewrite IH.
    rewrite <- app_assoc. reflexivity.
Qed.

(** C4 (as amended).  Whenever the clock [C] and every target [F] are
    positive and [C + 20000 * F] fits an [int], [i2c_freq_changed] reads the
    clock once and programs each configured port, in table order, with
    [D = ceil (C / (2 * (6 + 4) * F * 1000)) - 1]; this [D] is not negative,
    [C / (2 * (1 + D) * 10) <= F * 1000] holds over the rationals, and no
    smaller non-negative divisor satisfies that. *)
Theorem i2c_freq_changed_divisor (env : environment) (tbl : list i2c_port_t)
    (h : list event) :
  0 < env h QClockFreq ->
  Forall (fun e => 0 < kbps e /\ env h QClockFreq + 20000 * kbps e <= INT_MAX) tbl ->
  i2c_freq_changed env tbl h =
    (Ok EC_SUCCESS,
     h ++ ClockGetFreq (env h QClockFreq)
       :: map (fun e => Write (LM4_I2C MTPR (port e))
                          (round_up_divisor (env h QClockFreq) (kbps e))) tbl) /\
  Forall (fun e => divisor_spec (env h QClockFreq) (kbps e)
                     (round_up_divisor (env h QClockFreq) (kbps e))) tbl.
Proof.
  intros HC Hall. split.
  - unfold i2c_freq_changed, bind, clock_get_freq, ask. cbv zeta.
    rewrite (i2c_freq_changed_loop_run _ tbl HC Hall).
    unfold ret. rewrite <- app_assoc. reflexivity.
  - rewrite Forall_forall in Hall |- *. intros e He.
    destruct (Hall e He) as [HF _].
    apply round_up_divisor_spec; assumption.
Qed.

Lemma i2c_freq_changed_divisor_witness :
  i2c_freq_changed env_idle demo_ports [] =
    (Ok EC_SUCCESS,
     [] ++ ClockGetFreq (env_idle [] QClockFreq)
       :: map (fun e => Write (LM4_I2C MTPR (port e))
                          (round_up_divisor (env_idle [] QClockFreq) (kbps e)))
            demo_ports) /\
  Forall (fun e => divisor_spec (env_idle [] QClockFreq) (kbps e)
                     (round_up_divisor (env_idle [] QClockFreq) (kbps e)))
    demo_ports.
Proof.
  apply (i2c_freq_changed_divisor env_idle demo_ports []).
  - simpl. lia.
  - unfold demo_ports, INT_MAX. repeat constructor; simpl; lia.
Defined.

(** C4, the claim as stated fails: with the clock at [INT_MAX] Hz and a
    100 kHz port the sum [freq + d] wraps around, and the divisor that is
    programmed is negative. *)
Lemma i2c_freq_changed_wraps :
  i2c_freq_changed env_clock_max demo_ports [] =
    (Ok EC_SUCCESS,
     [ClockGetFreq 2147483647;
      Write (LM4_I2C MTPR 0) (-1073);
      Write (LM4_I2C MTPR 1) (-268)]) /\
  ~ divisor_spec 2147483647 100 (-1073).
Proof.
  split.
  - vm_compute. reflexivity.
  - unfold divisor_spec. intros [H _]. lia.
Qed.

(** ** Running the monad *)

Lemma bind_run {A B : Type} (m : M A) (f : A -> M B) (h h' : list event) (a : A) :
  m h = (Ok a, h') -> bind m f h = f a h'.
Proof. intros E. unfold bind. rewrite E. reflexivity. Qed.

Lemma bind_stuck {A B : Type} (m : M A) (f : A -> M B) (h h' : list event) (w : stuck) :
  m h = (Stuck w, h') -> bind m f h = (Stuck w, h').
Proof. intros E. unfold bind. rewrite E. reflexivity. Qed.

Lemma bind_any {A B : Type} (m : M A) (f : A -> M B) (h h' : list event) (r : res A) :
  m h = (r, h') -> bind m f h = bind (fun h0 => (r, h0)) f h'.
Proof. intros E. unfold bind. rewrite E. reflexivity. Qed.

Lemma bind_assoc {A B C : Type} (m : M A) (f : A -> M B) (g : B -> M C)
    (h : list event) :
  bind (bind m f) g h = bind m (fun a => bind (f a) g) h.
Proof.
  unfold bind. destruct (m h) as [[a|w] h1]; [|reflexivity].
  destruct (f a h1) as [[b|w] h2]; reflexivity.
Qed.

Lemma emit_run (e : event) (h : list event) : emit e h = (Ok tt, h ++ [e]).
Proof. reflexivity. Qed.

Lemma task_get_current_run (env : environment) (h : list event) :
  task_get_current env h =
    (Ok (env h QTaskCurrent), h ++ [TaskGetCurrent (env h QTaskCurrent)]).
Proof. reflexivity. Qed.

Lemma task_wait_event_run (env : environment) (t : Z) (h : list event) :
  task_wait_event env t h =
    (Ok (env h (QTaskWait t)), h ++ [TaskWaitEvent t (env h (QTaskWait t))]).
Proof. reflexivity. Qed.

Lemma reg_read_run (env : environment) (r : hwreg) (h : list event) :
  reg_read env r h = (Ok (env h (QRead r)), h ++ [Read r (env h (QRead r))]).
Proof. reflexivity. Qed.

Lemma reg_write_run (r : hwreg) (v : Z) (h : list event) :
  reg_write r v h = (Ok tt, h ++ [Write r v]).
Proof. reflexivity. Qed.

Lemma task_set_event_run (id ev wait : Z) (h : list event) :
  task_set_event id ev wait h = (Ok tt, h ++ [TaskSetEvent id ev wait]).
Proof. reflexivity. Qed.

Lemma i2c_get_line_levels_run (env : environment) (p : Z) (h : list event) :
  i2c_get_line_levels env p h =
    (Ok (Z.land (env h (QRead (LM4_I2C MBMON p))) 3),
     h ++ [Read (LM4_I2C MBMON p) (env h (QRead (LM4_I2C MBMON p)))]).
Proof. reflexivity. Qed.

Lemma observe_app (c d : Z) (t1 t2 : list event) (o : bus_obs) :
  fold_left (observe c d) (t1 ++ t2) o =
  fold_left (observe c d) t2 (fold_left (observe c d) t1 o).
Proof. apply fold_left_app. Qed.

Lemma observe_cons (c d : Z) (x : event) (t : list event) (o : bus_obs) :
  fold_left (observe c d) (x :: t) o = fold_left (observe c d) t (observe c d o x).
Proof. reflexivity. Qed.

(** ** Bus recovery *)

Section Unwedge.

Variable env : environment.
Variable tbl : list i2c_port_t.
Variable gl : Z -> gpio_info.
Variable p : Z.
Variable e : i2c_port_t.

(** The port is configured, its pins are defined and distinct. *)
Hypothesis Hfind : find_port tbl p = Some e.
Hypothesis Hpins : (scl e =? 0) && (sda e =? 0) = false.
Hypothesis Hne : scl e <> sda e.

Local Abbreviation obs := (observe (scl e) (sda e)).

Lemma get_scl_run (h : list event) :
  get_scl_from_i2c_port tbl p h = (Ok (Some (scl e)), h).
Proof. unfold get_scl_from_i2c_port. rewrite Hfind, Hpins. reflexivity. Qed.

Lemma get_sda_run (h : list event) :
  get_sda_from_i2c_port tbl p h = (Ok (Some (sda e)), h).
Proof. unfold get_sda_from_i2c_port. rewrite Hfind, Hpins. reflexivity. Qed.

Lemma raw_set_scl_run (v : Z) (h : list event) :
  i2c_raw_set_scl tbl p v h = (Ok tt, h ++ [GpioSetLevel (scl e) v]).
Proof.
  unfold i2c_raw_set_scl. rewrite (bind_run _ _ _ _ _ (get_scl_run h)).
  reflexivity.
Qed.

Lemma raw_set_sda_run (v : Z) (h : list event) :
  i2c_raw_set_sda tbl p v h = (Ok tt, h ++ [GpioSetLevel (sda e) v]).
Proof.
  unfold i2c_raw_set_sda. rewrite (bind_run _ _ _ _ _ (get_sda_run h)).
  reflexivity.
Qed.

Lemma scl_is_not_sda : (scl e =? sda e) = false.
Proof. apply Z.eqb_neq. exact Hne. Qed.

Lemma raw_get_scl_run (h : list event) :
  exists v tr,
    i2c_raw_get_scl env tbl p h = (Ok v, h ++ tr) /\
    forallb line_event tr = true /\
    forall o, fold_left obs tr o =
      {| polls := polls o; data_phase := data_phase o; toggles := toggles o;
         attempts := attempts o; scl_level := Some v; sda_level := sda_level o |}.
Proof.
  unfold i2c_raw_get_scl. rewrite (bind_run _ _ _ _ _ (get_scl_run h)).
  unfold bind, gpio_get_level, gpio_set_flags, ask, emit, ret. cbv zeta.
  destruct (env h (QGpioLevel (scl e)) =? 0) eqn:E0.
  - apply Z.eqb_eq in E0. rewrite E0.
    exists 0, [GpioGetLevel (scl e) 0]. split; [reflexivity|]. split; [reflexivity|].
    intros o. simpl. rewrite scl_is_not_sda, Z.eqb_refl. reflexivity.
  - eexists _, [_; _; _; _]. split.
    { rewrite <- !app_assoc. simpl. reflexivity. }
    split; [reflexivity|].
    intros o. simpl. rewrite scl_is_not_sda, Z.eqb_refl. reflexivity.
Qed.

Lemma raw_get_sda_run (h : list event) :
  exists v tr,
    i2c_raw_get_sda env tbl p h = (Ok v, h ++ tr) /\
    forallb line_event tr = true /\
    forall o, fold_left obs tr o =
      {| polls := polls o; data_phase := true; toggles := toggles o;
         attempts := attempts o; scl_level := scl_level o; sda_level := Some v |}.
Proof.
  unfold i2c_raw_get_sda. rewrite (bind_run _ _ _ _ _ (get_sda_run h)).
  unfold bind, gpio_get_level, gpio_set_flags, ask, emit, ret. cbv zeta.
  destruct (env h (QGpioLevel (sda e)) =? 0) eqn:E0.
  - apply Z.eqb_eq in E0. rewrite E0.
    exists 0, [GpioGetLevel (sda e) 0]. split; [reflexivity|]. split; [reflexivity|].
    intros o. simpl. rewrite Z.eqb_refl. reflexivity.
  - eexists _, [_; _; _; _]. split.
    { rewrite <- !app_assoc. simpl. reflexivity. }
    split; [reflexivity|].
    intros o. simpl. rewrite Z.eqb_refl. reflexivity.
Qed.

Lemma udelay_run (us : Z) (h : list event) :
  udelay us h = (Ok tt, h ++ [Udelay us]).
Proof. reflexivity. Qed.

Lemma cprintf_run (m : log_msg) (h : list event) :
  cprintf m h = (Ok tt, h ++ [Cprintf m]).
Proof. reflexivity. Qed.

Lemma observe_udelay_wait (us : Z) (o : bus_obs) :
  data_phase o = false ->
  obs o (Udelay us) =
    {| polls := S (polls o); data_phase := false; toggles := toggles o;
       attempts := attempts o; scl_level := scl_level o;
       sda_level := sda_level o |}.
Proof. intros Hd. simpl. rewrite Hd. reflexivity. Qed.

Lemma observe_udelay_data (us : Z) (o : bus_obs) :
  data_phase o = true -> obs o (Udelay us) = o.
Proof. intros Hd. simpl. rewrite Hd. reflexivity. Qed.

Lemma observe_scl_low (o : bus_obs) :
  obs o (GpioSetLevel (scl e) 0) =
    {| polls := polls o; data_phase := data_phase o; toggles := S (toggles o);
       attempts := attempts o; scl_level := scl_level o;
       sda_level := sda_level o |}.
Proof. simpl. rewrite scl_is_not_sda, Z.eqb_refl. reflexivity. Qed.

Lemma observe_scl_high (o : bus_obs) : obs o (GpioSetLevel (scl e) 1) = o.
Proof. simpl. rewrite scl_is_not_sda, Z.eqb_refl. reflexivity. Qed.

Lemma observe_sda_low (o : bus_obs) :
  obs o (GpioSetLevel (sda e) 0) =
    {| polls := polls o; data_phase := data_phase o; toggles := 0;
       attempts := attempts o ++ [toggles o]; scl_level := scl_level o;
       sda_level := sda_level o |}.
Proof. simpl. rewrite Z.eqb_refl. reflexivity. Qed.

Lemma observe_sda_high (o : bus_obs) : obs o (GpioSetLevel (sda e) 1) = o.
Proof.
  simpl. rewrite Z.eqb_refl. simpl.
  destruct (sda e =? scl e); reflexivity.
Qed.

(** The clock-stretch wait: at most [n] polls, each a delay and a sample of
    the clock line; nothing else is touched. *)
Lemma unwedge_wait_scl_run (n : nat) :
  forall h, exists b tr,
    unwedge_wait_scl env tbl p n h = (Ok b, h ++ tr) /\
    forallb line_event tr = true /\
    (b = false -> In (Cprintf LogSclHeldLow) tr) /\
    forall o, data_phase o = false ->
      let o' := fold_left obs tr o in
      (polls o' <= polls o + n)%nat /\
      data_phase o' = false /\
      toggles o' = toggles o /\
      attempts o' = attempts o /\
      sda_level o' = sda_level o /\
      (if b then reads_high (scl_level o')
       else scl_level o = Some 0 -> scl_level o' = Some 0).
Proof.
  induction n as [|n IH]; intros h; simpl.
  - rewrite (bind_run _ _ _ _ _ (cprintf_run _ h)).
    exists false, [Cprintf LogSclHeldLow]. split; [reflexivity|].
    split; [reflexivity|]. split; [intros _; left; reflexivity|].
    intros o Hd. simpl. repeat split; try reflexivity; try lia; auto.
  - rewrite (bind_run _ _ _ _ _ (udelay_run _ h)).
    destruct (raw_get_scl_run (h ++ [Udelay I2C_BITBANG_DELAY_US]))
      as (c & t1 & R1 & L1 & O1).
    rewrite (bind_run _ _ _ _ _ R1).
    destruct (c =? 0) eqn:Ec.
    + destruct (IH ((h ++ [Udelay I2C_BITBANG_DELAY_US]) ++ t1))
        as (b & t2 & R2 & L2 & G2 & O2).
      exists b, (Udelay I2C_BITBANG_DELAY_US :: t1 ++ t2). split.
      { rewrite R2. rewrite <- !app_assoc. reflexivity. }
      split.
      { simpl. rewrite forallb_app, L1, L2. reflexivity. }
      split.
      { intros Hb. right. apply in_or_app. right. exact (G2 Hb). }
      intros o Hd. cbv zeta.
      rewrite observe_cons, (observe_udelay_wait I2C_BITBANG_DELAY_US o Hd).
      rewrite observe_app, O1.
      match goal with |- context [fold_left _ t2 ?x] =>
        specialize (O2 x eq_refl); cbv zeta in O2; simpl in O2;
        destruct O2 as (P & D & T & A & Sd & B) end.
      simpl. repeat split; try assumption; try lia.
      destruct b; [exact B|]. intros _. apply B.
      apply Z.eqb_eq in Ec. rewrite Ec. reflexivity.
    + exists true, (Udelay I2C_BITBANG_DELAY_US :: t1). split.
      { unfold ret. rewrite <- !app_assoc. reflexivity. }
      split.
      { simpl. exact L1. }
      split; [discriminate|].
      intros o Hd. cbv zeta.
      rewrite observe_cons, (observe_udelay_wait I2C_BITBANG_DELAY_US o Hd), O1.
      simpl.
      repeat split; try reflexivity; try lia.
Qed.

(** The inner loop: at most [n] low pulses on the clock, no STOP. *)
Lemma unwedge_clock_bits_run (n : nat) :
  forall h, exists tr,
    unwedge_clock_bits env tbl p n h = (Ok tt, h ++ tr) /\
    forallb line_event tr = true /\
    forall o, data_phase o = true ->
      let o' := fold_left obs tr o in
      polls o' = polls o /\
      data_phase o' = true /\
      (toggles o' <= toggles o + n)%nat /\
      attempts o' = attempts o /\
      scl_level o' = scl_level o.
Proof.
  induction n as [|n IH]; intros h; simpl.
  - exists []. unfold ret. rewrite app_nil_r. split; [reflexivity|].
    split; [reflexivity|]. intros o Hd. simpl. repeat split; try assumption; lia.
  - destruct (raw_get_sda_run h) as (d & t1 & R1 & L1 & O1).
    rewrite (bind_run _ _ _ _ _ R1).
    destruct (d =? 0) eqn:Ed.
    + rewrite (bind_run _ _ _ _ _ (raw_set_scl_run 0 _)).
      rewrite (bind_run _ _ _ _ _ (udelay_run _ _)).
      rewrite (bind_run _ _ _ _ _ (raw_set_scl_run 1 _)).
      rewrite (bind_run _ _ _ _ _ (udelay_run _ _)).
      match goal with |- context [unwedge_clock_bits _ _ _ _ ?x] =>
        destruct (IH x) as (t2 & R2 & L2 & O2) end.
      exists (t1 ++ [GpioSetLevel (scl e) 0; Udelay I2C_BITBANG_DELAY_US;
                     GpioSetLevel (scl e) 1; Udelay I2C_BITBANG_DELAY_US] ++ t2).
      split.
      { rewrite R2. rewrite <- !app_assoc. reflexivity. }
      split.
      { rewrite !forallb_app, L1, L2. reflexivity. }
      intros o Hd. cbv zeta. rewrite !observe_app, O1, !observe_cons.
      rewrite observe_scl_high, observe_scl_low. simpl observe.
      match goal with |- context [fold_left _ t2 ?x] =>
        specialize (O2 x eq_refl); cbv zeta in O2; simpl in O2;
        destruct O2 as (P & D & T & A & Sc) end.
      simpl. repeat split; try assumption; lia.
    + exists t1. split; [reflexivity|]. split; [exact L1|].
      intros o Hd. cbv zeta. rewrite O1. simpl.
      repeat split; try reflexivity; lia.
Qed.

(** The data-release loop: at most [n] attempts, one STOP each, and at most
    nine clock pulses before each STOP. *)
Lemma unwedge_sda_attempts_run (n : nat) :
  forall h, exists tr,
    unwedge_sda_attempts env tbl p n h = (Ok tt, h ++ tr) /\
    forallb line_event tr = true /\
    forall o, data_phase o = true -> toggles o = 0%nat ->
      let o' := fold_left obs tr o in
      polls o' = polls o /\
      data_phase o' = true /\
      toggles o' = 0%nat /\
      exists l, attempts o' = attempts o ++ l /\
                (length l <= n)%nat /\
                Forall (fun k => (k <= 9)%nat) l.
Proof.
  induction n as [|n IH]; intros h; cbn [unwedge_sda_attempts].
  - exists []. unfold ret. rewrite app_nil_r. split; [reflexivity|].
    split; [reflexivity|]. intros o Hd Ht. simpl.
    repeat split; try assumption. exists []. rewrite app_nil_r.
    repeat split; [simpl; lia | constructor].
  - rewrite (bind_run _ _ _ _ _ (raw_set_scl_run 1 _)).
    rewrite (bind_run _ _ _ _ _ (udelay_run _ _)).
    match goal with |- context [bind (unwedge_clock_bits _ _ _ _) _ ?x] =>
      destruct (unwedge_clock_bits_run 9 x) as (tc & Rc & Lc & Oc) end.
    rewrite (bind_run _ _ _ _ _ Rc).
    rewrite (bind_run _ _ _ _ _ (raw_set_sda_run 0 _)).
    rewrite (bind_run _ _ _ _ _ (udelay_run _ _)).
    rewrite (bind_run _ _ _ _ _ (raw_set_sda_run 1 _)).
    rewrite (bind_run _ _ _ _ _ (udelay_run _ _)).
    match goal with |- context [bind (i2c_raw_get_sda _ _ _) _ ?x] =>
      destruct (raw_get_sda_run x) as (d & td & Rd & Ld & Od) end.
    rewrite (bind_run _ _ _ _ _ Rd).
    set (pre := [GpioSetLevel (scl e) 1; Udelay I2C_BITBANG_DELAY_US] ++ tc ++
                [GpioSetLevel (sda e) 0; Udelay I2C_BITBANG_DELAY_US;
                 GpioSetLevel (sda e) 1; Udelay I2C_BITBANG_DELAY_US] ++ td).
    assert (Hpre : forall o, data_phase o = true -> toggles o = 0%nat ->
              exists k, (k <= 9)%nat /\
                fold_left obs pre o =
                  {| polls := polls o; data_phase := true; toggles := 0;
                     attempts := attempts o ++ [k]; scl_level := scl_level o;
                     sda_level := Some d |}).
    { intros o Hd Ht. unfold pre.
      rewrite !observe_app, !observe_cons. cbn [fold_left].
      rewrite observe_scl_high, (observe_udelay_data _ o Hd).
      specialize (Oc o Hd). cbv zeta in Oc.
      destruct Oc as (Pc & Dc & Tc & Ac & Sc).
      set (o1 := fold_left obs tc o) in *.
      rewrite observe_sda_high, observe_sda_low. simpl observe.
      rewrite Dc, Od. simpl.
      exists (toggles o1). split; [lia|].
      rewrite Pc, Ac, Sc. reflexivity. }
    assert (Lpre : forallb line_event pre = true).
    { unfold pre. rewrite !forallb_app, Lc, Ld. reflexivity. }
    destruct (d =? 0) eqn:Ed.
    + match goal with |- context [unwedge_sda_attempts _ _ _ _ ?x] =>
        destruct (IH x) as (t2 & R2 & L2 & O2) end.
      exists (pre ++ t2). split.
      { rewrite R2. unfold pre. rewrite <- !app_assoc. reflexivity. }
      split.
      { rewrite forallb_app, Lpre, L2. reflexivity. }
      intros o Hd Ht. cbv zeta. rewrite observe_app.
      destruct (Hpre o Hd Ht) as (k & Hk & ->).
      match goal with |- context [fold_left _ t2 ?x] =>
        specialize (O2 x eq_refl eq_refl); cbv zeta in O2; simpl in O2;
        destruct O2 as (P2 & D2 & T2 & l & A2 & Hl & Fl) end.
      repeat split; try assumption.
      exists (k :: l). rewrite A2, <- app_assoc. simpl.
      repeat split; [lia | constructor; assumption].
    + match goal with |- context [bind (i2c_raw_get_scl _ _ _) _ ?x] =>
        destruct (raw_get_scl_run x) as (c & ts & Rs & Ls & Os) end.
      rewrite (bind_run _ _ _ _ _ Rs).
      destruct (c =? 0) eqn:Ec.
      * match goal with |- context [unwedge_sda_attempts _ _ _ _ ?x] =>
          destruct (IH x) as (t2 & R2 & L2 & O2) end.
        exists (pre ++ ts ++ t2). split.
        { rewrite R2. unfold pre. rewrite <- !app_assoc. reflexivity. }
        split.
        { rewrite !forallb_app, Lpre, Ls, L2. reflexivity. }
        intros o Hd Ht. cbv zeta. rewrite !observe_app.
        destruct (Hpre o Hd Ht) as (k & Hk & ->). rewrite Os.
        cbn [polls data_phase toggles attempts scl_level sda_level].
        match goal with |- context [fold_left _ t2 ?x] =>
          specialize (O2 x eq_refl eq_refl); cbv zeta in O2; simpl in O2;
          destruct O2 as (P2 & D2 & T2 & l & A2 & Hl & Fl) end.
        repeat split; try assumption.
        exists (k :: l). rewrite A2, <- app_assoc. simpl.
        repeat split; [lia | constructor; assumption].
      * exists (pre ++ ts). split.
        { unfold ret, pre. rewrite <- !app_assoc. reflexivity. }
        split.
        { rewrite !forallb_app, Lpre, Ls. reflexivity. }
        intros o Hd Ht. cbv zeta. rewrite !observe_app.
        destruct (Hpre o Hd Ht) as (k & Hk & ->). rewrite Os. simpl.
        repeat split.
        exists [k]. repeat split; [simpl; lia | constructor; [assumption | constructor]].
Qed.

Lemma raw_mode_enter_run (h : list event) :
  i2c_raw_mode tbl gl p 1 h = (Ok EC_SUCCESS, h ++ raw_mode_enter gl e).
Proof.
  unfold i2c_raw_mode.
  rewrite (bind_run _ _ _ _ _ (get_sda_run h)).
  rewrite (bind_run _ _ _ _ _ (get_scl_run h)).
  simpl. unfold bind, mutex_lock, gpio_set_alternate_function, gpio_set_flags,
    gpio_set_level, emit, ret.
  rewrite <- !app_assoc. reflexivity.
Qed.

Lemma raw_mode_exit_run (h : list event) :
  i2c_raw_mode tbl gl p 0 h = (Ok EC_SUCCESS, h ++ raw_mode_exit gl e).
Proof.
  unfold i2c_raw_mode.
  rewrite (bind_run _ _ _ _ _ (get_sda_run h)).
  rewrite (bind_run _ _ _ _ _ (get_scl_run h)).
  simpl. unfold bind, mutex_unlock, gpio_set_alternate_function, gpio_set_flags,
    emit, ret.
  rewrite <- !app_assoc. reflexivity.
Qed.

(** Entering and leaving raw mode does not disturb the monitor. *)
Lemma observe_raw_mode_enter (o : bus_obs) :
  fold_left obs (raw_mode_enter gl e) o = o.
Proof.
  unfold raw_mode_enter. rewrite !observe_cons.
  rewrite observe_scl_high, observe_sda_high. reflexivity.
Qed.

Lemma observe_raw_mode_exit (o : bus_obs) :
  fold_left obs (raw_mode_exit gl e) o = o.
Proof. reflexivity. Qed.

Lemma observe_all_session (body : list event) :
  observe_all (scl e) (sda e) (raw_mode_enter gl e ++ body ++ raw_mode_exit gl e) =
  fold_left obs body obs0.
Proof.
  unfold observe_all.
  rewrite !observe_app, observe_raw_mode_enter, observe_raw_mode_exit.
  reflexivity.
Qed.

(** Everything the two claims about [i2c_unwedge] need, in one run. *)
Lemma i2c_unwedge_run (h : list event) :
  exists rv body,
    i2c_unwedge env tbl gl p h =
      (Ok rv, h ++ raw_mode_enter gl e ++ body ++ raw_mode_exit gl e) /\
    forallb line_event body = true /\
    let o := fold_left obs body obs0 in
    (polls o <= 10)%nat /\
    toggles o = 0%nat /\
    (length (attempts o) <= 3)%nat /\
    Forall (fun k => (k <= 9)%nat) (attempts o) /\
    (rv = EC_SUCCESS <-> reads_high (scl_level o) /\ reads_high (sda_level o)) /\
    (rv = EC_SUCCESS \/ rv = EC_ERROR_UNKNOWN) /\
    (scl_level o = Some 0 ->
     In (Cprintf LogSclHeldLow) body \/ In (Cprintf LogSclStillLow) body) /\
    (sda_level o = Some 0 -> In (Cprintf LogSdaStillLow) body).
Proof.
  unfold i2c_unwedge.
  rewrite (bind_run _ _ _ _ _ (raw_mode_enter_run h)).
  cbn [ec_is_success].
  set (h0 := h ++ raw_mode_enter gl e).
  destruct (raw_get_scl_run h0) as (c & tc & Rc & Lc & Oc).
  rewrite (bind_run _ _ _ _ _ Rc).
  assert (Hrel : exists (b : bool) (tw : list event),
            (if c =? 0 then unwedge_wait_scl env tbl p UNWEDGE_SCL_ATTEMPTS
             else ret true) (h0 ++ tc) = (Ok b, (h0 ++ tc) ++ tw) /\
            forallb line_event tw = true /\
            (b = false -> In (Cprintf LogSclHeldLow) tw) /\
            let o := fold_left obs (tc ++ tw) obs0 in
            (polls o <= 10)%nat /\ data_phase o = false /\ toggles o = 0%nat /\
            attempts o = [] /\ sda_level o = None /\
            (if b then reads_high (scl_level o) else scl_level o = Some 0)).
  { destruct (c =? 0) eqn:Ec.
    - destruct (unwedge_wait_scl_run UNWEDGE_SCL_ATTEMPTS (h0 ++ tc))
        as (b & tw & Rw & Lw & Gw & Ow).
      exists b, tw. split; [exact Rw|]. split; [exact Lw|]. split; [exact Gw|].
      cbv zeta. rewrite observe_app, Oc.
      match goal with |- context [fold_left _ tw ?x] =>
        specialize (Ow x eq_refl); cbv zeta in Ow; simpl in Ow;
        destruct Ow as (P & D & T & A & Sd & B) end.
      repeat split; try assumption.
      destruct b; [exact B|]. apply B.
      apply Z.eqb_eq in Ec. rewrite Ec. reflexivity.
    - exists true, []. unfold ret. rewrite !app_nil_r.
      split; [reflexivity|]. split; [reflexivity|]. split; [discriminate|].
      cbv zeta. rewrite Oc. simpl.
      repeat split; try lia. }
  destruct Hrel as (b & tw & Rw & Lw & Gw & Ow). cbv zeta in Ow.
  destruct Ow as (Pw & Dw & Tw & Aw & Sw & Bw).
  rewrite (bind_run _ _ _ _ _ Rw).
  destruct b.
  - (* the clock is released: look at the data line *)
    destruct (raw_get_sda_run ((h0 ++ tc) ++ tw)) as (d & td & Rd & Ld & Od).
    rewrite (bind_run _ _ _ _ _ Rd).
    destruct (d =? 0) eqn:Ed.
    + rewrite (bind_run _ _ _ _ _ (cprintf_run _ _)).
      match goal with |- context [bind (unwedge_sda_attempts _ _ _ _) _ ?x] =>
        destruct (unwedge_sda_attempts_run UNWEDGE_SDA_ATTEMPTS x)
          as (ta & Ra & La & Oa) end.
      rewrite (bind_run _ _ _ _ _ Ra).
      match goal with |- context [bind (i2c_raw_get_sda _ _ _) _ ?x] =>
        destruct (raw_get_sda_run x) as (d' & td' & Rd' & Ld' & Od') end.
      rewrite (bind_run _ _ _ _ _ Rd').
      match goal with |- context [bind (if d' =? 0 then _ else _) _ ?x] =>
        assert (H1 : exists r1 tl1,
                  (if d' =? 0 then cprintf LogSdaStillLow;; ret EC_ERROR_UNKNOWN
                   else ret EC_SUCCESS) x = (Ok r1, x ++ tl1) /\
                  forallb line_event tl1 = true /\
                  (forall o, fold_left obs tl1 o = o) /\
                  (r1 = EC_SUCCESS <-> d' <> 0) /\
                  (r1 = EC_SUCCESS \/ r1 = EC_ERROR_UNKNOWN) /\
                  (d' = 0 -> In (Cprintf LogSdaStillLow) tl1)) end.
      { destruct (d' =? 0) eqn:Ed'.
        - exists EC_ERROR_UNKNOWN, [Cprintf LogSdaStillLow].
          split; [reflexivity|]. split; [reflexivity|].
          split; [intros o; reflexivity|].
          split; [split; [discriminate | lia]|].
          split; [right; reflexivity|]. intros _. left. reflexivity.
        - exists EC_SUCCESS, []. unfold ret. rewrite app_nil_r.
          split; [reflexivity|]. split; [reflexivity|].
          split; [intros o; reflexivity|].
          split; [split; [lia | reflexivity]|].
          split; [left; reflexivity|]. lia. }
      destruct H1 as (r1 & tl1 & R1 & L1 & O1 & I1 & V1 & G1).
      rewrite (bind_run _ _ _ _ _ R1).
      match goal with |- context [bind (i2c_raw_get_scl _ _ _) _ ?x] =>
        destruct (raw_get_scl_run x) as (c' & tc' & Rc' & Lc' & Oc') end.
      rewrite (bind_run _ _ _ _ _ Rc').
      match goal with |- context [bind (if c' =? 0 then _ else _) _ ?x] =>
        assert (H2 : exists r2 tl2,
                  (if c' =? 0 then cprintf LogSclStillLow;; ret EC_ERROR_UNKNOWN
                   else ret r1) x = (Ok r2, x ++ tl2) /\
                  forallb line_event tl2 = true /\
                  (forall o, fold_left obs tl2 o = o) /\
                  (r2 = EC_SUCCESS <-> c' <> 0 /\ r1 = EC_SUCCESS) /\
                  (r2 = EC_SUCCESS \/ r2 = EC_ERROR_UNKNOWN) /\
                  (c' = 0 -> In (Cprintf LogSclStillLow) tl2)) end.
      { destruct (c' =? 0) eqn:Ec'.
        - exists EC_ERROR_UNKNOWN, [Cprintf LogSclStillLow].
          split; [reflexivity|]. split; [reflexivity|].
          split; [intros o; reflexivity|].
          split; [split; [discriminate | lia]|].
          split; [right; reflexivity|]. intros _. left. reflexivity.
        - exists r1, []. unfold ret. rewrite app_nil_r.
          split; [reflexivity|]. split; [reflexivity|].
          split; [intros o; reflexivity|].
          split; [split; [intros ->; split; [lia | reflexivity] | tauto]|].
          split; [exact V1|]. lia. }
      destruct H2 as (r2 & tl2 & R2 & L2 & O2 & I2 & V2 & G2).
      rewrite (bind_run _ _ _ _ _ R2).
      rewrite (bind_run _ _ _ _ _ (raw_mode_exit_run _)).
      exists r2, (tc ++ tw ++ td ++ [Cprintf LogSdaHeldLowOnEntry] ++ ta ++
                  td' ++ tl1 ++ tc' ++ tl2).
      split.
      { unfold ret, h0. rewrite <- !app_assoc. reflexivity. }
      split.
      { rewrite !forallb_app, Lc, Lw, Ld, La, Ld', L1, Lc', L2. reflexivity. }
      cbv zeta.
      rewrite (app_assoc tc tw), observe_app.
      set (ow := fold_left obs (tc ++ tw) obs0) in *.
      rewrite !observe_app, Od, observe_cons. cbn [fold_left observe].
      match goal with |- context [fold_left _ ta ?x] =>
        specialize (Oa x eq_refl Tw); cbv zeta in Oa;
        cbn [polls data_phase toggles attempts scl_level sda_level] in Oa;
        destruct Oa as (Pa & Da & Ta & l & Aa & Hl & Fl);
        set (oa := fold_left obs ta x) in * end.
      rewrite Od', O1, Oc', O2.
      cbn [polls data_phase toggles attempts scl_level sda_level].
      rewrite Aw in Aa. simpl in Aa.
      split; [lia|]. split; [exact Ta|].
      split; [rewrite Aa; exact Hl|]. split; [rewrite Aa; exact Fl|].
      split; [simpl; tauto|]. split; [exact V2|].
      split.
      * intros Hc. right. assert (c' = 0) by congruence.
        rewrite !in_app_iff. auto 12.
      * intros Hs. assert (d' = 0) by congruence.
        rewrite !in_app_iff. auto 12.
    + rewrite (bind_run _ _ _ _ _ (raw_mode_exit_run _)).
      exists EC_SUCCESS, (tc ++ tw ++ td). split.
      { unfold ret, h0. rewrite <- !app_assoc. reflexivity. }
      split.
      { rewrite !forallb_app, Lc, Lw, Ld. reflexivity. }
      cbv zeta.
      rewrite (app_assoc tc tw), observe_app.
      set (ow := fold_left obs (tc ++ tw) obs0) in *.
      rewrite Od.
      cbn [polls data_phase toggles attempts scl_level sda_level].
      split; [exact Pw|]. split; [exact Tw|].
      split; [rewrite Aw; simpl; lia|]. split; [rewrite Aw; constructor|].
      split.
      { split; [|reflexivity]. intros _. split; [exact Bw|]. simpl. lia. }
      split; [left; reflexivity|].
      split.
      * intros Hc. rewrite Hc in Bw. simpl in Bw. lia.
      * intros Hs. inversion Hs. lia.
  - (* the clock never came up *)
    rewrite (bind_run _ _ _ _ _ (raw_mode_exit_run _)).
    exists EC_ERROR_UNKNOWN, (tc ++ tw). split.
    { unfold ret, h0. rewrite <- !app_assoc. reflexivity. }
    split. { rewrite forallb_app, Lc, Lw. reflexivity. }
    cbv zeta. set (o := fold_left obs (tc ++ tw) obs0) in *.
    split; [exact Pw|]. split; [exact Tw|].
    split; [rewrite Aw; simpl; lia|]. split; [rewrite Aw; constructor|].
    split.
    { split; [discriminate|]. intros [H _]. rewrite Bw in H.
      exfalso. apply H. reflexivity. }
    split; [right; reflexivity|].
    split.
    + intros _. left. apply in_or_app. right. apply Gw. reflexivity.
    + rewrite Sw. discriminate.
Qed.

(** C5.  Whenever [i2c_unwedge] gets into raw mode (the port is in the
    table with its pins defined) it returns, and its log is the entry into
    raw mode, a bit-bang session, and the exit from raw mode, on every
    path.  In the session the clock-stretch wait polls at most
    [UNWEDGE_SCL_ATTEMPTS] = 10 times, the data-release loop makes at most
    [UNWEDGE_SDA_ATTEMPTS] = 3 attempts (one STOP each), every attempt
    pulses the clock at most 9 times, and no pulse lies outside an
    attempt. *)
Theorem i2c_unwedge_bounded (h : list event) :
  exists rv body,
    i2c_unwedge env tbl gl p h =
      (Ok rv, h ++ raw_mode_enter gl e ++ body ++ raw_mode_exit gl e) /\
    forallb line_event body = true /\
    let o := observe_all (scl e) (sda e)
               (raw_mode_enter gl e ++ body ++ raw_mode_exit gl e) in
    (polls o <= UNWEDGE_SCL_ATTEMPTS)%nat /\
    (length (attempts o) <= UNWEDGE_SDA_ATTEMPTS)%nat /\
    Forall (fun k => (k <= 9)%nat) (attempts o) /\
    toggles o = 0%nat.
Proof.
  destruct (i2c_unwedge_run h) as (rv & body & R & L & O).
  cbv zeta in O. destruct O as (P & T & A & F & _).
  exists rv, body. split; [exact R|]. split; [exact L|].
  cbv zeta. rewrite observe_all_session.
  unfold UNWEDGE_SCL_ATTEMPTS, UNWEDGE_SDA_ATTEMPTS. auto.
Qed.

(** C6 (as amended).  Whenever [i2c_unwedge] gets into raw mode, it returns
    success exactly when the last sample of each line in its log is high.
    Every failure is the one generic code [EC_ERROR_UNKNOWN], whichever line
    is held low; which line it was is told by the console message only:
    a clock last read low comes with the clock message, a data line last
    read low with the data message. *)
Theorem i2c_unwedge_result (h : list event) :
  exists rv tr,
    i2c_unwedge env tbl gl p h = (Ok rv, h ++ tr) /\
    let o := observe_all (scl e) (sda e) tr in
    (rv = EC_SUCCESS <-> reads_high (scl_level o) /\ reads_high (sda_level o)) /\
    (rv <> EC_SUCCESS -> rv = EC_ERROR_UNKNOWN) /\
    (scl_level o = Some 0 ->
     In (Cprintf LogSclHeldLow) tr \/ In (Cprintf LogSclStillLow) tr) /\
    (sda_level o = Some 0 -> In (Cprintf LogSdaStillLow) tr).
Proof.
  destruct (i2c_unwedge_run h) as (rv & body & R & L & O).
  cbv zeta in O. destruct O as (_ & _ & _ & _ & I & V & Gc & Gd).
  exists rv, (raw_mode_enter gl e ++ body ++ raw_mode_exit gl e).
  split; [exact R|].
  cbv zeta. rewrite observe_all_session.
  split; [exact I|]. split; [destruct V; [contradiction | auto]|].
  split.
  - intros H. destruct (Gc H) as [G|G]; [left | right];
      apply in_or_app; right; apply in_or_app; left; exact G.
  - intros H. apply in_or_app. right. apply in_or_app. left. exact (Gd H).
Qed.

End Unwedge.

Lemma i2c_unwedge_bounded_witness :
  exists rv body,
    i2c_unwedge env_sda_low demo_ports demo_gpio_list 0 [] =
      (Ok rv, [] ++ raw_mode_enter demo_gpio_list (demo_port 0) ++ body ++
              raw_mode_exit demo_gpio_list (demo_port 0)) /\
    forallb line_event body = true /\
    let o := observe_all (scl (demo_port 0)) (sda (demo_port 0))
               (raw_mode_enter demo_gpio_list (demo_port 0) ++ body ++
                raw_mode_exit demo_gpio_list (demo_port 0)) in
    (polls o <= UNWEDGE_SCL_ATTEMPTS)%nat /\
    (length (attempts o) <= UNWEDGE_SDA_ATTEMPTS)%nat /\
    Forall (fun k => (k <= 9)%nat) (attempts o) /\
    toggles o = 0%nat.
Proof.
  apply (i2c_unwedge_bounded env_sda_low demo_ports demo_gpio_list 0 (demo_port 0)).
  - reflexivity.
  - reflexivity.
  - simpl. lia.
Defined.

Lemma i2c_unwedge_result_witness :
  exists rv tr,
    i2c_unwedge env_idle demo_ports demo_gpio_list 0 [] = (Ok rv, [] ++ tr) /\
    let o := observe_all (scl (demo_port 0)) (sda (demo_port 0)) tr in
    (rv = EC_SUCCESS <-> reads_high (scl_level o) /\ reads_high (sda_level o)) /\
    (rv <> EC_SUCCESS -> rv = EC_ERROR_UNKNOWN) /\
    (scl_level o = Some 0 ->
     In (Cprintf LogSclHeldLow) tr \/ In (Cprintf LogSclStillLow) tr) /\
    (sda_level o = Some 0 -> In (Cprintf LogSdaStillLow) tr).
Proof.
  apply (i2c_unwedge_result env_idle demo_ports demo_gpio_list 0 (demo_port 0)).
  - reflexivity.
  - reflexivity.
  - simpl. lia.
Defined.

(** C6, the claim as stated fails: a clock held low and a data line held
    low are reported to the caller with one and the same return code. *)
Lemma i2c_unwedge_same_code :
  let clock_stuck := i2c_unwedge env_scl_low demo_ports demo_gpio_list 0 [] in
  let data_stuck := i2c_unwedge env_sda_low demo_ports demo_gpio_list 0 [] in
  scl_level (observe_all 10 11 (snd clock_stuck)) = Some 0 /\
  scl_level (observe_all 10 11 (snd data_stuck)) = Some 1 /\
  sda_level (observe_all 10 11 (snd data_stuck)) = Some 0 /\
  fst clock_stuck = Ok EC_ERROR_UNKNOWN /\
  fst data_stuck = Ok EC_ERROR_UNKNOWN.
Proof. vm_compute. repeat split; reflexivity. Qed.

(** ** Waiting for the port *)

Section WaitIdle.

Variable env : environment.
Variable TASK_EVENT_TIMER : Z.
Variable TASK_EVENT_I2C_IDLE : Z.
Variable TASK_ID_INVALID : Z.
Variable p : Z.

(** The timer and the I2C completion are different event bits, and the
    port is one of the ports of the chip. *)
Hypothesis Hmasks : Z.land TASK_EVENT_TIMER TASK_EVENT_I2C_IDLE = 0.
Hypothesis Hport : 0 <= p < NUM_PORTS.

Local Abbreviation T := TASK_EVENT_TIMER.
Local Abbreviation I := TASK_EVENT_I2C_IDLE.

(** What [event |= (w & ~TASK_EVENT_I2C_IDLE)] accumulates over the waits. *)
Local Abbreviation gather :=
  (fold_left (fun ev w => Z.lor ev (Z.land w (Z.lnot I)))).

Lemma masks_disjoint (n : Z) :
  Z.testbit T n && Z.testbit I n = false.
Proof. rewrite <- Z.land_spec, Hmasks. apply Z.bits_0. Qed.

Lemma gather_timer (ev w : Z) :
  Z.land (Z.lor ev (Z.land w (Z.lnot I))) T = Z.lor (Z.land ev T) (Z.land w T).
Proof.
  apply Z.bits_inj'. intros n Hn.
  rewrite Z.land_spec, !Z.lor_spec, !Z.land_spec, Z.lnot_spec by exact Hn.
  pose proof (masks_disjoint n) as Hd.
  destruct (Z.testbit ev n), (Z.testbit w n), (Z.testbit T n), (Z.testbit I n);
    simpl in *; congruence.
Qed.

Lemma gather_bit (ws : list Z) (ev n : Z) :
  0 <= n -> Z.testbit I n = false ->
  Z.testbit (gather ws ev) n = Z.testbit ev n || existsb (fun w => Z.testbit w n) ws.
Proof.
  intros Hn HI. revert ev. induction ws as [|w ws IH]; intros ev; simpl.
  - rewrite orb_false_r. reflexivity.
  - rewrite IH, Z.lor_spec, Z.land_spec, Z.lnot_spec, HI by exact Hn.
    simpl. rewrite andb_true_r, orb_assoc. reflexivity.
Qed.

Lemma set_task_waiting_run (id : Z) (h : list event) :
  set_task_waiting_on_port p id h = (Ok tt, h ++ [StoreTaskWaiting p id]).
Proof.
  unfold set_task_waiting_on_port.
  destruct Hport as [H0 H1].
  apply Z.leb_le in H0. apply Z.ltb_lt in H1. rewrite H0, H1. reflexivity.
Qed.

Lemma wait_events_app (t1 t2 : list event) :
  wait_events (t1 ++ t2) = wait_events t1 ++ wait_events t2.
Proof.
  induction t1 as [|x t1 IH]; simpl; [reflexivity|].
  destruct x; simpl; rewrite ?IH; reflexivity.
Qed.

(** The loop: its log, and what a timer wake-up leads to. *)
Lemma wait_idle_loop_run (fuel : nat) :
  forall i ev h, Z.land ev T = 0 ->
  exists r tr,
    wait_idle_loop env T I TASK_ID_INVALID fuel p i ev h = (r, h ++ tr) /\
    (Exists (fun w => Z.land w T <> 0) (wait_events tr) ->
     r = Ok EC_ERROR_TIMEOUT /\
     exists tr',
       tr = tr' ++ [TaskGetCurrent (env (h ++ tr') QTaskCurrent);
                    TaskSetEvent (env (h ++ tr') QTaskCurrent)
                      (Z.land (gather (wait_events tr) ev) (Z.lnot T)) 0]).
Proof.
  induction fuel as [|fuel IH]; intros i ev h Hev;
    cbn [wait_idle_loop]; destruct (Z.land i LM4_I2C_MCS_BUSY =? 0) eqn:Eb.
  - rewrite (bind_run _ _ _ _ _ (task_get_current_run env h)).
    rewrite (bind_run _ _ _ _ _ (task_set_event_run _ _ _ _)).
    destruct (Z.land i (Z.lor _ _) =? 0); unfold ret;
      (eexists _, [_; _]; split;
       [rewrite <- app_assoc; reflexivity | simpl; intros H; inversion H]).
  - eexists _, []. split; [unfold stop_with; rewrite app_nil_r; reflexivity|].
    simpl. intros H. inversion H.
  - rewrite (bind_run _ _ _ _ _ (task_get_current_run env h)).
    rewrite (bind_run _ _ _ _ _ (task_set_event_run _ _ _ _)).
    destruct (Z.land i (Z.lor _ _) =? 0); unfold ret;
      (eexists _, [_; _]; split;
       [rewrite <- app_assoc; reflexivity | simpl; intros H; inversion H]).
  - rewrite (bind_run _ _ _ _ _ (task_get_current_run env h)).
    set (cur := env h QTaskCurrent).
    rewrite (bind_run _ _ _ _ _ (set_task_waiting_run _ _)).
    rewrite (bind_run _ _ _ _ _ (reg_write_run _ _ _)).
    rewrite (bind_run _ _ _ _ _ (task_wait_event_run env _ _)).
    match goal with |- context [TaskWaitEvent 1000000 ?x] => set (w := x) end.
    rewrite (bind_run _ _ _ _ _ (reg_write_run _ _ _)).
    rewrite (bind_run _ _ _ _ _ (set_task_waiting_run _ _)).
    set (pre6 := [TaskGetCurrent cur; StoreTaskWaiting p cur;
                  Write (LM4_I2C MIMR p) 3; TaskWaitEvent 1000000 w;
                  Write (LM4_I2C MIMR p) 0; StoreTaskWaiting p TASK_ID_INVALID]).
    replace (((((((h ++ [TaskGetCurrent cur]) ++ [StoreTaskWaiting p cur]) ++
               [Write (LM4_I2C MIMR p) 3]) ++ [TaskWaitEvent 1000000 w]) ++
               [Write (LM4_I2C MIMR p) 0]) ++ [StoreTaskWaiting p TASK_ID_INVALID]))
      with (h ++ pre6) by (unfold pre6; rewrite <- !app_assoc; reflexivity).
    assert (Hw6 : wait_events pre6 = [w]) by reflexivity.
    set (ev' := Z.lor ev (Z.land w (Z.lnot I))).
    destruct (Z.land ev' T =? 0) eqn:Et.
    + apply Z.eqb_eq in Et. unfold ev' in Et.
      rewrite gather_timer in Et. apply Z.lor_eq_0_iff in Et.
      destruct Et as [_ Hwt].
      rewrite (bind_run _ _ _ _ _ (reg_read_run env _ _)).
      match goal with |- context [wait_idle_loop _ _ _ _ _ _ ?i' _ ?h'] =>
        destruct (IH i' ev' h') as (r2 & tr2 & S2 & C2);
        [unfold ev'; rewrite gather_timer, Hev, Hwt; reflexivity|];
        set (i2 := i') in * end.
      exists r2, (pre6 ++ [Read (LM4_I2C MCS p) i2] ++ tr2). split.
      { rewrite S2, <- !app_assoc. reflexivity. }
      rewrite !wait_events_app, Hw6. simpl.
      intros H. inversion H as [? ? Hx | ? ? Hx]; subst; [contradiction|].
      destruct (C2 Hx) as (F2 & tr' & E2). split; [exact F2|].
      exists (pre6 ++ [Read (LM4_I2C MCS p) i2] ++ tr').
      replace (h ++ pre6 ++ [Read (LM4_I2C MCS p) i2] ++ tr')
        with (((h ++ pre6) ++ [Read (LM4_I2C MCS p) i2]) ++ tr')
        by (rewrite <- !app_assoc; reflexivity).
      rewrite E2 at 1. unfold pre6. simpl. reflexivity.
    + rewrite (bind_run _ _ _ _ _ (task_get_current_run env _)).
      rewrite (bind_run _ _ _ _ _ (task_set_event_run _ _ _ _)).
      exists (Ok EC_ERROR_TIMEOUT),
        (pre6 ++ [TaskGetCurrent (env (h ++ pre6) QTaskCurrent);
                  TaskSetEvent (env (h ++ pre6) QTaskCurrent)
                    (Z.land ev' (Z.lnot T)) 0]).
      split.
      { unfold ret. rewrite <- !app_assoc. reflexivity. }
      intros _. split; [reflexivity|].
      exists pre6. rewrite wait_events_app, Hw6. reflexivity.
Qed.

(** C3.  If any of the waits of [wait_idle] is resumed with the timer
    event, [wait_idle] returns [EC_ERROR_TIMEOUT], which is not the generic
    [EC_ERROR_UNKNOWN], and the last thing it does is to post to the calling
    task a mask that holds every event bit the task received in any of the
    waits, other than the I2C completion and the timer that ended the
    wait (and holds no other such bit). *)
Theorem wait_idle_timeout (fuel : nat) (h tr : list event) (w : Z) :
  snd (wait_idle env T I TASK_ID_INVALID fuel p h) = h ++ tr ->
  In w (wait_events tr) ->
  Z.land w T <> 0 ->
  fst (wait_idle env T I TASK_ID_INVALID fuel p h) = Ok EC_ERROR_TIMEOUT /\
  EC_ERROR_TIMEOUT <> EC_ERROR_UNKNOWN /\
  exists tr' cur m,
    tr = tr' ++ [TaskGetCurrent cur; TaskSetEvent cur m 0] /\
    cur = env (h ++ tr') QTaskCurrent /\
    forall n, 0 <= n -> Z.testbit I n = false -> Z.testbit T n = false ->
      (Z.testbit m n = true <->
       exists w', In w' (wait_events tr) /\ Z.testbit w' n = true).
Proof.
  intros Hsnd Hin Hw. unfold wait_idle in *.
  rewrite (bind_run _ _ _ _ _ (reg_read_run env _ h)) in *.
  match type of Hsnd with context [wait_idle_loop _ _ _ _ _ _ ?i0 _ ?h0] =>
    destruct (wait_idle_loop_run fuel i0 0 h0 (Z.land_0_l _))
      as (r & tr0 & R & C); set (i := i0) in * end.
  rewrite R in *. simpl in Hsnd.
  rewrite <- app_assoc in Hsnd. apply app_inv_head in Hsnd. subst tr.
  change (wait_events ([Read (LM4_I2C MCS p) i] ++ tr0)) with (wait_events tr0) in *.
  destruct C as (F & tr' & E).
  { apply List.Exists_exists. exists w. split; [exact Hin | exact Hw]. }
  split; [exact F|]. split; [discriminate|].
  exists ([Read (LM4_I2C MCS p) i] ++ tr'), (env ((h ++ [Read (LM4_I2C MCS p) i]) ++ tr') QTaskCurrent),
    (Z.land (gather (wait_events tr0) 0) (Z.lnot T)).
  split; [rewrite E at 1; rewrite <- app_assoc; reflexivity|].
  split; [rewrite <- app_assoc; reflexivity|].
  intros n Hn HI HT.
  rewrite Z.land_spec, Z.lnot_spec, HT, (gather_bit _ _ _ Hn HI), Z.bits_0 by exact Hn.
  simpl. rewrite andb_true_r, existsb_exists. reflexivity.
Qed.

End WaitIdle.

Lemma wait_idle_timeout_witness :
  fst (wait_idle env_never_idle DEMO_EVENT_TIMER DEMO_EVENT_I2C_IDLE
         DEMO_TASK_ID_INVALID 1 0 []) = Ok EC_ERROR_TIMEOUT /\
  EC_ERROR_TIMEOUT <> EC_ERROR_UNKNOWN /\
  exists tr' cur m,
    [Read (LM4_I2C MCS 0) 1; TaskGetCurrent 7; StoreTaskWaiting 0 7;
     Write (LM4_I2C MIMR 0) 3; TaskWaitEvent 1000000 2147483652;
     Write (LM4_I2C MIMR 0) 0; StoreTaskWaiting 0 255;
     TaskGetCurrent 7; TaskSetEvent 7 4 0]
    = tr' ++ [TaskGetCurrent cur; TaskSetEvent cur m 0] /\
    cur = env_never_idle ([] ++ tr') QTaskCurrent /\
    forall n, 0 <= n -> Z.testbit DEMO_EVENT_I2C_IDLE n = false ->
      Z.testbit DEMO_EVENT_TIMER n = false ->
      (Z.testbit m n = true <->
       exists w', In w' (wait_events
                    [Read (LM4_I2C MCS 0) 1; TaskGetCurrent 7; StoreTaskWaiting 0 7;
                     Write (LM4_I2C MIMR 0) 3; TaskWaitEvent 1000000 2147483652;
                     Write (LM4_I2C MIMR 0) 0; StoreTaskWaiting 0 255;
                     TaskGetCurrent 7; TaskSetEvent 7 4 0]) /\
                  Z.testbit w' n = true).
Proof.
  apply (wait_idle_timeout env_never_idle DEMO_EVENT_TIMER DEMO_EVENT_I2C_IDLE
           DEMO_TASK_ID_INVALID 0) with (w := 2147483652).
  - reflexivity.
  - unfold NUM_PORTS. lia.
  - vm_compute. reflexivity.
  - simpl. left. reflexivity.
  - vm_compute. discriminate.
Defined.

(** ** Shapes of runs *)

Create HintDb hw.

Lemma returns_logs {A : Type} (P : event -> bool) (m : M A) :
  returns_logging P m -> logs_only P m.
Proof.
  intros H h. destruct (H h) as (a & tr & R & L). exists (Ok a), tr. auto.
Qed.

Lemma logs_ret {A : Type} (P : event -> bool) (a : A) : returns_logging P (ret a).
Proof. intros h. exists a, []. rewrite app_nil_r. split; reflexivity. Qed.

Lemma logs_stop {A : Type} (P : event -> bool) (w : stuck) :
  logs_only P (@stop_with A w).
Proof. intros h. exists (Stuck w), []. rewrite app_nil_r. split; reflexivity. Qed.

Lemma logs_emit (P : event -> bool) (e : event) :
  P e = true -> returns_logging P (emit e).
Proof.
  intros H h. exists tt, [e]. split; [reflexivity|]. simpl. rewrite H. reflexivity.
Qed.

Lemma logs_ask (env : environment) (P : event -> bool) (q : query) (obs : Z -> event) :
  (forall v, P (obs v) = true) -> returns_logging P (ask env q obs).
Proof.
  intros H h. exists (env h q), [obs (env h q)]. split; [reflexivity|].
  simpl. rewrite H. reflexivity.
Qed.

Lemma returns_bind {A B : Type} (P : event -> bool) (m : M A) (f : A -> M B) :
  returns_logging P m -> (forall a, returns_logging P (f a)) ->
  returns_logging P (bind m f).
Proof.
  intros Hm Hf h. destruct (Hm h) as (a & t1 & R1 & L1).
  destruct (Hf a (h ++ t1)) as (b & t2 & R2 & L2).
  exists b, (t1 ++ t2). rewrite (bind_run _ _ _ _ _ R1), R2, <- app_assoc.
  split; [reflexivity|]. rewrite forallb_app, L1, L2. reflexivity.
Qed.

Lemma logs_bind {A B : Type} (P : event -> bool) (m : M A) (f : A -> M B) :
  logs_only P m -> (forall a, logs_only P (f a)) -> logs_only P (bind m f).
Proof.
  intros Hm Hf h. destruct (Hm h) as ([a|w] & t1 & R1 & L1).
  - destruct (Hf a (h ++ t1)) as (r & t2 & R2 & L2).
    exists r, (t1 ++ t2). rewrite (bind_run _ _ _ _ _ R1), R2, <- app_assoc.
    split; [reflexivity|]. rewrite forallb_app, L1, L2. reflexivity.
  - exists (Stuck w), t1. rewrite (bind_stuck _ _ _ _ _ R1). auto.
Qed.

Lemma logs_weaken {A : Type} (P Q : event -> bool) (m : M A) :
  (forall e, P e = true -> Q e = true) -> logs_only P m -> logs_only Q m.
Proof.
  intros HPQ H h. destruct (H h) as (r & tr & R & L). exists r, tr.
  split; [exact R|]. rewrite forallb_forall in L |- *. auto.
Qed.

Lemma returns_weaken {A : Type} (P Q : event -> bool) (m : M A) :
  (forall e, P e = true -> Q e = true) -> returns_logging P m -> returns_logging Q m.
Proof.
  intros HPQ H h. destruct (H h) as (r & tr & R & L). exists r, tr.
  split; [exact R|]. rewrite forallb_forall in L |- *. auto.
Qed.

#[local] Hint Resolve logs_ret logs_stop logs_emit logs_ask returns_bind logs_bind
  returns_logs : hw.

(** [i2c_unwedge] on a configured port returns, whatever its pins are, and
    touches nothing but pins, the raw-mode lock, delays and the console. *)
Section UnwedgeShape.

Variable env : environment.
Variable tbl : list i2c_port_t.
Variable gl : Z -> gpio_info.
Variable p : Z.
Variable e : i2c_port_t.
Hypothesis Hfind : find_port tbl p = Some e.

Lemma get_scl_returns : returns_logging raw_event (get_scl_from_i2c_port tbl p).
Proof.
  unfold get_scl_from_i2c_port. rewrite Hfind.
  destruct ((scl e =? 0) && (sda e =? 0)); auto with hw.
Qed.

Lemma get_sda_returns : returns_logging raw_event (get_sda_from_i2c_port tbl p).
Proof.
  unfold get_sda_from_i2c_port. rewrite Hfind.
  destruct ((scl e =? 0) && (sda e =? 0)); auto with hw.
Qed.

#[local] Hint Resolve get_scl_returns get_sda_returns : hw.

Ltac shape :=
  repeat first
    [ progress intros
    | apply returns_bind
    | apply logs_ret
    | apply logs_emit; reflexivity
    | apply logs_ask; intros; reflexivity
    | solve [auto with hw]
    | match goal with
      | |- returns_logging _ (match ?x with _ => _ end) => destruct x
      | |- returns_logging _ (if ?x then _ else _) => destruct x
      end ].

Lemma raw_set_scl_returns (v : Z) : returns_logging raw_event (i2c_raw_set_scl tbl p v).
Proof. unfold i2c_raw_set_scl, gpio_set_level. shape. Qed.

Lemma raw_set_sda_returns (v : Z) : returns_logging raw_event (i2c_raw_set_sda tbl p v).
Proof. unfold i2c_raw_set_sda, gpio_set_level. shape. Qed.

Lemma raw_get_scl_returns : returns_logging raw_event (i2c_raw_get_scl env tbl p).
Proof. unfold i2c_raw_get_scl, gpio_get_level, gpio_set_flags. shape. Qed.

Lemma raw_get_sda_returns : returns_logging raw_event (i2c_raw_get_sda env tbl p).
Proof. unfold i2c_raw_get_sda, gpio_get_level, gpio_set_flags. shape. Qed.

Lemma raw_mode_returns (enable : Z) : returns_logging raw_event (i2c_raw_mode tbl gl p enable).
Proof.
  unfold i2c_raw_mode, gpio_set_alternate_function, gpio_set_flags, gpio_set_level,
    mutex_lock, mutex_unlock.
  shape.
Qed.

#[local] Hint Resolve raw_set_scl_returns raw_set_sda_returns raw_get_scl_returns
  raw_get_sda_returns raw_mode_returns : hw.

Lemma unwedge_wait_scl_returns (n : nat) :
  returns_logging raw_event (unwedge_wait_scl env tbl p n).
Proof.
  induction n as [|n IH]; cbn [unwedge_wait_scl]; unfold cprintf, udelay; shape.
Qed.

Lemma unwedge_clock_bits_returns (n : nat) :
  returns_logging raw_event (unwedge_clock_bits env tbl p n).
Proof.
  induction n as [|n IH]; cbn [unwedge_clock_bits]; unfold udelay; shape.
Qed.

#[local] Hint Resolve unwedge_wait_scl_returns unwedge_clock_bits_returns : hw.

Lemma unwedge_sda_attempts_returns (n : nat) :
  returns_logging raw_event (unwedge_sda_attempts env tbl p n).
Proof.
  induction n as [|n IH]; cbn [unwedge_sda_attempts]; unfold udelay; shape.
Qed.

#[local] Hint Resolve unwedge_sda_attempts_returns : hw.

Lemma i2c_unwedge_returns : returns_logging raw_event (i2c_unwedge env tbl gl p).
Proof. unfold i2c_unwedge, cprintf. shape. Qed.

End UnwedgeShape.

(** ** The transaction engine *)

Ltac shape_logs :=
  repeat first
    [ progress intros
    | solve [auto with hw]
    | apply logs_stop
    | apply returns_logs; apply logs_ret
    | apply returns_logs; apply logs_emit; reflexivity
    | apply returns_logs; apply logs_ask; intros; reflexivity
    | apply logs_bind
    | match goal with
      | |- logs_only _ (match ?x with _ => _ end) => destruct x
      | |- logs_only _ (if ?x then _ else _) => destruct x
      | |- logs_only _ (let (_, _) := ?x in _) => destruct x
      end ].

Lemma load_logs (P : event -> bool) (buf : list Z) (i : Z) : logs_only P (load buf i).
Proof. unfold load. shape_logs. Qed.

Lemma store_logs (P : event -> bool) (buf : list Z) (i v : Z) :
  logs_only P (store buf i v).
Proof. unfold store. shape_logs. Qed.

#[local] Hint Resolve load_logs store_logs : hw.

Section Engine.

Variable env : environment.
Variable tbl : list i2c_port_t.
Variable gl : Z -> gpio_info.
Variable scl_read_first : bool.
Variable TASK_EVENT_TIMER : Z.
Variable TASK_EVENT_I2C_IDLE : Z.
Variable TASK_ID_INVALID : Z.

Local Abbreviation wait_idle' := (wait_idle env TASK_EVENT_TIMER TASK_EVENT_I2C_IDLE TASK_ID_INVALID).
Local Abbreviation receive_loop' :=
  (receive_loop env TASK_EVENT_TIMER TASK_EVENT_I2C_IDLE TASK_ID_INVALID).
Local Abbreviation transmit_loop' :=
  (transmit_loop env TASK_EVENT_TIMER TASK_EVENT_I2C_IDLE TASK_ID_INVALID).
Local Abbreviation i2c_receive_phase' :=
  (i2c_receive_phase env TASK_EVENT_TIMER TASK_EVENT_I2C_IDLE TASK_ID_INVALID).
Local Abbreviation i2c_transmit_phase' :=
  (i2c_transmit_phase env TASK_EVENT_TIMER TASK_EVENT_I2C_IDLE TASK_ID_INVALID).
Local Abbreviation i2c_transmit_receive' :=
  (i2c_transmit_receive env tbl gl scl_read_first
      TASK_EVENT_TIMER TASK_EVENT_I2C_IDLE TASK_ID_INVALID).

Lemma set_task_waiting_logs (p id : Z) :
  logs_only wait_event (set_task_waiting_on_port p id).
Proof. unfold set_task_waiting_on_port. shape_logs. Qed.

#[local] Hint Resolve set_task_waiting_logs : hw.

Lemma wait_idle_loop_logs (fuel : nat) (p : Z) :
  forall i ev,
    logs_only wait_event
      (wait_idle_loop env TASK_EVENT_TIMER TASK_EVENT_I2C_IDLE TASK_ID_INVALID
         fuel p i ev).
Proof.
  induction fuel as [|fuel IH]; intros i ev; cbn [wait_idle_loop];
    unfold task_get_current, task_set_event, task_wait_event, reg_write, reg_read;
    shape_logs.
Qed.

Lemma wait_idle_logs (fuel : nat) (p : Z) : logs_only wait_event (wait_idle' fuel p).
Proof.
  unfold wait_idle, reg_read. apply logs_bind; [shape_logs|].
  intros i. apply wait_idle_loop_logs.
Qed.

Lemma wait_is_transfer (e : event) : wait_event e = true -> transfer_event e = true.
Proof. destruct e as [[[] ?|] ?|[[] ?|] ?| | | | | | | | | | | | | | |]; simpl; congruence. Qed.

Lemma transfer_is_not_recovery (e : event) :
  transfer_event e = true -> negb (recovery_event e) = true.
Proof. destruct e as [[[] ?|] ?|[[] ?|] ?| | | | | | | | | | | | | | |]; simpl; congruence. Qed.

Lemma raw_is_not_issue (e : event) : raw_event e = true -> negb (issue_event e) = true.
Proof.
  destruct e as [[[] ?|] ?|[[] ?|] ?| | | | |[]|[]| | | | | | | | |]; simpl; congruence.
Qed.

Lemma wait_is_not_issue (e : event) : wait_event e = true -> negb (issue_event e) = true.
Proof. destruct e as [[[] ?|] ?|[[] ?|] ?| | | | | | | | | | | | | | |]; simpl; congruence. Qed.

Lemma wait_idle_transfer_logs (fuel : nat) (p : Z) :
  logs_only transfer_event (wait_idle' fuel p).
Proof. apply (logs_weaken wait_event); [exact wait_is_transfer | apply wait_idle_logs]. Qed.

#[local] Hint Resolve wait_idle_transfer_logs : hw.

Lemma transmit_loop_logs (fuel : nat) (p : Z) (d : list Z) (tsize rsize stop : Z)
    (left : nat) :
  forall i started,
    logs_only transfer_event (transmit_loop' fuel p d tsize rsize stop left i started).
Proof.
  induction left as [|left IH]; intros i started; cbn [transmit_loop];
    unfold reg_write; cbv zeta; shape_logs.
Qed.

Lemma receive_loop_logs (fuel : nat) (p : Z) (rsize stop : Z) (left : nat) :
  forall rx i started,
    logs_only transfer_event (receive_loop' fuel p rx rsize stop left i started).
Proof.
  induction left as [|left IH]; intros rx i started; cbn [receive_loop];
    unfold reg_write, reg_read; cbv zeta; shape_logs.
Qed.

#[local] Hint Resolve transmit_loop_logs receive_loop_logs : hw.

Lemma transmit_phase_logs (fuel : nat) (p addr : Z) (tx : option (list Z))
    (tsize rsize stop : Z) (started : bool) :
  logs_only transfer_event (i2c_transmit_phase' fuel p addr tx tsize rsize stop started).
Proof. unfold i2c_transmit_phase, reg_write. shape_logs. Qed.

Lemma receive_phase_logs (fuel : nat) (p addr tsize : Z) (rx : list Z)
    (rsize stop : Z) (started : bool) :
  logs_only transfer_event (i2c_receive_phase' fuel p addr tsize rx rsize stop started).
Proof. unfold i2c_receive_phase, reg_write. cbv zeta. shape_logs. Qed.

Lemma mcs_writes_app (p : Z) (t1 t2 : list event) :
  mcs_writes p (t1 ++ t2) = mcs_writes p t1 ++ mcs_writes p t2.
Proof.
  induction t1 as [|x t1 IH]; [reflexivity|].
  destruct x as [| [[] q|] w | | | | | | | | | | | | | | |]; simpl; rewrite ?IH;
    try reflexivity.
  destruct (q =? p); simpl; rewrite ?IH; reflexivity.
Qed.

Lemma mcs_writes_quiet (p : Z) (tr : list event) :
  forallb (fun x => negb (issue_event x)) tr = true -> mcs_writes p tr = [].
Proof.
  induction tr as [|x tr IH]; [reflexivity|]. simpl.
  intros H. apply andb_true_iff in H. destruct H as [Hx Ht].
  destruct x as [| [[] q|] w | | | | | | | | | | | | | | |]; simpl in *;
    try discriminate; auto.
Qed.

Lemma mcs_writes_wait (p : Z) (tr : list event) :
  forallb wait_event tr = true -> mcs_writes p tr = [].
Proof.
  intros H. apply mcs_writes_quiet. rewrite forallb_forall in H |- *.
  intros x Hx. apply wait_is_not_issue. auto.
Qed.

(** The control word of one received byte, bit by bit. *)
Lemma receive_word_bits (started : bool) (last : bool) :
  let w0 := if started then LM4_I2C_MCS_RUN
            else Z.lor LM4_I2C_MCS_RUN LM4_I2C_MCS_START in
  let w := if last then Z.lor w0 LM4_I2C_MCS_STOP else Z.lor w0 LM4_I2C_MCS_ACK in
  Z.testbit w 0 = true /\
  Z.testbit w 1 = negb started /\
  Z.testbit w 2 = last /\
  Z.testbit w 3 = negb last.
Proof. destruct started, last; repeat split; reflexivity. Qed.

(** The receive loop: one control word per byte; the first carries START
    when no START was sent yet; a byte gets STOP when it is the last one
    and the caller asked for a stop, and ACK otherwise. *)
Lemma receive_loop_run (fuel : nat) (p rsize stop : Z) (left : nat) :
  forall rx i started h,
  exists r tr,
    receive_loop' fuel p rx rsize stop left i started h = (r, h ++ tr) /\
    (length (mcs_writes p tr) <= left)%nat /\
    (forall buf, r = Ok (None, buf) -> length (mcs_writes p tr) = left) /\
    (mcs_writes p tr <> [] ->
     exists b w rest, tr = Write (LM4_I2C MDR p) b :: Write (LM4_I2C MCS p) w :: rest) /\
    forall k w, mcs_writes p tr !! k = Some w ->
      Z.testbit w 0 = true /\
      Z.testbit w 1 = (Nat.eqb k 0 && negb started) /\
      Z.testbit w 2 = (negb (stop =? 0) && (i + Z.of_nat k =? rsize - 1)) /\
      Z.testbit w 3 = negb (negb (stop =? 0) && (i + Z.of_nat k =? rsize - 1)).
Proof.
  induction left as [|left IH]; intros rx i started h; cbn [receive_loop].
  - exists (Ok (None, rx)), []. unfold ret. rewrite app_nil_r.
    split; [reflexivity|]. split; [simpl; lia|]. split; [reflexivity|].
    split; [intros H; contradiction|]. intros k w H. discriminate.
  - cbv zeta.
    set (last := negb (stop =? 0) && (i =? rsize - 1)).
    set (w0 := if started then LM4_I2C_MCS_RUN
               else Z.lor LM4_I2C_MCS_RUN LM4_I2C_MCS_START).
    set (w1 := if last then Z.lor w0 LM4_I2C_MCS_STOP else Z.lor w0 LM4_I2C_MCS_ACK).
    assert (Hstuck : forall (w : stuck),
      exists r tr, (Stuck w : res (option ec_error * list Z), h) = (r, h ++ tr) /\
        (length (mcs_writes p tr) <= S left)%nat /\
        (forall buf, r = Ok (None, buf) -> length (mcs_writes p tr) = S left) /\
        (mcs_writes p tr <> [] ->
         exists b w rest, tr = Write (LM4_I2C MDR p) b :: Write (LM4_I2C MCS p) w :: rest) /\
        forall k w, mcs_writes p tr !! k = Some w ->
          Z.testbit w 0 = true /\
          Z.testbit w 1 = (Nat.eqb k 0 && negb started) /\
          Z.testbit w 2 = (negb (stop =? 0) && (i + Z.of_nat k =? rsize - 1)) /\
          Z.testbit w 3 = negb (negb (stop =? 0) && (i + Z.of_nat k =? rsize - 1))).
    { intros w. exists (Stuck w), []. rewrite app_nil_r.
      split; [reflexivity|]. split; [simpl; lia|]. split; [discriminate|].
      split; [intros H; contradiction|]. intros k x H. discriminate. }
    unfold load. destruct (i <? 0); [apply Hstuck|].
    destruct (rx !! Z.to_nat i) as [b|]; [|apply Hstuck]. clear Hstuck.
    unfold bind at 1, ret.
    rewrite (bind_run _ _ _ _ _ (reg_write_run _ _ _)).
    rewrite (bind_run _ _ _ _ _ (reg_write_run _ _ _)).
    (* whatever follows the two writes, all that matters is its control words *)
    match goal with |- context [bind (wait_idle' fuel p) ?f ?h1] =>
      assert (Hrest : exists r t2,
                bind (wait_idle' fuel p) f h1 = (r, h1 ++ t2) /\
                (length (mcs_writes p t2) <= left)%nat /\
                (forall buf, r = Ok (None, buf) -> length (mcs_writes p t2) = left) /\
                forall k w, mcs_writes p t2 !! k = Some w ->
                  Z.testbit w 0 = true /\
                  Z.testbit w 1 = false /\
                  Z.testbit w 2 =
                    (negb (stop =? 0) && (i + 1 + Z.of_nat k =? rsize - 1)) /\
                  Z.testbit w 3 =
                    negb (negb (stop =? 0) && (i + 1 + Z.of_nat k =? rsize - 1)));
      [| destruct Hrest as (r & t2 & R2 & Len & Full & Bits) ] end.
    { match goal with |- context [bind _ _ ?h1] =>
        destruct (wait_idle_logs fuel p h1) as (rw & tw & Rw & Lw) end.
      pose proof (mcs_writes_wait p tw Lw) as Mw.
      assert (Hend : forall (r : res (option ec_error * list Z)) t,
                (forall buf, r <> Ok (None, buf)) -> mcs_writes p t = [] ->
                (length (mcs_writes p t) <= left)%nat /\
                (forall buf, r = Ok (None, buf) -> length (mcs_writes p t) = left) /\
                forall k w, mcs_writes p t !! k = Some w ->
                  Z.testbit w 0 = true /\
                  Z.testbit w 1 = false /\
                  Z.testbit w 2 =
                    (negb (stop =? 0) && (i + 1 + Z.of_nat k =? rsize - 1)) /\
                  Z.testbit w 3 =
                    negb (negb (stop =? 0) && (i + 1 + Z.of_nat k =? rsize - 1))).
      { intros r t Hr Ht. rewrite Ht. split; [simpl; lia|].
        split; [intros buf E; destruct (Hr buf E)|]. intros k w H. discriminate. }
      destruct rw as [rv|w].
      - rewrite (bind_run _ _ _ _ _ Rw).
        destruct (ec_is_success rv).
        + rewrite (bind_run _ _ _ _ _ (reg_read_run env _ _)).
          match goal with |- context [Read (LM4_I2C MDR p) ?x] => set (v := x) end.
          unfold store.
          destruct ((0 <=? i) && (i <? Z.of_nat (length rx))).
          * unfold bind at 1, ret.
            match goal with |- context [receive_loop' _ _ ?rx' _ _ _ _ _ ?h2] =>
              destruct (IH rx' (i + 1) true h2) as (r & t3 & R3 & Len3 & Full3 & _ & Bits3)
            end.
            exists r, (tw ++ [Read (LM4_I2C MDR p) v] ++ t3).
            split; [rewrite R3, <- !app_assoc; reflexivity|].
            rewrite !mcs_writes_app, Mw. simpl.
            split; [exact Len3|]. split; [exact Full3|].
            intros k w H. destruct (Bits3 k w H) as (B0 & B1 & B2 & B3).
            rewrite andb_false_r in B1. auto.
          * exists (Stuck OutOfBounds), (tw ++ [Read (LM4_I2C MDR p) v]).
            split; [unfold bind, stop_with; rewrite <- !app_assoc; reflexivity|].
            apply Hend; [discriminate|]. rewrite mcs_writes_app, Mw. reflexivity.
        + exists (Ok (Some rv, rx)), tw. split; [reflexivity|].
          apply Hend; [discriminate | exact Mw].
      - rewrite (bind_stuck _ _ _ _ _ Rw). exists (Stuck w), tw.
        split; [reflexivity|]. apply Hend; [discriminate | exact Mw]. }
    exists r, (Write (LM4_I2C MDR p) b :: Write (LM4_I2C MCS p) w1 :: t2).
    split; [rewrite R2, <- !app_assoc; reflexivity|].
    simpl. rewrite Z.eqb_refl. simpl.
    split; [lia|]. split; [intros buf E; rewrite (Full buf E); reflexivity|].
    split; [intros _; eauto|].
    intros [|k] w H.
    + simpl in H. inversion H; subst w. clear H.
      rewrite Z.add_0_r. fold last.
      pose proof (receive_word_bits started last) as HB. cbv zeta in HB.
      fold w0 in HB. fold w1 in HB. exact HB.
    + simpl in H. destruct (Bits k w H) as (B0 & B1 & B2 & B3).
      replace (i + Z.of_nat (S k)) with (i + 1 + Z.of_nat k) by lia.
      simpl. auto.
Qed.

Lemma has_flag_testbit (w n : Z) :
  0 <= n -> has_flag w (Z.shiftl 1 n) = Z.testbit w n.
Proof.
  intros Hn. unfold has_flag. rewrite Z.shiftl_1_l.
  assert (E : Z.land w (2 ^ n) = if Z.testbit w n then 2 ^ n else 0).
  { apply Z.bits_inj'. intros m Hm.
    rewrite Z.land_spec, Z.pow2_bits_eqb by exact Hn.
    destruct (Z.eqb_spec n m) as [->|Hne].
    - destruct (Z.testbit w m); simpl.
      + rewrite Z.pow2_bits_eqb, Z.eqb_refl by exact Hm. reflexivity.
      + rewrite Z.bits_0. reflexivity.
    - rewrite andb_false_r. destruct (Z.testbit w n).
      + rewrite Z.pow2_bits_eqb by exact Hn.
        symmetry. apply Z.eqb_neq. exact Hne.
      + rewrite Z.bits_0. reflexivity. }
  rewrite E. destruct (Z.testbit w n); [|reflexivity].
  assert (0 < 2 ^ n) by (apply Z.pow_pos_nonneg; lia).
  destruct (Z.eqb_spec (2 ^ n) 0); [lia | reflexivity].
Qed.

(** The transmit loop writes one control word per byte it gets to. *)
Lemma transmit_loop_run (fuel : nat) (p : Z) (d : list Z) (tsize rsize stop : Z)
    (left : nat) :
  forall i started h,
  exists r tr,
    transmit_loop' fuel p d tsize rsize stop left i started h = (r, h ++ tr) /\
    (length (mcs_writes p tr) <= left)%nat /\
    (forall st, r = Ok (None, st) -> length (mcs_writes p tr) = left).
Proof.
  induction left as [|left IH]; intros i started h; cbn [transmit_loop].
  - exists (Ok (None, started)), []. unfold ret. rewrite app_nil_r.
    split; [reflexivity|]. split; [simpl; lia | reflexivity].
  - cbv zeta. unfold load.
    assert (Hstuck : forall (w : stuck),
      exists r tr, (Stuck w : res (option ec_error * bool), h) = (r, h ++ tr) /\
        (length (mcs_writes p tr) <= S left)%nat /\
        (forall st, r = Ok (None, st) -> length (mcs_writes p tr) = S left)).
    { intros w. exists (Stuck w), []. rewrite app_nil_r.
      split; [reflexivity|]. split; [simpl; lia | discriminate]. }
    destruct (i <? 0); [apply Hstuck|].
    destruct (d !! Z.to_nat i) as [b|]; [|apply Hstuck]. clear Hstuck.
    unfold bind at 1, ret.
    rewrite (bind_run _ _ _ _ _ (reg_write_run _ _ _)).
    rewrite (bind_run _ _ _ _ _ (reg_write_run _ _ _)).
    match goal with |- context [Write (LM4_I2C MCS p) ?x] => set (w1 := x) end.
    match goal with |- context [bind _ _ ?h1] =>
      destruct (wait_idle_logs fuel p h1) as (rw & tw & Rw & Lw) end.
    pose proof (mcs_writes_wait p tw Lw) as Mw.
    destruct rw as [rv|w].
    + rewrite (bind_run _ _ _ _ _ Rw). destruct (ec_is_success rv).
      * match goal with |- context [transmit_loop' _ _ _ _ _ _ _ _ _ ?h2] =>
          destruct (IH (i + 1) true h2) as (r & t3 & R3 & Len3 & Full3) end.
        exists r, (Write (LM4_I2C MDR p) b :: Write (LM4_I2C MCS p) w1 :: tw ++ t3).
        split; [rewrite R3, <- !app_assoc; reflexivity|].
        simpl. rewrite Z.eqb_refl, mcs_writes_app, Mw. simpl.
        split; [lia|]. intros st E. rewrite (Full3 st E). reflexivity.
      * exists (Ok (Some rv, true)),
          (Write (LM4_I2C MDR p) b :: Write (LM4_I2C MCS p) w1 :: tw).
        split; [unfold ret; rewrite <- !app_assoc; reflexivity|].
        simpl. rewrite Z.eqb_refl, Mw. simpl. split; [lia | discriminate].
    + rewrite (bind_stuck _ _ _ _ _ Rw).
      exists (Stuck w), (Write (LM4_I2C MDR p) b :: Write (LM4_I2C MCS p) w1 :: tw).
      split; [rewrite <- !app_assoc; reflexivity|].
      simpl. rewrite Z.eqb_refl, Mw. simpl. split; [lia | discriminate].
Qed.

(** A loop is left early only with the code of a wait that failed. *)
Lemma transmit_loop_early (fuel : nat) (p : Z) (d : list Z) (tsize rsize stop : Z)
    (left : nat) :
  forall i started h rv st h',
    transmit_loop' fuel p d tsize rsize stop left i started h = (Ok (Some rv, st), h') ->
    ec_is_success rv = false.
Proof.
  induction left as [|left IH]; intros i started h rv st h'; cbn [transmit_loop].
  - unfold ret. discriminate.
  - cbv zeta. unfold load.
    destruct (i <? 0); [unfold bind, stop_with; discriminate|].
    destruct (d !! Z.to_nat i) as [b|]; [|unfold bind, stop_with; discriminate].
    unfold bind at 1, ret.
    rewrite (bind_run _ _ _ _ _ (reg_write_run _ _ _)).
    rewrite (bind_run _ _ _ _ _ (reg_write_run _ _ _)).
    match goal with |- context [bind (wait_idle' fuel p) _ ?h1] =>
      destruct (wait_idle' fuel p h1) as [[rw|w] h2] eqn:Rw end.
    + rewrite (bind_run _ _ _ _ _ Rw). destruct (ec_is_success rw) eqn:Erw.
      * apply IH.
      * intros E. inversion E; subst. exact Erw.
    + rewrite (bind_stuck _ _ _ _ _ Rw). discriminate.
Qed.

Lemma receive_loop_early (fuel : nat) (p rsize stop : Z) (left : nat) :
  forall rx i started h rv buf h',
    receive_loop' fuel p rx rsize stop left i started h = (Ok (Some rv, buf), h') ->
    ec_is_success rv = false.
Proof.
  induction left as [|left IH]; intros rx i started h rv buf h'; cbn [receive_loop].
  - unfold ret. discriminate.
  - cbv zeta. unfold load.
    destruct (i <? 0); [unfold bind, stop_with; discriminate|].
    destruct (rx !! Z.to_nat i) as [b|]; [|unfold bind, stop_with; discriminate].
    unfold bind at 1, ret.
    rewrite (bind_run _ _ _ _ _ (reg_write_run _ _ _)).
    rewrite (bind_run _ _ _ _ _ (reg_write_run _ _ _)).
    match goal with |- context [bind (wait_idle' fuel p) _ ?h1] =>
      destruct (wait_idle' fuel p h1) as [[rw|w] h2] eqn:Rw end.
    + rewrite (bind_run _ _ _ _ _ Rw). destruct (ec_is_success rw) eqn:Erw.
      * rewrite (bind_run _ _ _ _ _ (reg_read_run env _ _)).
        unfold store. destruct ((0 <=? i) && _); [|unfold bind, stop_with; discriminate].
        unfold bind at 1, ret. apply IH.
      * intros E. inversion E; subst. exact Erw.
    + rewrite (bind_stuck _ _ _ _ _ Rw). discriminate.
Qed.

(** C2 (as amended).  In every read phase with [receive_size >= 1] there
    are at most [receive_size] control words, exactly that many when the
    phase runs to its end, and the control word of byte [k] has STOP and no
    ACK when [k] is the last byte and the caller asked for a stop, and ACK
    and no STOP in every other case; in particular the last byte is
    acknowledged when no stop is asked for. *)
Theorem i2c_receive_phase_control_words (fuel : nat) (p addr tsize : Z)
    (rx : list Z) (rsize stop : Z) (started : bool) (h : list event) :
  1 <= rsize ->
  exists r tr,
    i2c_receive_phase' fuel p addr tsize rx rsize stop started h = (r, h ++ tr) /\
    (length (mcs_writes p tr) <= Z.to_nat rsize)%nat /\
    (forall buf, r = Ok (None, buf) -> length (mcs_writes p tr) = Z.to_nat rsize) /\
    forall k w, mcs_writes p tr !! k = Some w ->
      let last_with_stop := negb (stop =? 0) && (Z.of_nat k =? rsize - 1) in
      has_flag w LM4_I2C_MCS_RUN = true /\
      has_flag w LM4_I2C_MCS_ACK = negb last_with_stop /\
      has_flag w LM4_I2C_MCS_STOP = last_with_stop.
Proof.
  intros Hsize. unfold i2c_receive_phase.
  destruct (Z.eqb_spec rsize 0) as [E|_]; [lia|]. cbv zeta.
  rewrite (bind_run _ _ _ _ _ (reg_write_run _ _ _)).
  match goal with |- context [receive_loop' _ _ _ _ _ ?n _ ?st ?h1] =>
    destruct (receive_loop_run fuel p rsize stop n rx 0 st h1)
      as (r & tr & R & Len & Full & _ & Bits) end.
  exists r, (Write (LM4_I2C MSA p) (Z.lor (Z.land addr 255) 1) :: tr).
  split; [rewrite R, <- app_assoc; reflexivity|].
  simpl. split; [exact Len|]. split; [exact Full|].
  intros k w H. destruct (Bits k w H) as (B0 & _ & B2 & B3).
  unfold LM4_I2C_MCS_RUN, LM4_I2C_MCS_ACK, LM4_I2C_MCS_STOP.
  rewrite !has_flag_testbit by lia. simpl in B2, B3. auto.
Qed.

Lemma i2c_unwedge_logs (p : Z) : logs_only raw_event (i2c_unwedge env tbl gl p).
Proof.
  destruct (find_port tbl p) as [e|] eqn:Hfind.
  - apply returns_logs. exact (i2c_unwedge_returns env tbl gl p e Hfind).
  - intros h. exists (Stuck AssertFailed), []. rewrite app_nil_r.
    split; [|reflexivity].
    unfold i2c_unwedge, i2c_raw_mode, get_sda_from_i2c_port.
    rewrite Hfind. reflexivity.
Qed.

Lemma i2c_unwedge_quiet (p : Z) :
  logs_only (fun x => negb (issue_event x)) (i2c_unwedge env tbl gl p).
Proof. apply (logs_weaken raw_event); [exact raw_is_not_issue | apply i2c_unwedge_logs]. Qed.

#[local] Hint Resolve i2c_unwedge_quiet : hw.

Lemma recover_quiet (p addr m : Z) :
  logs_only (fun x => negb (issue_event x))
    (i2c_transmit_receive_recover env tbl gl scl_read_first p addr m).
Proof.
  unfold i2c_transmit_receive_recover, i2c_get_line_levels, reg_read, reg_write,
    cprintf, clock_wait_cycles, usleep.
  shape_logs.
Qed.

Lemma stale_quiet (p m : Z) (started : bool) :
  logs_only (fun x => negb (issue_event x))
    (i2c_transmit_receive_stale env p m started).
Proof. unfold i2c_transmit_receive_stale, i2c_get_line_levels, reg_read. shape_logs. Qed.

#[local] Hint Resolve recover_quiet stale_quiet : hw.

Lemma preflight_quiet (p addr : Z) (started : bool) :
  logs_only (fun x => negb (issue_event x))
    (i2c_transmit_receive_preflight env tbl gl scl_read_first p addr started).
Proof. unfold i2c_transmit_receive_preflight, reg_read. shape_logs. Qed.

Lemma phases_logs (fuel : nat) (p addr : Z) (tx : option (list Z)) (tsize : Z)
    (rx : list Z) (rsize stop : Z) (started : bool) :
  logs_only transfer_event
    (i2c_transmit_receive_phases env TASK_EVENT_TIMER TASK_EVENT_I2C_IDLE
       TASK_ID_INVALID fuel p addr tx tsize rx rsize stop started).
Proof.
  unfold i2c_transmit_receive_phases.
  apply logs_bind; [apply transmit_phase_logs|]. intros [[rv|] st]; [shape_logs|].
  apply logs_bind; [apply receive_phase_logs|]. intros [[rv|] buf]; [shape_logs|].
  unfold reg_read. shape_logs.
Qed.

(** The recovery block, event by event, on a configured port. *)
Lemma recover_run (p addr m : Z) (e : i2c_port_t) (h : list event) :
  find_port tbl p = Some e ->
  exists pre rv u tpr r1 r2,
    i2c_transmit_receive_recover env tbl gl scl_read_first p addr m h =
      (Ok tt, h ++ pre ++ u ++ soft_reset_events p tpr r1 r2) /\
    In (Read (LM4_I2C MTPR p) tpr) pre /\
    forallb (fun x => negb (issue_event x)) (pre ++ u) = true /\
    i2c_unwedge env tbl gl p (h ++ pre) = (Ok rv, (h ++ pre) ++ u).
Proof.
  intros Hfind. unfold i2c_transmit_receive_recover.
  rewrite (bind_run _ _ _ _ _ (reg_read_run env _ _)).
  set (tpr := env h (QRead (LM4_I2C MTPR p))).
  rewrite (bind_run _ _ _ _ _ (i2c_get_line_levels_run env _ _)).
  rewrite (bind_run _ _ _ _ _ (i2c_get_line_levels_run env _ _)).
  rewrite (bind_run _ _ _ _ _ (cprintf_run _ _)).
  set (v1 := env (h ++ [Read (LM4_I2C MTPR p) tpr]) (QRead (LM4_I2C MBMON p))).
  set (v2 := env ((h ++ [Read (LM4_I2C MTPR p) tpr]) ++ [Read (LM4_I2C MBMON p) v1])
               (QRead (LM4_I2C MBMON p))).
  match goal with |- context [Cprintf ?c] => set (msg := c) end.
  set (pre := [Read (LM4_I2C MTPR p) tpr; Read (LM4_I2C MBMON p) v1;
               Read (LM4_I2C MBMON p) v2; Cprintf msg]).
  replace ((((h ++ [Read (LM4_I2C MTPR p) tpr]) ++ [Read (LM4_I2C MBMON p) v1]) ++
            [Read (LM4_I2C MBMON p) v2]) ++ [Cprintf msg])
    with (h ++ pre) by (unfold pre; rewrite <- !app_assoc; reflexivity).
  destruct (i2c_unwedge_returns env tbl gl p e Hfind (h ++ pre)) as (rv & u & Ru & Lu).
  rewrite (bind_run _ _ _ _ _ Ru).
  rewrite (bind_run _ _ _ _ _ (reg_read_run env _ _)).
  rewrite (bind_run _ _ _ _ _ (reg_write_run _ _ _)).
  unfold clock_wait_cycles. rewrite (bind_run _ _ _ _ _ (emit_run _ _)).
  rewrite (bind_run _ _ _ _ _ (reg_read_run env _ _)).
  rewrite (bind_run _ _ _ _ _ (reg_write_run _ _ _)).
  rewrite (bind_run _ _ _ _ _ (emit_run _ _)).
  rewrite (bind_run _ _ _ _ _ (reg_write_run _ _ _)).
  rewrite (bind_run _ _ _ _ _ (reg_write_run _ _ _)).
  unfold usleep. rewrite emit_run.
  eexists pre, rv, u, tpr, _, _. split.
  { unfold soft_reset_events. rewrite <- !app_assoc. simpl. reflexivity. }
  split; [left; reflexivity|]. split; [|exact Ru].
  rewrite forallb_app. apply andb_true_iff. split; [reflexivity|].
  rewrite forallb_forall in Lu |- *. intros x Hx. apply raw_is_not_issue. auto.
Qed.

(** C9.  With both sizes zero the call returns success at once: the log is
    left as it was (no register is read or written, no recovery, no
    address, no data), and so is the receive buffer. *)
Theorem i2c_transmit_receive_empty (fuel : nat) (p addr : Z) (tx : option (list Z))
    (rx : list Z) (start stop : Z) (h : list event) :
  i2c_transmit_receive' fuel p addr tx 0 rx 0 start stop h = (Ok (EC_SUCCESS, rx), h).
Proof. reflexivity. Qed.

(** C1 (as amended).  On a configured port and for a transfer that is not
    empty, let [m] be the status read from MCS and [l] the line levels at
    that moment.  The recovery runs exactly when a start is requested and
    the status shows a stale clock timeout or lost arbitration OR the lines
    are not both idle-high (either one suffices).  When it runs, the log is:
    a prefix that reads the divisor, then the log of [i2c_unwedge], then the
    soft reset of the port with the divisor restored and the settle delay,
    all of it before any byte is issued, and nothing of the kind after.
    When it does not run, nothing of the kind is in the log at all. *)
Theorem i2c_transmit_receive_recovery (fuel : nat) (p addr : Z) (tx : option (list Z))
    (tsize : Z) (rx : list Z) (rsize start stop : Z) (e : i2c_port_t)
    (h : list event) :
  find_port tbl p = Some e ->
  (tsize =? 0) && (rsize =? 0) = false ->
  let m := env h (QRead (LM4_I2C MCS p)) in
  let l := Z.land (env (h ++ [Read (LM4_I2C MCS p) m]) (QRead (LM4_I2C MBMON p))) 3 in
  exists r tr,
    i2c_transmit_receive' fuel p addr tx tsize rx rsize start stop h = (r, h ++ tr) /\
    if stale_port start m l then
      exists pre rv u tpr r1 r2 rest,
        tr = pre ++ u ++ soft_reset_events p tpr r1 r2 ++ rest /\
        In (Read (LM4_I2C MTPR p) tpr) pre /\
        i2c_unwedge env tbl gl p (h ++ pre) = (Ok rv, (h ++ pre) ++ u) /\
        forallb (fun x => negb (issue_event x)) (pre ++ u) = true /\
        forallb (fun x => negb (recovery_event x)) rest = true
    else forallb (fun x => negb (recovery_event x)) tr = true.
Proof.
  intros Hfind Hsizes m l.
  unfold i2c_transmit_receive, i2c_transmit_receive_preflight. rewrite Hsizes.
  rewrite bind_assoc.
  rewrite (bind_run _ _ _ _ _ (reg_read_run env _ _)). fold m.
  rewrite bind_assoc.
  set (h1 := h ++ [Read (LM4_I2C MCS p) m]).
  assert (Hph : forall h2, exists r t,
            i2c_transmit_receive_phases env TASK_EVENT_TIMER TASK_EVENT_I2C_IDLE
              TASK_ID_INVALID fuel p addr tx tsize rx rsize stop (start =? 0) h2
              = (r, h2 ++ t) /\
            forallb (fun x => negb (recovery_event x)) t = true).
  { intros h2. destruct (phases_logs fuel p addr tx tsize rx rsize stop (start =? 0) h2)
      as (r & t & R & L).
    exists r, t. split; [exact R|]. rewrite forallb_forall in L |- *.
    intros x Hx. apply transfer_is_not_recovery. auto. }
  assert (Hrun : forall pre0,
            forallb (fun x => negb (issue_event x)) pre0 = true ->
            exists r tr,
              ((i2c_transmit_receive_recover env tbl gl scl_read_first p addr m;;
                i2c_transmit_receive_phases env TASK_EVENT_TIMER TASK_EVENT_I2C_IDLE
                  TASK_ID_INVALID fuel p addr tx tsize rx rsize stop (start =? 0))
                 (h ++ pre0)) = (r, h ++ tr) /\
              exists pre rv u tpr r1 r2 rest,
                tr = pre ++ u ++ soft_reset_events p tpr r1 r2 ++ rest /\
                In (Read (LM4_I2C MTPR p) tpr) pre /\
                i2c_unwedge env tbl gl p (h ++ pre) = (Ok rv, (h ++ pre) ++ u) /\
                forallb (fun x => negb (issue_event x)) (pre ++ u) = true /\
                forallb (fun x => negb (recovery_event x)) rest = true).
  { intros pre0 Hq.
    destruct (recover_run p addr m e (h ++ pre0) Hfind)
      as (pre & rv & u & tpr & r1 & r2 & R & Hin & Q & U).
    rewrite (bind_run _ _ _ _ _ R).
    match goal with |- context [i2c_transmit_receive_phases _ _ _ _ _ _ _ _ _ _ _ _ _ ?h2] =>
      destruct (Hph h2) as (r & t & Rp & Lp) end.
    exists r, (pre0 ++ pre ++ u ++ soft_reset_events p tpr r1 r2 ++ t).
    split; [rewrite Rp, <- !app_assoc; reflexivity|].
    exists (pre0 ++ pre), rv, u, tpr, r1, r2, t.
    split; [rewrite <- !app_assoc; reflexivity|].
    split; [apply in_or_app; right; exact Hin|].
    split; [rewrite (app_assoc h pre0 pre), U, <- !app_assoc; reflexivity|].
    split; [|exact Lp].
    rewrite <- app_assoc, forallb_app, Hq, Q. reflexivity. }
  unfold i2c_transmit_receive_stale, stale_port.
  destruct (start =? 0) eqn:Es.
  - (* no start requested *)
    unfold ret at 1. rewrite (bind_run _ _ _ _ _ eq_refl).
    unfold ret at 1. rewrite (bind_run _ _ _ _ _ eq_refl).
    destruct (Hph h1) as (r & t & Rp & Lp).
    exists r, (Read (LM4_I2C MCS p) m :: t).
    split; [rewrite Rp; unfold h1; rewrite <- app_assoc; reflexivity|].
    simpl. exact Lp.
  - destruct (Z.land m (Z.lor LM4_I2C_MCS_CLKTO LM4_I2C_MCS_ARBLST) =? 0) eqn:Ef.
    + (* clean status: the lines decide *)
      cbn [negb].
      set (v := env h1 (QRead (LM4_I2C MBMON p))).
      assert (Hl : (let* l0 := i2c_get_line_levels env p in
                    ret (negb (l0 =? I2C_LINE_IDLE))) h1 =
                   (Ok (negb (l =? I2C_LINE_IDLE)), h1 ++ [Read (LM4_I2C MBMON p) v]))
        by reflexivity.
      rewrite (bind_run _ _ _ _ _ Hl).
      simpl andb. simpl orb.
      destruct (l =? I2C_LINE_IDLE) eqn:El; cbn [negb].
      * unfold ret at 1. rewrite (bind_run _ _ _ _ _ eq_refl).
        destruct (Hph (h1 ++ [Read (LM4_I2C MBMON p) v])) as (r & t & Rp & Lp).
        exists r, (Read (LM4_I2C MCS p) m :: Read (LM4_I2C MBMON p) v :: t).
        split; [rewrite Rp; unfold h1; rewrite <- !app_assoc; reflexivity|].
        simpl. exact Lp.
      * destruct (Hrun [Read (LM4_I2C MCS p) m; Read (LM4_I2C MBMON p) v] eq_refl)
          as (r & tr & R & Hshape).
        exists r, tr. split; [|exact Hshape].
        rewrite <- R. unfold h1. rewrite <- !app_assoc. reflexivity.
    + (* stale status bits *)
      cbn [negb]. unfold ret at 1. rewrite (bind_run _ _ _ _ _ eq_refl).
      simpl andb. simpl orb.
      destruct (Hrun [Read (LM4_I2C MCS p) m] eq_refl) as (r & tr & R & Hshape).
      exists r, tr. split; [|exact Hshape].
      rewrite <- R. reflexivity.
Qed.

(** With a write phase and a read phase, either the call ends within the
    write phase or at the first byte of the read phase, and then not with
    success, or the read phase opens with the read address and a control
    word that carries START. *)
Lemma phases_restart (fuel : nat) (p addr : Z) (d : list Z) (tsize : Z)
    (rx : list Z) (rsize stop : Z) (started : bool) (h : list event) :
  1 <= tsize -> 1 <= rsize ->
  exists r tr,
    i2c_transmit_receive_phases env TASK_EVENT_TIMER TASK_EVENT_I2C_IDLE
      TASK_ID_INVALID fuel p addr (Some d) tsize rx rsize stop started h
      = (r, h ++ tr) /\
    (((length (mcs_writes p tr) <= Z.to_nat tsize)%nat /\
      forall rv buf, r = Ok (rv, buf) -> ec_is_success rv = false) \/
     exists pre b w rest,
       tr = pre ++ [Write (LM4_I2C MSA p) (Z.lor (Z.land addr 255) 1);
                    Write (LM4_I2C MDR p) b; Write (LM4_I2C MCS p) w] ++ rest /\
       length (mcs_writes p pre) = Z.to_nat tsize /\
       Z.testbit w 1 = true).
Proof.
  intros Ht Hr. unfold i2c_transmit_receive_phases, i2c_transmit_phase.
  set (a0 := Write (LM4_I2C MSA p) (Z.land addr 255)).
  assert (Ea : forall h0 : list event,
            (reg_write (LM4_I2C MSA p) (Z.land addr 255);;
             transmit_loop' fuel p d tsize rsize stop (Z.to_nat tsize) 0 started) h0 =
            transmit_loop' fuel p d tsize rsize stop (Z.to_nat tsize) 0 started
              (h0 ++ [a0])) by reflexivity.
  destruct (transmit_loop_run fuel p d tsize rsize stop (Z.to_nat tsize) 0 started
              (h ++ [a0])) as (r1 & t1 & R1 & Len1 & Full1).
  pose proof (fun rv st =>
                transmit_loop_early fuel p d tsize rsize stop (Z.to_nat tsize) 0 started
                  (h ++ [a0]) rv st ((h ++ [a0]) ++ t1)) as Early1.
  rewrite R1 in Early1.
  rewrite <- Ea in R1. clear Ea.
  destruct r1 as [[[rv|] st]|w].
  - rewrite (bind_run _ _ _ _ _ R1). exists (Ok (rv, rx)), (a0 :: t1).
    split; [unfold ret; rewrite <- app_assoc; reflexivity|]. left.
    split; [exact Len1|]. intros rv' buf E. inversion E; subst rv' buf.
    exact (Early1 rv st eq_refl).
  - rewrite (bind_run _ _ _ _ _ R1).
    specialize (Full1 st eq_refl).
    unfold i2c_receive_phase.
    destruct (Z.eqb_spec rsize 0) as [E|_]; [lia|].
    destruct (Z.eqb_spec tsize 0) as [E|_]; [lia|].
    cbv beta zeta iota.
    set (a1 := Write (LM4_I2C MSA p) (Z.lor (Z.land addr 255) 1)).
    assert (Eb : forall h0 : list event,
              (reg_write (LM4_I2C MSA p) (Z.lor (Z.land addr 255) 1);;
               receive_loop' fuel p rx rsize stop (Z.to_nat rsize) 0 false) h0 =
              receive_loop' fuel p rx rsize stop (Z.to_nat rsize) 0 false
                (h0 ++ [a1])) by reflexivity.
    destruct (receive_loop_run fuel p rsize stop (Z.to_nat rsize) rx 0 false
                (((h ++ [a0]) ++ t1) ++ [a1]))
      as (r2 & t2 & R2 & Len2 & Full2 & Head2 & Bits2).
    pose proof (fun rv buf =>
                  receive_loop_early fuel p rsize stop (Z.to_nat rsize) rx 0 false
                    (((h ++ [a0]) ++ t1) ++ [a1]) rv buf
                    ((((h ++ [a0]) ++ t1) ++ [a1]) ++ t2)) as Early2.
    rewrite R2 in Early2.
    rewrite <- Eb in R2. clear Eb.
    assert (Hend : exists r t3,
              (let* rx0 := (fun h0 => (r2, h0)) in
               match rx0 with
               | (Some rv, buf) => ret (rv, buf)
               | (None, buf) =>
                   let* v := reg_read env (LM4_I2C MCS p) in
                   if Z.land v (Z.lor (Z.lor LM4_I2C_MCS_CLKTO LM4_I2C_MCS_ARBLST)
                                      LM4_I2C_MCS_ERROR) =? 0
                   then ret (EC_SUCCESS, buf) else ret (EC_ERROR_UNKNOWN, buf)
               end) ((((h ++ [a0]) ++ t1) ++ [a1]) ++ t2) =
              (r, ((((h ++ [a0]) ++ t1) ++ [a1]) ++ t2) ++ t3) /\
              mcs_writes p t3 = [] /\
              forall rv buf, r = Ok (rv, buf) -> ec_is_success rv = true ->
                exists buf', r2 = Ok (None, buf')).
    { unfold bind. destruct r2 as [[[rv|] buf]|w].
      - exists (Ok (rv, buf)), []. rewrite app_nil_r.
        split; [reflexivity|]. split; [reflexivity|].
        intros rv' buf' E S. inversion E; subst rv' buf'.
        rewrite (Early2 rv buf eq_refl) in S. discriminate.
      - rewrite (reg_read_run env).
        match goal with |- context [Read (LM4_I2C MCS p) ?x] => set (v := x) end.
        destruct (Z.land v _ =? 0); eexists _, [_];
          (split; [reflexivity|]; split; [reflexivity|]; intros; eauto).
      - exists (Stuck w), []. rewrite app_nil_r.
        split; [reflexivity|]. split; [reflexivity|]. discriminate. }
    destruct Hend as (r & t3 & R3 & M3 & S3).
    exists r, (a0 :: t1 ++ a1 :: t2 ++ t3). split.
    { rewrite (bind_any _ _ _ _ _ R2), R3.
      rewrite <- !app_assoc. reflexivity. }
    destruct (mcs_writes p t2) as [|w ws] eqn:Ew.
    + left. split.
      * simpl. rewrite mcs_writes_app. simpl.
        rewrite mcs_writes_app, Ew, M3, length_app. simpl. lia.
      * intros rv buf E. destruct (ec_is_success rv) eqn:S; [|reflexivity].
        destruct (S3 rv buf E S) as (buf' & E2).
        specialize (Full2 buf' E2). simpl in Full2. lia.
    + right. destruct Head2 as (b & w' & rest & ->); [discriminate|].
      simpl in Ew. rewrite Z.eqb_refl in Ew. inversion Ew; subst w'.
      exists (a0 :: t1), b, w, (rest ++ t3).
      split; [reflexivity|].
      split; [simpl; exact Full1|].
      destruct (Bits2 0%nat w eq_refl) as (_ & B1 & _).
      exact B1.
  - rewrite (bind_stuck _ _ _ _ _ R1). exists (Stuck w), (a0 :: t1).
    split; [rewrite <- app_assoc; reflexivity|]. left.
    split; [exact Len1 | discriminate].
Qed.

(** C8.  In a call with a write phase and a read phase, the read phase is
    not skipped: a call that returns success has written a control word
    beyond the [transmit_size] words of the write phase.  The first such
    word, whenever there is one, carries START whatever the caller's [start]
    flag is, and it comes right after the slave address was written again
    with the read bit set (and the data register was loaded). *)
Theorem i2c_transmit_receive_restart (fuel : nat) (p addr : Z) (d : list Z)
    (tsize : Z) (rx : list Z) (rsize start stop : Z) (h : list event) :
  1 <= tsize -> 1 <= rsize ->
  exists r tr,
    i2c_transmit_receive' fuel p addr (Some d) tsize rx rsize start stop h
      = (r, h ++ tr) /\
    (forall buf, r = Ok (EC_SUCCESS, buf) ->
       exists w, mcs_writes p tr !! Z.to_nat tsize = Some w) /\
    forall w, mcs_writes p tr !! Z.to_nat tsize = Some w ->
      has_flag w LM4_I2C_MCS_START = true /\
      exists pre b rest,
        tr = pre ++ [Write (LM4_I2C MSA p) (Z.lor (Z.land addr 255) 1);
                     Write (LM4_I2C MDR p) b; Write (LM4_I2C MCS p) w] ++ rest /\
        length (mcs_writes p pre) = Z.to_nat tsize.
Proof.
  intros Ht Hr. unfold i2c_transmit_receive.
  destruct (Z.eqb_spec tsize 0) as [E|_]; [lia|]. cbn [andb].
  (* the pre-flight part issues nothing *)
  destruct (preflight_quiet p addr (start =? 0) h) as (r0 & t0 & R0 & L0).
  pose proof (mcs_writes_quiet p t0 L0) as M0.
  destruct r0 as [[]|w0].
  - rewrite (bind_run _ _ _ _ _ R0).
    destruct (phases_restart fuel p addr d tsize rx rsize stop (start =? 0)
                (h ++ t0) Ht Hr) as (r & t1 & R1 & Hcase).
    exists r, (t0 ++ t1). split; [rewrite R1, <- app_assoc; reflexivity|].
    rewrite mcs_writes_app, M0. cbn [app].
    destruct Hcase as [[Hlen Hfail] | (pre & b & w' & rest & -> & Hlen & HS)].
    + split.
      * intros buf E. specialize (Hfail _ _ E). discriminate.
      * intros w Hw. apply lookup_ge_None_2 in Hlen. congruence.
    + assert (Hw' : mcs_writes p
                      (pre ++ [Write (LM4_I2C MSA p) (Z.lor (Z.land addr 255) 1);
                               Write (LM4_I2C MDR p) b; Write (LM4_I2C MCS p) w'] ++ rest)
                      !! Z.to_nat tsize = Some w').
      { rewrite mcs_writes_app. rewrite lookup_app_r by lia.
        rewrite Hlen, Nat.sub_diag. simpl. rewrite Z.eqb_refl. reflexivity. }
      split; [intros buf _; exists w'; exact Hw'|].
      intros w Hw. rewrite Hw' in Hw. inversion Hw; subst w'.
      split.
      * unfold LM4_I2C_MCS_START. rewrite has_flag_testbit by lia. exact HS.
      * exists (t0 ++ pre), b, rest. split; [rewrite <- app_assoc; reflexivity|].
        rewrite mcs_writes_app, M0. exact Hlen.
  - rewrite (bind_stuck _ _ _ _ _ R0). exists (Stuck w0), t0.
    split; [reflexivity|]. rewrite M0.
    split; [discriminate|]. intros w Hw. discriminate.
Qed.

End Engine.

Ltac find_in := repeat (try (left; reflexivity); right).

Lemma i2c_transmit_receive_recovery_witness :
  let m := env_clock_timeout [] (QRead (LM4_I2C MCS 0)) in
  let l := Z.land (env_clock_timeout ([] ++ [Read (LM4_I2C MCS 0) m])
                     (QRead (LM4_I2C MBMON 0))) 3 in
  exists r tr,
    i2c_transmit_receive env_clock_timeout demo_ports demo_gpio_list true
      DEMO_EVENT_TIMER DEMO_EVENT_I2C_IDLE DEMO_TASK_ID_INVALID
      1 0 22 (Some [0]) 1 [] 0 START STOP [] = (r, [] ++ tr) /\
    if stale_port START m l then
      exists pre rv u tpr r1 r2 rest,
        tr = pre ++ u ++ soft_reset_events 0 tpr r1 r2 ++ rest /\
        In (Read (LM4_I2C MTPR 0) tpr) pre /\
        i2c_unwedge env_clock_timeout demo_ports demo_gpio_list 0 ([] ++ pre) =
          (Ok rv, ([] ++ pre) ++ u) /\
        forallb (fun x => negb (issue_event x)) (pre ++ u) = true /\
        forallb (fun x => negb (recovery_event x)) rest = true
    else forallb (fun x => negb (recovery_event x)) tr = true.
Proof.
  apply (i2c_transmit_receive_recovery env_clock_timeout demo_ports demo_gpio_list true
           DEMO_EVENT_TIMER DEMO_EVENT_I2C_IDLE DEMO_TASK_ID_INVALID
           1 0 22 (Some [0]) 1 [] 0 START STOP (demo_port 0) []).
  - reflexivity.
  - reflexivity.
Defined.

(** C1, the claim as stated fails: one half of the conjunction is enough.
    With both lines idle-high and a stale clock timeout in the status, and
    with a clean status and the data line low, the port is unwedged, reset
    and given its settle delay all the same. *)
Lemma i2c_transmit_receive_recovers_on_either :
  let stale_status :=
    snd (i2c_transmit_receive env_clock_timeout demo_ports demo_gpio_list true
           DEMO_EVENT_TIMER DEMO_EVENT_I2C_IDLE DEMO_TASK_ID_INVALID
           1 0 22 (Some [0]) 1 [] 0 START STOP []) in
  let low_line :=
    snd (i2c_transmit_receive env_data_low_clean_status demo_ports demo_gpio_list true
           DEMO_EVENT_TIMER DEMO_EVENT_I2C_IDLE DEMO_TASK_ID_INVALID
           1 0 22 (Some [0]) 1 [] 0 START STOP []) in
  (In (Read (LM4_I2C MCS 0) 128) stale_status /\
   In (Read (LM4_I2C MBMON 0) 3) stale_status /\
   In (MutexLock raw_mode_mutex) stale_status /\
   In (Write LM4_SYSTEM_SRI2C 1) stale_status /\
   In (Usleep 1000) stale_status) /\
  (In (Read (LM4_I2C MCS 0) 0) low_line /\
   In (Read (LM4_I2C MBMON 0) 1) low_line /\
   In (MutexLock raw_mode_mutex) low_line /\
   In (Write LM4_SYSTEM_SRI2C 1) low_line /\
   In (Usleep 1000) low_line).
Proof. vm_compute. repeat split; find_in. Qed.

Lemma i2c_receive_phase_control_words_witness :
  exists r tr,
    i2c_receive_phase env_idle DEMO_EVENT_TIMER DEMO_EVENT_I2C_IDLE
      DEMO_TASK_ID_INVALID 1 0 22 0 [0; 0] 2 NO_STOP false [] = (r, [] ++ tr) /\
    (length (mcs_writes 0 tr) <= Z.to_nat 2)%nat /\
    (forall buf, r = Ok (None, buf) -> length (mcs_writes 0 tr) = Z.to_nat 2) /\
    forall k w, mcs_writes 0 tr !! k = Some w ->
      let last_with_stop := negb (NO_STOP =? 0) && (Z.of_nat k =? 2 - 1) in
      has_flag w LM4_I2C_MCS_RUN = true /\
      has_flag w LM4_I2C_MCS_ACK = negb last_with_stop /\
      has_flag w LM4_I2C_MCS_STOP = last_with_stop.
Proof.
  apply (i2c_receive_phase_control_words env_idle DEMO_EVENT_TIMER DEMO_EVENT_I2C_IDLE
           DEMO_TASK_ID_INVALID 1 0 22 0 [0; 0] 2 NO_STOP false []).
  lia.
Defined.

(** C2, the claim as stated fails: in a read of one byte without stop the
    last (and only) byte is written with RUN, START and ACK; ACK is not
    withheld. *)
Lemma i2c_read_without_stop_acks_last_byte :
  mcs_writes 0
    (snd (i2c_transmit_receive env_idle demo_ports demo_gpio_list true
            DEMO_EVENT_TIMER DEMO_EVENT_I2C_IDLE DEMO_TASK_ID_INVALID
            1 0 22 None 0 [0] 1 START NO_STOP [])) = [11] /\
  has_flag 11 LM4_I2C_MCS_ACK = true /\
  has_flag 11 LM4_I2C_MCS_STOP = false.
Proof. vm_compute. repeat split; reflexivity. Qed.

Lemma i2c_transmit_receive_restart_witness :
  let run :=
    i2c_transmit_receive env_idle demo_ports demo_gpio_list true
      DEMO_EVENT_TIMER DEMO_EVENT_I2C_IDLE DEMO_TASK_ID_INVALID
      1 0 22 (Some [0]) 1 [0] 1 NO_START STOP [] in
  (fst run = Ok (EC_SUCCESS, [0]) /\ mcs_writes 0 (snd run) = [1; 7]) /\
  exists r tr,
    run = (r, [] ++ tr) /\
    (forall buf, r = Ok (EC_SUCCESS, buf) ->
       exists w, mcs_writes 0 tr !! Z.to_nat 1 = Some w) /\
    forall w, mcs_writes 0 tr !! Z.to_nat 1 = Some w ->
      has_flag w LM4_I2C_MCS_START = true /\
      exists pre b rest,
        tr = pre ++ [Write (LM4_I2C MSA 0) (Z.lor (Z.land 22 255) 1);
                     Write (LM4_I2C MDR 0) b; Write (LM4_I2C MCS 0) w] ++ rest /\
        length (mcs_writes 0 pre) = Z.to_nat 1.
Proof.
  intros run. split; [vm_compute; split; reflexivity|].
  apply (i2c_transmit_receive_restart env_idle demo_ports demo_gpio_list true
           DEMO_EVENT_TIMER DEMO_EVENT_I2C_IDLE DEMO_TASK_ID_INVALID
           1 0 22 [0] 1 [0] 1 NO_START STOP []).
  - lia.
  - lia.
Defined.

(** ** Register reads *)

(** C10.  When [i2c_read8] or [i2c_read16] returns a code other than
    success, the value at the caller's [*data] is the one it was before the
    call: the received bytes are put together only after the transfer has
    been checked. *)
Theorem i2c_read_failure_keeps_data (env : environment) (tbl : list i2c_port_t)
    (gl : Z -> gpio_info) (scl_read_first : bool)
    (TASK_EVENT_TIMER TASK_EVENT_I2C_IDLE TASK_ID_INVALID I2C_FLAG_BIG_ENDIAN : Z)
    (fuel : nat) (p addr offset data val0 b0 b1 : Z) (h : list event)
    (rv : ec_error) (d' : Z) :
  ec_is_success rv = false ->
  fst (i2c_read8 env tbl gl scl_read_first
      TASK_EVENT_TIMER TASK_EVENT_I2C_IDLE TASK_ID_INVALID
         fuel p addr offset data val0 h) = Ok (rv, d') \/
  fst (i2c_read16 env tbl gl scl_read_first
      TASK_EVENT_TIMER TASK_EVENT_I2C_IDLE TASK_ID_INVALID
         I2C_FLAG_BIG_ENDIAN fuel p addr offset data b0 b1 h) = Ok (rv, d') ->
  d' = data.
Proof.
  intros Hrv [H|H].
  - unfold i2c_read8, mutex_lock, mutex_unlock in H.
    rewrite (bind_run _ _ _ _ _ (emit_run _ _)) in H. unfold bind at 1 in H.
    destruct (i2c_transmit_receive _ _ _ _ _ _ _ _ _ _ _ _ _ _ _ _ _)
      as [[[rv0 buf]|w] h2]; [|discriminate H].
    rewrite (bind_run _ _ _ _ _ (emit_run _ _)) in H.
    destruct (ec_is_success rv0) eqn:E0.
    + unfold bind, load in H. simpl in H.
      destruct (buf !! Z.to_nat 0); simpl in H; [|discriminate H].
      inversion H; subst. congruence.
    + simpl in H. inversion H. reflexivity.
  - unfold i2c_read16, mutex_lock, mutex_unlock in H.
    rewrite (bind_run _ _ _ _ _ (emit_run _ _)) in H. unfold bind at 1 in H.
    destruct (i2c_transmit_receive _ _ _ _ _ _ _ _ _ _ _ _ _ _ _ _ _)
      as [[[rv0 buf]|w] h2]; [|discriminate H].
    rewrite (bind_run _ _ _ _ _ (emit_run _ _)) in H.
    destruct (ec_is_success rv0) eqn:E0.
    + unfold bind, load in H. simpl in H.
      destruct (buf !! Z.to_nat 0); simpl in H; [|discriminate H].
      destruct (buf !! Z.to_nat 1); simpl in H; [|discriminate H].
      destruct (negb _); simpl in H; inversion H; subst; discriminate.
    + simpl in H. inversion H. reflexivity.
Qed.

Lemma i2c_read_failure_keeps_data_witness :
  ec_is_success EC_ERROR_TIMEOUT = false /\
  fst (i2c_read8 env_never_idle demo_ports demo_gpio_list true
         DEMO_EVENT_TIMER DEMO_EVENT_I2C_IDLE DEMO_TASK_ID_INVALID
         1 0 22 0 42 0 []) = Ok (EC_ERROR_TIMEOUT, 42) /\
  42 = 42.
Proof.
  split; [reflexivity|]. split; [vm_compute; reflexivity|].
  apply (i2c_read_failure_keeps_data env_never_idle demo_ports demo_gpio_list true
           DEMO_EVENT_TIMER DEMO_EVENT_I2C_IDLE DEMO_TASK_ID_INVALID
           DEMO_FLAG_BIG_ENDIAN 1 0 22 0 42 0 0 0 [] EC_ERROR_TIMEOUT 42).
  - reflexivity.
  - left. vm_compute. reflexivity.
Defined.

(** ** Block read *)

Lemma mdr_reads_app (p : Z) (t1 t2 : list event) :
  mdr_reads p (t1 ++ t2) = mdr_reads p t1 ++ mdr_reads p t2.
Proof.
  induction t1 as [|x t1 IH]; [reflexivity|].
  destruct x as [[[] q|] w | | | | | | | | | | | | | | | |]; simpl; rewrite ?IH;
    try reflexivity.
  destruct (q =? p); simpl; rewrite ?IH; reflexivity.
Qed.

Lemma mdr_reads_none (p : Z) (tr : list event) :
  forallb (fun x => negb (is_mdr_read x)) tr = true -> mdr_reads p tr = [].
Proof.
  induction tr as [|x tr IH]; [reflexivity|]. simpl.
  intros H. apply andb_true_iff in H. destruct H as [Hx Ht].
  destruct x as [[[] q|] w | | | | | | | | | | | | | | | |]; simpl in *;
    try discriminate; auto.
Qed.

Lemma wait_is_not_mdr_read (e : event) :
  wait_event e = true -> negb (is_mdr_read e) = true.
Proof. destruct e as [[[] ?|] ?|[[] ?|] ?| | | | | | | | | | | | | | |]; simpl; congruence. Qed.

Lemma raw_is_not_mdr_read (e : event) :
  raw_event e = true -> negb (is_mdr_read e) = true.
Proof.
  destruct e as [[[] ?|] ?|[[] ?|] ?| | | | |[]|[]| | | | | | | | |]; simpl; congruence.
Qed.

Section BlockRead.

Variable env : environment.
Variable tbl : list i2c_port_t.
Variable gl : Z -> gpio_info.
Variable scl_read_first : bool.
Variable TASK_EVENT_TIMER : Z.
Variable TASK_EVENT_I2C_IDLE : Z.
Variable TASK_ID_INVALID : Z.

Local Abbreviation wait_idle' := (wait_idle env TASK_EVENT_TIMER TASK_EVENT_I2C_IDLE TASK_ID_INVALID).
Local Abbreviation receive_loop' :=
  (receive_loop env TASK_EVENT_TIMER TASK_EVENT_I2C_IDLE TASK_ID_INVALID).
Local Abbreviation transmit_loop' :=
  (transmit_loop env TASK_EVENT_TIMER TASK_EVENT_I2C_IDLE TASK_ID_INVALID).
Local Abbreviation i2c_transmit_receive' :=
  (i2c_transmit_receive env tbl gl scl_read_first
      TASK_EVENT_TIMER TASK_EVENT_I2C_IDLE TASK_ID_INVALID).
Local Abbreviation no_mdr_read := (fun x : event => negb (is_mdr_read x)).

Lemma wait_idle_reads_no_data (fuel : nat) (p : Z) :
  logs_only no_mdr_read (wait_idle' fuel p).
Proof.
  apply (logs_weaken wait_event); [exact wait_is_not_mdr_read | apply wait_idle_logs].
Qed.

Lemma i2c_unwedge_reads_no_data (p : Z) :
  logs_only no_mdr_read (i2c_unwedge env tbl gl p).
Proof.
  apply (logs_weaken raw_event); [exact raw_is_not_mdr_read | apply i2c_unwedge_logs].
Qed.

#[local] Hint Resolve wait_idle_reads_no_data i2c_unwedge_reads_no_data : hw.

(** Before the read phase nothing is read from the data register, and a
    write phase that gives up does so with a code other than success. *)
Lemma transmit_loop_reads_no_data (fuel : nat) (p : Z) (d : list Z)
    (tsize rsize stop : Z) (left : nat) :
  forall i started h,
  exists r tr,
    transmit_loop' fuel p d tsize rsize stop left i started h = (r, h ++ tr) /\
    mdr_reads p tr = [] /\
    forall rv st, r = Ok (Some rv, st) -> ec_is_success rv = false.
Proof.
  induction left as [|left IH]; intros i started h; cbn [transmit_loop].
  - exists (Ok (None, started)), []. unfold ret. rewrite app_nil_r.
    split; [reflexivity|]. split; [reflexivity | discriminate].
  - cbv zeta. unfold load.
    assert (Hstuck : forall (w : stuck),
      exists r tr, (Stuck w : res (option ec_error * bool), h) = (r, h ++ tr) /\
        mdr_reads p tr = [] /\
        forall rv st, r = Ok (Some rv, st) -> ec_is_success rv = false).
    { intros w. exists (Stuck w), []. rewrite app_nil_r.
      split; [reflexivity|]. split; [reflexivity | discriminate]. }
    destruct (i <? 0); [apply Hstuck|].
    destruct (d !! Z.to_nat i) as [b|]; [|apply Hstuck]. clear Hstuck.
    unfold bind at 1, ret.
    rewrite (bind_run _ _ _ _ _ (reg_write_run _ _ _)).
    rewrite (bind_run _ _ _ _ _ (reg_write_run _ _ _)).
    match goal with |- context [Write (LM4_I2C MCS p) ?x] => set (w1 := x) end.
    match goal with |- context [bind _ _ ?h1] =>
      destruct (wait_idle_reads_no_data fuel p h1) as (rw & tw & Rw & Lw) end.
    pose proof (mdr_reads_none p tw Lw) as Mw.
    destruct rw as [rv|w].
    + rewrite (bind_run _ _ _ _ _ Rw). destruct (ec_is_success rv) eqn:Erv.
      * match goal with |- context [transmit_loop' _ _ _ _ _ _ _ _ _ ?h2] =>
          destruct (IH (i + 1) true h2) as (r & t3 & R3 & M3 & F3) end.
        exists r, (Write (LM4_I2C MDR p) b :: Write (LM4_I2C MCS p) w1 :: tw ++ t3).
        split; [rewrite R3, <- !app_assoc; reflexivity|].
        simpl. rewrite mdr_reads_app, Mw, M3. split; [reflexivity | exact F3].
      * exists (Ok (Some rv, true)),
          (Write (LM4_I2C MDR p) b :: Write (LM4_I2C MCS p) w1 :: tw).
        split; [unfold ret; rewrite <- !app_assoc; reflexivity|].
        simpl. rewrite Mw. split; [reflexivity|].
        intros rv' st E. inversion E; subst. exact Erv.
    + rewrite (bind_stuck _ _ _ _ _ Rw).
      exists (Stuck w), (Write (LM4_I2C MDR p) b :: Write (LM4_I2C MCS p) w1 :: tw).
      split; [rewrite <- !app_assoc; reflexivity|].
      simpl. rewrite Mw. split; [reflexivity | discriminate].
Qed.

(** The receive loop and the buffer: the bytes read from the data register
    go, masked to 8 bits, to consecutive places from [i] on; the rest of the
    buffer is as it was. *)
Lemma receive_loop_buf (fuel : nat) (p rsize stop : Z) (left : nat) :
  forall rx i started h,
  0 <= i -> (Z.to_nat i + left <= length rx)%nat ->
  exists r tr,
    receive_loop' fuel p rx rsize stop left i started h = (r, h ++ tr) /\
    match r with
    | Ok (o, buf) =>
        let vs := mdr_reads p tr in
        (length vs <= left)%nat /\
        buf = take (Z.to_nat i) rx ++ map (fun v => Z.land v 255) vs ++
              drop (Z.to_nat i + length vs) rx /\
        match o with
        | None => length vs = left
        | Some rv => ec_is_success rv = false
        end
    | Stuck _ => True
    end.
Proof.
  induction left as [|left IH]; intros rx i started h Hi Hlen; cbn [receive_loop].
  - exists (Ok (None, rx)), []. unfold ret. rewrite app_nil_r.
    split; [reflexivity|]. simpl. split; [lia|]. split; [|reflexivity].
    rewrite Nat.add_0_r, take_drop. reflexivity.
  - cbv zeta. unfold load.
    destruct (Z.ltb_spec i 0) as [Hneg|_]; [lia|].
    destruct (rx !! Z.to_nat i) as [b|] eqn:Eb.
    2:{ apply lookup_ge_None in Eb. lia. }
    unfold bind at 1, ret.
    rewrite (bind_run _ _ _ _ _ (reg_write_run _ _ _)).
    rewrite (bind_run _ _ _ _ _ (reg_write_run _ _ _)).
    match goal with |- context [Write (LM4_I2C MCS p) ?x] => set (w1 := x) end.
    match goal with |- context [bind _ _ ?h1] =>
      destruct (wait_idle_reads_no_data fuel p h1) as (rw & tw & Rw & Lw) end.
    pose proof (mdr_reads_none p tw Lw) as Mw.
    destruct rw as [rv|w].
    + rewrite (bind_run _ _ _ _ _ Rw). destruct (ec_is_success rv) eqn:Erv.
      * rewrite (bind_run _ _ _ _ _ (reg_read_run env _ _)).
        match goal with |- context [Read (LM4_I2C MDR p) ?x] => set (v := x) end.
        unfold store.
        assert (Hin : (0 <=? i) && (i <? Z.of_nat (length rx)) = true).
        { apply andb_true_iff. split; [apply Z.leb_le | apply Z.ltb_lt]; lia. }
        rewrite Hin. unfold bind at 1, ret.
        set (rx' := <[Z.to_nat i := Z.land v 255]> rx).
        match goal with |- context [receive_loop' _ _ _ _ _ _ _ _ ?h2] =>
          destruct (IH rx' (i + 1) true h2) as (r & t3 & R3 & S3) end.
        { lia. }
        { unfold rx'. rewrite length_insert. lia. }
        exists r, (Write (LM4_I2C MDR p) b :: Write (LM4_I2C MCS p) w1 ::
                   tw ++ [Read (LM4_I2C MDR p) v] ++ t3).
        split; [rewrite R3, <- !app_assoc; reflexivity|].
        destruct r as [[o buf]|w]; [|exact I].
        cbv zeta in S3 |- *. simpl mdr_reads.
        rewrite mdr_reads_app, Mw. simpl. rewrite Z.eqb_refl. simpl.
        destruct S3 as (L3 & B3 & O3).
        split; [lia|]. split.
        -- rewrite B3. unfold rx'.
           replace (Z.to_nat (i + 1)) with (S (Z.to_nat i)) by lia.
           rewrite (take_S_r _ _ (Z.land v 255))
             by (apply list_lookup_insert_eq; lia).
           rewrite take_insert_ge by lia.
           rewrite drop_insert_lt by lia.
           rewrite <- app_assoc. simpl.
           replace (Z.to_nat i + S (length (mdr_reads p t3)))%nat
             with (S (Z.to_nat i) + length (mdr_reads p t3))%nat by lia.
           reflexivity.
        -- destruct o; [exact O3 | lia].
      * exists (Ok (Some rv, rx)),
          (Write (LM4_I2C MDR p) b :: Write (LM4_I2C MCS p) w1 :: tw).
        split; [unfold ret; rewrite <- !app_assoc; reflexivity|].
        cbv zeta. simpl mdr_reads. rewrite Mw. simpl.
        split; [lia|]. split; [|exact Erv].
        rewrite Nat.add_0_r, take_drop. reflexivity.
    + rewrite (bind_stuck _ _ _ _ _ Rw).
      exists (Stuck w), (Write (LM4_I2C MDR p) b :: Write (LM4_I2C MCS p) w1 :: tw).
      split; [rewrite <- !app_assoc; reflexivity | exact I].
Qed.

Lemma preflight_reads_no_data (p addr : Z) (started : bool) :
  logs_only no_mdr_read (i2c_transmit_receive_preflight env tbl gl scl_read_first p addr started).
Proof.
  unfold i2c_transmit_receive_preflight, i2c_transmit_receive_stale,
    i2c_transmit_receive_recover, i2c_get_line_levels, reg_read, reg_write,
    cprintf, clock_wait_cycles, usleep.
  shape_logs.
Qed.

(** A whole transfer and the receive buffer: the bytes read from the data
    register fill the buffer from its start, at most [receive_size] of them,
    and all of them when the transfer succeeds. *)
Lemma i2c_transmit_receive_buf (fuel : nat) (p addr : Z) (tx : option (list Z))
    (tsize : Z) (rx : list Z) (rsize start stop : Z) (h : list event) :
  0 <= rsize -> (Z.to_nat rsize <= length rx)%nat ->
  exists r tr,
    i2c_transmit_receive' fuel p addr tx tsize rx rsize start stop h = (r, h ++ tr) /\
    match r with
    | Ok (rv, buf) =>
        let vs := mdr_reads p tr in
        (length vs <= Z.to_nat rsize)%nat /\
        buf = map (fun v => Z.land v 255) vs ++ drop (length vs) rx /\
        (ec_is_success rv = true -> length vs = Z.to_nat rsize)
    | Stuck _ => True
    end.
Proof.
  intros Hr Hlen. unfold i2c_transmit_receive.
  destruct ((tsize =? 0) && (rsize =? 0)) eqn:Ez.
  - exists (Ok (EC_SUCCESS, rx)), []. unfold ret. rewrite app_nil_r.
    split; [reflexivity|]. simpl. apply andb_true_iff in Ez. destruct Ez as [_ Ez].
    apply Z.eqb_eq in Ez. subst rsize. repeat split; lia.
  - destruct (preflight_reads_no_data p addr (start =? 0) h) as (r0 & t0 & R0 & L0).
    pose proof (mdr_reads_none p t0 L0) as M0.
    destruct r0 as [[]|w0].
    2:{ rewrite (bind_stuck _ _ _ _ _ R0). exists (Stuck w0), t0. split; [reflexivity | exact I]. }
    rewrite (bind_run _ _ _ _ _ R0). unfold i2c_transmit_receive_phases.
    (* the write phase *)
    assert (Htx : exists r1 t1,
              i2c_transmit_phase env TASK_EVENT_TIMER TASK_EVENT_I2C_IDLE TASK_ID_INVALID
                fuel p addr tx tsize rsize stop (start =? 0) (h ++ t0) =
                (r1, (h ++ t0) ++ t1) /\
              mdr_reads p t1 = [] /\
              forall rv st, r1 = Ok (Some rv, st) -> ec_is_success rv = false).
    { unfold i2c_transmit_phase. destruct tx as [d|].
      - rewrite (bind_run _ _ _ _ _ (reg_write_run _ _ _)).
        match goal with |- context [transmit_loop' _ _ _ _ _ _ ?n ?i ?st ?h1] =>
          destruct (transmit_loop_reads_no_data fuel p d tsize rsize stop n i st h1)
            as (r1 & t1 & R1 & M1 & F1) end.
        exists r1, (Write (LM4_I2C MSA p) (Z.land addr 255) :: t1).
        split; [rewrite R1, <- !app_assoc; reflexivity|].
        split; [exact M1 | exact F1].
      - exists (Ok (None, start =? 0)), []. unfold ret. rewrite app_nil_r.
        split; [reflexivity|]. split; [reflexivity | discriminate]. }
    destruct Htx as (r1 & t1 & R1 & M1 & F1).
    destruct r1 as [[[rv1|] st]|w1].
    + rewrite (bind_run _ _ _ _ _ R1). exists (Ok (rv1, rx)), (t0 ++ t1).
      split; [unfold ret; rewrite <- app_assoc; reflexivity|].
      cbv zeta. rewrite mdr_reads_app, M0, M1. simpl.
      split; [lia|]. split; [reflexivity|].
      intros E. rewrite (F1 rv1 st eq_refl) in E. discriminate.
    + rewrite (bind_run _ _ _ _ _ R1). unfold i2c_receive_phase.
      destruct (Z.eqb_spec rsize 0) as [E0|Hn0].
      * unfold ret at 1. rewrite (bind_run _ _ _ _ _ eq_refl).
        rewrite (bind_run _ _ _ _ _ (reg_read_run env _ _)).
        match goal with |- context [Read (LM4_I2C MCS p) ?x] => set (v := x) end.
        subst rsize.
        destruct (Z.land v _ =? 0);
          (eexists _, (t0 ++ t1 ++ [Read (LM4_I2C MCS p) v]);
           split; [unfold ret; rewrite <- !app_assoc; reflexivity|];
           cbv zeta; rewrite !mdr_reads_app, M0, M1; simpl; repeat split; lia).
      * cbv zeta.
        set (a1 := Write (LM4_I2C MSA p) (Z.lor (Z.land addr 255) 1)).
        set (st' := if tsize =? 0 then st else false).
        destruct (receive_loop_buf fuel p rsize stop (Z.to_nat rsize) rx 0 st'
                    (((h ++ t0) ++ t1) ++ [a1]))
          as (r2 & t2 & R2 & S2); [lia | simpl; lia |].
        assert (Eb : (reg_write (LM4_I2C MSA p) (Z.lor (Z.land addr 255) 1);;
                      receive_loop' fuel p rx rsize stop (Z.to_nat rsize) 0 st')
                       ((h ++ t0) ++ t1) = (r2, ((h ++ t0) ++ t1) ++ a1 :: t2)).
        { rewrite (bind_run _ _ _ _ _ (reg_write_run _ _ _)). fold a1.
          rewrite R2, <- !app_assoc. reflexivity. }
        destruct r2 as [[[rv2|] buf]|w2].
        -- rewrite (bind_run _ _ _ _ _ Eb). exists (Ok (rv2, buf)), (t0 ++ t1 ++ a1 :: t2).
           split; [unfold ret; rewrite <- !app_assoc; reflexivity|].
           cbv zeta in S2 |- *. rewrite !mdr_reads_app, M0, M1. simpl.
           destruct S2 as (L2 & B2 & O2). split; [exact L2|]. split; [exact B2|].
           intros E. rewrite O2 in E. discriminate.
        -- rewrite (bind_run _ _ _ _ _ Eb).
           rewrite (bind_run _ _ _ _ _ (reg_read_run env _ _)).
           match goal with |- context [Read (LM4_I2C MCS p) ?x] => set (v := x) end.
           cbv zeta in S2. destruct S2 as (L2 & B2 & O2).
           destruct (Z.land v _ =? 0);
             (eexists _, (t0 ++ t1 ++ a1 :: t2 ++ [Read (LM4_I2C MCS p) v]);
              split; [unfold ret; rewrite <- !app_assoc; simpl;
                      rewrite <- ?app_assoc; reflexivity|];
              cbv zeta; rewrite !mdr_reads_app, M0, M1; simpl;
              rewrite mdr_reads_app; simpl; rewrite app_nil_r;
              split; [exact L2|]; split; [exact B2|]; intros _; exact O2).
        -- rewrite (bind_stuck _ _ _ _ _ Eb). eexists _, _.
           split; [rewrite <- !app_assoc; reflexivity | exact I].
    + rewrite (bind_stuck _ _ _ _ _ R1). exists (Stuck w1), (t0 ++ t1).
      split; [rewrite <- app_assoc; reflexivity | exact I].
Qed.



End BlockRead.



(** * Further properties of the driver *)

(** ** [wait_idle]: one turn of the loop *)

Section WaitIdleLoop.

Variable env : environment.
Variable TASK_EVENT_TIMER : Z.
Variable TASK_EVENT_I2C_IDLE : Z.
Variable TASK_ID_INVALID : Z.
Variable p : Z.

Local Abbreviation T := TASK_EVENT_TIMER.
Local Abbreviation I := TASK_EVENT_I2C_IDLE.
Local Abbreviation INV := TASK_ID_INVALID.
Local Abbreviation loop := (wait_idle_loop env T I INV).
Local Abbreviation gather :=
  (fold_left (fun ev w => Z.lor ev (Z.land w (Z.lnot I)))).
Local Abbreviation faults :=
  (Z.lor (Z.lor LM4_I2C_MCS_CLKTO LM4_I2C_MCS_ARBLST) LM4_I2C_MCS_ERROR).

(** The six accesses around one blocking wait of task [cur] that was
    resumed with the events [w]. *)
Local Abbreviation turn cur w :=
  [TaskGetCurrent cur; StoreTaskWaiting p cur; Write (LM4_I2C MIMR p) 3;
   TaskWaitEvent 1000000 w;
   Write (LM4_I2C MIMR p) 0; StoreTaskWaiting p INV].

Lemma wait_idle_loop_done (fuel : nat) (i ev : Z) (h : list event) :
  Z.land i LM4_I2C_MCS_BUSY = 0 ->
  loop fuel p i ev h =
    (Ok (if Z.land i faults =? 0 then EC_SUCCESS else EC_ERROR_UNKNOWN),
     h ++ [TaskGetCurrent (env h QTaskCurrent);
           TaskSetEvent (env h QTaskCurrent) ev 0]).
Proof.
  intros Hb. apply Z.eqb_eq in Hb.
  destruct fuel; cbn [wait_idle_loop]; rewrite Hb;
    rewrite (bind_run _ _ _ _ _ (task_get_current_run env h));
    rewrite (bind_run _ _ _ _ _ (task_set_event_run _ _ _ _));
    rewrite <- app_assoc; destruct (Z.land i faults =? 0); reflexivity.
Qed.

Lemma wait_idle_loop_fuel (i ev : Z) (h : list event) :
  Z.land i LM4_I2C_MCS_BUSY <> 0 ->
  loop 0 p i ev h = (Stuck OutOfFuel, h).
Proof.
  intros Hb. apply Z.eqb_neq in Hb. cbn [wait_idle_loop]. rewrite Hb. reflexivity.
Qed.

Lemma wait_idle_loop_outside (fuel : nat) (i ev : Z) (h : list event) :
  Z.land i LM4_I2C_MCS_BUSY <> 0 ->
  (0 <=? p) && (p <? NUM_PORTS) = false ->
  loop (S fuel) p i ev h =
    (Stuck OutOfBounds, h ++ [TaskGetCurrent (env h QTaskCurrent)]).
Proof.
  intros Hb Hp. apply Z.eqb_neq in Hb. cbn [wait_idle_loop]. rewrite Hb.
  rewrite (bind_run _ _ _ _ _ (task_get_current_run env h)).
  unfold set_task_waiting_on_port. rewrite Hp. reflexivity.
Qed.

Lemma wait_idle_loop_step (fuel : nat) (i ev : Z) (h : list event) :
  Z.land i LM4_I2C_MCS_BUSY <> 0 ->
  (0 <=? p) && (p <? NUM_PORTS) = true ->
  let cur := env h QTaskCurrent in
  let w := env (h ++ [TaskGetCurrent cur; StoreTaskWaiting p cur;
                      Write (LM4_I2C MIMR p) 3]) (QTaskWait 1000000) in
  let ev' := Z.lor ev (Z.land w (Z.lnot I)) in
  let h' := h ++ turn cur w in
  loop (S fuel) p i ev h =
    if Z.land ev' T =? 0 then
      loop fuel p (env h' (QRead (LM4_I2C MCS p))) ev'
        (h' ++ [Read (LM4_I2C MCS p) (env h' (QRead (LM4_I2C MCS p)))])
    else
      (Ok EC_ERROR_TIMEOUT,
       h' ++ [TaskGetCurrent (env h' QTaskCurrent);
              TaskSetEvent (env h' QTaskCurrent) (Z.land ev' (Z.lnot T)) 0]).
Proof.
  intros Hb Hp. apply Z.eqb_neq in Hb. cbv zeta. cbn [wait_idle_loop]. rewrite Hb.
  assert (Hset : forall id h0,
            set_task_waiting_on_port p id h0 = (Ok tt, h0 ++ [StoreTaskWaiting p id])).
  { intros id h0. unfold set_task_waiting_on_port. rewrite Hp. reflexivity. }
  rewrite (bind_run _ _ _ _ _ (task_get_current_run env h)).
  rewrite (bind_run _ _ _ _ _ (Hset _ _)).
  rewrite (bind_run _ _ _ _ _ (reg_write_run _ _ _)).
  rewrite (bind_run _ _ _ _ _ (task_wait_event_run env _ _)).
  rewrite (bind_run _ _ _ _ _ (reg_write_run _ _ _)).
  rewrite (bind_run _ _ _ _ _ (Hset _ _)).
  rewrite <- !app_assoc. cbn [app].
  match goal with |- context [if ?c then _ else _] => destruct c end.
  - rewrite (bind_run _ _ _ _ _ (reg_read_run env _ _)).
    rewrite <- ?app_assoc. cbn [app]. reflexivity.
  - rewrite (bind_run _ _ _ _ _ (task_get_current_run env _)).
    rewrite (bind_run _ _ _ _ _ (task_set_event_run _ _ _ _)).
    unfold ret. rewrite <- ?app_assoc. cbn [app]. reflexivity.
Qed.

Lemma gather_bit_all (ws : list Z) (ev n : Z) :
  0 <= n ->
  Z.testbit (gather ws ev) n =
    Z.testbit ev n || (negb (Z.testbit I n) && existsb (fun w => Z.testbit w n) ws).
Proof.
  intros Hn. revert ev. induction ws as [|w ws IH]; intros ev; simpl.
  - rewrite andb_false_r, orb_false_r. reflexivity.
  - rewrite IH, Z.lor_spec, Z.land_spec, Z.lnot_spec by exact Hn.
    destruct (Z.testbit ev n), (Z.testbit w n), (Z.testbit I n); reflexivity.
Qed.

(** Leaving the loop without a timeout: the last status read shows the
    port idle, the events gathered are posted, the status decides the
    result. *)
Lemma wait_idle_loop_completion (fuel : nat) :
  forall i ev h, exists r tr,
    loop fuel p i ev h = (r, h ++ tr) /\
    forall rv, r = Ok rv -> rv <> EC_ERROR_TIMEOUT ->
      exists tr' i' cur,
        Read (LM4_I2C MCS p) i :: tr =
          tr' ++ [Read (LM4_I2C MCS p) i'; TaskGetCurrent cur;
                  TaskSetEvent cur (gather (wait_events tr) ev) 0] /\
        Z.land i' LM4_I2C_MCS_BUSY = 0 /\
        rv = (if Z.land i' faults =? 0 then EC_SUCCESS else EC_ERROR_UNKNOWN).
Proof.
  induction fuel as [|fuel IH]; intros i ev h.
  - destruct (Z.eq_dec (Z.land i LM4_I2C_MCS_BUSY) 0) as [Hidle|Hbusy].
    + rewrite (wait_idle_loop_done _ _ _ _ Hidle).
      eexists _, _. split; [reflexivity|]. intros rv E _. inversion E.
      exists [], i, (env h QTaskCurrent). auto.
    + rewrite (wait_idle_loop_fuel _ _ _ Hbusy).
      exists (Stuck OutOfFuel), []. rewrite app_nil_r. split; [reflexivity|].
      discriminate.
  - destruct (Z.eq_dec (Z.land i LM4_I2C_MCS_BUSY) 0) as [Hidle|Hbusy].
    + rewrite (wait_idle_loop_done _ _ _ _ Hidle).
      eexists _, _. split; [reflexivity|]. intros rv E _. inversion E.
      exists [], i, (env h QTaskCurrent). auto.
    + destruct ((0 <=? p) && (p <? NUM_PORTS)) eqn:Hp.
      * rewrite (wait_idle_loop_step _ _ _ _ Hbusy Hp). cbv zeta.
        set (cur := env h QTaskCurrent).
        set (w := env _ (QTaskWait 1000000)).
        set (ev' := Z.lor ev (Z.land w (Z.lnot I))).
        set (i' := env _ (QRead (LM4_I2C MCS p))).
        destruct (Z.land ev' T =? 0).
        -- destruct (IH i' ev' ((h ++ turn cur w) ++ [Read (LM4_I2C MCS p) i']))
             as (r & tr2 & R & C).
           exists r, (turn cur w ++ Read (LM4_I2C MCS p) i' :: tr2).
           split.
           { rewrite R. rewrite <- !app_assoc. reflexivity. }
           intros rv E Hrv. destruct (C rv E Hrv) as (tr' & i2 & c2 & E2 & B2 & V2).
           exists (Read (LM4_I2C MCS p) i :: turn cur w ++ tr'), i2, c2.
           split; [|split; [exact B2 | exact V2]].
           rewrite wait_events_app.
           change (wait_events (turn cur w)) with [w].
           change (wait_events (Read (LM4_I2C MCS p) i' :: tr2)) with (wait_events tr2).
           change (gather ([w] ++ wait_events tr2) ev) with (gather (wait_events tr2) ev').
           cbn [app]. rewrite <- E2. reflexivity.
        -- eexists _, _. split; [rewrite <- app_assoc; reflexivity|].
           intros rv E Hrv. inversion E. congruence.
      * rewrite (wait_idle_loop_outside _ _ _ _ Hbusy Hp).
        eexists _, _. split; [reflexivity|]. discriminate.
Qed.

(** Every blocking wait sits in a turn: the task is registered and the
    port's interrupts are unmasked before it, both are undone after it. *)
Lemma wait_idle_loop_brackets (fuel : nat) :
  forall i ev h, exists r tr,
    loop fuel p i ev h = (r, h ++ tr) /\
    forall t w, In (TaskWaitEvent t w) tr ->
      t = 1000000 /\
      (0 <=? p) && (p <? NUM_PORTS) = true /\
      exists t1 cur t2,
        tr = t1 ++ turn cur w ++ t2 /\
        cur = env (h ++ t1) QTaskCurrent.
Proof.
  induction fuel as [|fuel IH]; intros i ev h.
  - destruct (Z.eq_dec (Z.land i LM4_I2C_MCS_BUSY) 0) as [Hidle|Hbusy].
    + rewrite (wait_idle_loop_done _ _ _ _ Hidle).
      eexists _, _. split; [reflexivity|]. intros t w [H|[H|[]]]; discriminate.
    + rewrite (wait_idle_loop_fuel _ _ _ Hbusy).
      exists (Stuck OutOfFuel), []. rewrite app_nil_r. split; [reflexivity|].
      intros t w [].
  - destruct (Z.eq_dec (Z.land i LM4_I2C_MCS_BUSY) 0) as [Hidle|Hbusy].
    + rewrite (wait_idle_loop_done _ _ _ _ Hidle).
      eexists _, _. split; [reflexivity|]. intros t w [H|[H|[]]]; discriminate.
    + destruct ((0 <=? p) && (p <? NUM_PORTS)) eqn:Hp.
      * rewrite (wait_idle_loop_step _ _ _ _ Hbusy Hp). cbv zeta.
        set (cur := env h QTaskCurrent).
        set (w0 := env _ (QTaskWait 1000000)).
        set (ev' := Z.lor ev (Z.land w0 (Z.lnot I))).
        set (i' := env _ (QRead (LM4_I2C MCS p))).
        destruct (Z.land ev' T =? 0).
        -- destruct (IH i' ev' ((h ++ turn cur w0) ++ [Read (LM4_I2C MCS p) i']))
             as (r & tr2 & R & C).
           exists r, (turn cur w0 ++ Read (LM4_I2C MCS p) i' :: tr2).
           split.
           { rewrite R. rewrite <- !app_assoc. reflexivity. }
           intros t w Hin. apply in_app_or in Hin. destruct Hin as [Hin|Hin].
           ++ simpl in Hin.
              destruct Hin as [H|[H|[H|[H|[H|[H|[]]]]]]]; try discriminate.
              inversion H; subst t w. split; [reflexivity|]. split; [reflexivity|].
              exists [], cur, (Read (LM4_I2C MCS p) i' :: tr2).
              rewrite app_nil_r. split; reflexivity.
           ++ destruct Hin as [H|Hin]; [discriminate|].
              destruct (C t w Hin) as (Ht & _ & t1 & c & t2 & E & Hc).
              split; [exact Ht|]. split; [reflexivity|].
              exists (turn cur w0 ++ Read (LM4_I2C MCS p) i' :: t1), c, t2.
              split.
              { rewrite E. rewrite <- !app_assoc. reflexivity. }
              rewrite Hc. f_equal. rewrite <- !app_assoc. reflexivity.
        -- eexists _, _. split; [rewrite <- app_assoc; reflexivity|].
           intros t w Hin. apply in_app_or in Hin. destruct Hin as [Hin|Hin].
           ++ simpl in Hin.
              destruct Hin as [H|[H|[H|[H|[H|[H|[]]]]]]]; try discriminate.
              inversion H; subst t w. split; [reflexivity|]. split; [reflexivity|].
              eexists [], cur, _.
              split; [reflexivity | rewrite app_nil_r; reflexivity].
           ++ destruct Hin as [H|[H|[]]]; discriminate.
      * rewrite (wait_idle_loop_outside _ _ _ _ Hbusy Hp).
        eexists _, _. split; [reflexivity|]. intros t w [H|[]]; discriminate.
Qed.

(** The loop never leaves a task registered: an entry of the table is as
    it was before, or holds [TASK_ID_INVALID]. *)
Lemma wait_idle_loop_slot (fuel : nat) :
  forall i ev h, exists r tr,
    loop fuel p i ev h = (r, h ++ tr) /\
    forall q id0,
      fold_left (store_task_waiting q) tr id0 = id0 \/
      fold_left (store_task_waiting q) tr id0 = INV.
Proof.
  induction fuel as [|fuel IH]; intros i ev h.
  - destruct (Z.eq_dec (Z.land i LM4_I2C_MCS_BUSY) 0) as [Hidle|Hbusy].
    + rewrite (wait_idle_loop_done _ _ _ _ Hidle).
      eexists _, _. split; [reflexivity|]. intros q id0. left. reflexivity.
    + rewrite (wait_idle_loop_fuel _ _ _ Hbusy).
      exists (Stuck OutOfFuel), []. rewrite app_nil_r. split; [reflexivity|].
      intros q id0. left. reflexivity.
  - destruct (Z.eq_dec (Z.land i LM4_I2C_MCS_BUSY) 0) as [Hidle|Hbusy].
    + rewrite (wait_idle_loop_done _ _ _ _ Hidle).
      eexists _, _. split; [reflexivity|]. intros q id0. left. reflexivity.
    + destruct ((0 <=? p) && (p <? NUM_PORTS)) eqn:Hp.
      * rewrite (wait_idle_loop_step _ _ _ _ Hbusy Hp). cbv zeta.
        set (cur := env h QTaskCurrent).
        set (w0 := env _ (QTaskWait 1000000)).
        set (ev' := Z.lor ev (Z.land w0 (Z.lnot I))).
        set (i' := env _ (QRead (LM4_I2C MCS p))).
        assert (Hturn : forall q id0,
                  fold_left (store_task_waiting q) (turn cur w0) id0 =
                    if p =? q then INV else id0).
        { intros q id0. simpl. destruct (p =? q); reflexivity. }
        destruct (Z.land ev' T =? 0).
        -- destruct (IH i' ev' ((h ++ turn cur w0) ++ [Read (LM4_I2C MCS p) i']))
             as (r & tr2 & R & C).
           exists r, (turn cur w0 ++ Read (LM4_I2C MCS p) i' :: tr2).
           split.
           { rewrite R. rewrite <- !app_assoc. reflexivity. }
           intros q id0. rewrite fold_left_app, Hturn.
           change (fold_left (store_task_waiting q) (Read (LM4_I2C MCS p) i' :: tr2) ?x)
             with (fold_left (store_task_waiting q) tr2 x).
           destruct (p =? q).
           ++ destruct (C q INV) as [E|E]; right; exact E.
           ++ apply C.
        -- eexists _, _. split; [rewrite <- app_assoc; reflexivity|].
           intros q id0. rewrite fold_left_app, Hturn. simpl.
           destruct (p =? q); auto.
      * rewrite (wait_idle_loop_outside _ _ _ _ Hbusy Hp).
        eexists _, _. split; [reflexivity|]. intros q id0. left. reflexivity.
Qed.

Local Abbreviation wait_idle' := (wait_idle env T I INV).

Lemma wait_idle_slot (fuel : nat) (h : list event) :
  exists r tr,
    wait_idle' fuel p h = (r, h ++ tr) /\
    forall q id0,
      fold_left (store_task_waiting q) tr id0 = id0 \/
      fold_left (store_task_waiting q) tr id0 = INV.
Proof.
  unfold wait_idle. rewrite (bind_run _ _ _ _ _ (reg_read_run env _ h)).
  set (i := env h (QRead (LM4_I2C MCS p))).
  destruct (wait_idle_loop_slot fuel i 0 (h ++ [Read (LM4_I2C MCS p) i]))
    as (r & tr & R & C).
  exists r, (Read (LM4_I2C MCS p) i :: tr).
  split; [rewrite R, <- app_assoc; reflexivity | exact C].
Qed.

(** X1.  When [wait_idle] returns anything but a timeout, the last status it
    read showed the port idle; that status decides the result, a fault
    ([EC_ERROR_UNKNOWN]) exactly when it shows a clock timeout, a lost
    arbitration or an error; and the last thing [wait_idle] did was to post
    to the calling task the events it received in its waits: every bit that
    some wait returned, the I2C completion bits apart, and no other bit. *)
Theorem wait_idle_completion (fuel : nat) (h tr : list event) (rv : ec_error) :
  wait_idle' fuel p h = (Ok rv, h ++ tr) ->
  rv <> EC_ERROR_TIMEOUT ->
  exists tr' i cur m,
    tr = tr' ++ [Read (LM4_I2C MCS p) i; TaskGetCurrent cur; TaskSetEvent cur m 0] /\
    Z.land i LM4_I2C_MCS_BUSY = 0 /\
    rv = (if Z.land i faults =? 0 then EC_SUCCESS else EC_ERROR_UNKNOWN) /\
    forall n, 0 <= n ->
      (Z.testbit m n = true <->
       Z.testbit I n = false /\
       exists w, In w (wait_events tr) /\ Z.testbit w n = true).
Proof.
  intros Hrun Hrv. unfold wait_idle in Hrun.
  rewrite (bind_run _ _ _ _ _ (reg_read_run env _ h)) in Hrun.
  set (i := env h (QRead (LM4_I2C MCS p))) in *.
  destruct (wait_idle_loop_completion fuel i 0 (h ++ [Read (LM4_I2C MCS p) i]))
    as (r & tr0 & R & C).
  rewrite R in Hrun. inversion Hrun as [[Hr Htr]]. subst r.
  rewrite <- app_assoc in Htr. apply app_inv_head in Htr. subst tr.
  destruct (C rv eq_refl Hrv) as (tr' & i' & cur & E & B & V).
  exists tr', i', cur, (gather (wait_events tr0) 0).
  split; [exact E|]. split; [exact B|]. split; [exact V|].
  intros n Hn.
  change (wait_events ([Read (LM4_I2C MCS p) i] ++ tr0)) with (wait_events tr0).
  rewrite (gather_bit_all _ _ _ Hn), Z.bits_0, orb_false_l, andb_true_iff,
    negb_true_iff, existsb_exists.
  reflexivity.
Qed.

(** X2.  Whenever [wait_idle] blocks, it does so for one second at most, and
    around the wait it has registered the calling task in
    [task_waiting_on_port] and unmasked the port's interrupts just before,
    and it masks the interrupts and clears the registration right after,
    however the wait ends. *)
Theorem wait_idle_brackets_wait (fuel : nat) (h tr : list event) (t w : Z) :
  snd (wait_idle' fuel p h) = h ++ tr ->
  In (TaskWaitEvent t w) tr ->
  t = 1000000 /\
  exists t1 cur t2,
    tr = t1 ++ [TaskGetCurrent cur; StoreTaskWaiting p cur;
                Write (LM4_I2C MIMR p) 3;
                TaskWaitEvent 1000000 w;
                Write (LM4_I2C MIMR p) 0; StoreTaskWaiting p INV] ++ t2 /\
    cur = env (h ++ t1) QTaskCurrent.
Proof.
  intros Hsnd Hin. unfold wait_idle in Hsnd.
  rewrite (bind_run _ _ _ _ _ (reg_read_run env _ h)) in Hsnd.
  set (i := env h (QRead (LM4_I2C MCS p))) in *.
  destruct (wait_idle_loop_brackets fuel i 0 (h ++ [Read (LM4_I2C MCS p) i]))
    as (r & tr0 & R & C).
  rewrite R in Hsnd. simpl in Hsnd.
  rewrite <- app_assoc in Hsnd. apply app_inv_head in Hsnd. subst tr.
  destruct Hin as [H|Hin]; [discriminate|].
  destruct (C t w Hin) as (Ht & _ & t1 & cur & t2 & E & Hc).
  split; [exact Ht|].
  exists (Read (LM4_I2C MCS p) i :: t1), cur, t2.
  split; [rewrite E; reflexivity|].
  rewrite Hc, <- app_assoc. reflexivity.
Qed.

Lemma task_waiting_on_port_app (h tr : list event) (q : Z) :
  task_waiting_on_port (h ++ tr) q =
    fold_left (store_task_waiting q) tr (task_waiting_on_port h q).
Proof. unfold task_waiting_on_port. apply fold_left_app. Qed.

Lemma handle_interrupt_run (h : list event) :
  (0 <=? p) && (p <? NUM_PORTS) = true ->
  let id := task_waiting_on_port h p in
  let s := env h (QRead (LM4_I2C MMIS p)) in
  handle_interrupt env I INV p h =
    (Ok tt,
     h ++ Read (LM4_I2C MMIS p) s :: Write (LM4_I2C MICR p) s ::
          (if id =? INV then [] else [TaskSetEvent id I 0])).
Proof.
  intros Hp. cbv zeta. unfold handle_interrupt, get_task_waiting_on_port.
  rewrite Hp. unfold bind at 1.
  rewrite (bind_run _ _ _ _ _ (reg_read_run env _ h)).
  rewrite (bind_run _ _ _ _ _ (reg_write_run _ _ _)).
  destruct (task_waiting_on_port h p =? INV).
  - unfold ret. rewrite <- app_assoc. reflexivity.
  - rewrite task_set_event_run, <- !app_assoc. reflexivity.
Qed.

(** X3.  An interrupt of the port that arrives while [wait_idle] is blocked
    wakes the blocked task: at the point of every wait of [wait_idle], the
    handler acknowledges the interrupt status it reads and posts the I2C
    completion event to the task that called [wait_idle] (to no one if that
    task were [TASK_ID_INVALID]). *)
Theorem handle_interrupt_wakes_waiter (fuel : nat) (h tr : list event) (t w : Z) :
  snd (wait_idle' fuel p h) = h ++ tr ->
  In (TaskWaitEvent t w) tr ->
  exists t0 cur t2,
    let blocked := t0 ++ [TaskGetCurrent cur; StoreTaskWaiting p cur;
                          Write (LM4_I2C MIMR p) 3] in
    tr = blocked ++ TaskWaitEvent t w :: t2 /\
    cur = env (h ++ t0) QTaskCurrent /\
    let s := env (h ++ blocked) (QRead (LM4_I2C MMIS p)) in
    handle_interrupt env I INV p (h ++ blocked) =
      (Ok tt,
       (h ++ blocked) ++
         Read (LM4_I2C MMIS p) s :: Write (LM4_I2C MICR p) s ::
         (if cur =? INV then [] else [TaskSetEvent cur I 0])).
Proof.
  intros Hsnd Hin. unfold wait_idle in Hsnd.
  rewrite (bind_run _ _ _ _ _ (reg_read_run env _ h)) in Hsnd.
  set (i := env h (QRead (LM4_I2C MCS p))) in *.
  destruct (wait_idle_loop_brackets fuel i 0 (h ++ [Read (LM4_I2C MCS p) i]))
    as (r & tr0 & R & C).
  rewrite R in Hsnd. simpl in Hsnd.
  rewrite <- app_assoc in Hsnd. apply app_inv_head in Hsnd. subst tr.
  destruct Hin as [H|Hin]; [discriminate|].
  destruct (C t w Hin) as (Ht & Hp & t1 & cur & t2 & E & Hc). subst t.
  exists (Read (LM4_I2C MCS p) i :: t1), cur,
    (Write (LM4_I2C MIMR p) 0 :: StoreTaskWaiting p INV :: t2).
  cbv zeta. split.
  { rewrite E. cbn [app]. rewrite <- app_assoc. reflexivity. }
  split; [rewrite Hc, <- app_assoc; reflexivity|].
  rewrite (handle_interrupt_run _ Hp). cbv zeta.
  replace (task_waiting_on_port _ p) with cur; [reflexivity|].
  rewrite !task_waiting_on_port_app, fold_left_app. simpl.
  rewrite Z.eqb_refl. reflexivity.
Qed.

End WaitIdleLoop.

Lemma wait_idle_completion_witness :
  exists tr' i cur m,
    snd (wait_idle env_busy_once DEMO_EVENT_TIMER DEMO_EVENT_I2C_IDLE
           DEMO_TASK_ID_INVALID 2 0 []) =
      tr' ++ [Read (LM4_I2C MCS 0) i; TaskGetCurrent cur; TaskSetEvent cur m 0] /\
    Z.land i LM4_I2C_MCS_BUSY = 0 /\
    EC_SUCCESS =
      (if Z.land i (Z.lor (Z.lor LM4_I2C_MCS_CLKTO LM4_I2C_MCS_ARBLST)
                          LM4_I2C_MCS_ERROR) =? 0
       then EC_SUCCESS else EC_ERROR_UNKNOWN) /\
    forall n, 0 <= n ->
      (Z.testbit m n = true <->
       Z.testbit DEMO_EVENT_I2C_IDLE n = false /\
       exists w,
         In w (wait_events
                 (snd (wait_idle env_busy_once DEMO_EVENT_TIMER DEMO_EVENT_I2C_IDLE
                         DEMO_TASK_ID_INVALID 2 0 []))) /\
         Z.testbit w n = true).
Proof.
  apply (wait_idle_completion env_busy_once DEMO_EVENT_TIMER DEMO_EVENT_I2C_IDLE
           DEMO_TASK_ID_INVALID 0 2 []).
  - vm_compute. reflexivity.
  - discriminate.
Defined.

Lemma wait_idle_brackets_wait_witness :
  1000000 = 1000000 /\
  exists t1 cur t2,
    snd (wait_idle env_busy_once DEMO_EVENT_TIMER DEMO_EVENT_I2C_IDLE
           DEMO_TASK_ID_INVALID 2 0 []) =
      t1 ++ [TaskGetCurrent cur; StoreTaskWaiting 0 cur;
             Write (LM4_I2C MIMR 0) 3;
             TaskWaitEvent 1000000 268435460;
             Write (LM4_I2C MIMR 0) 0; StoreTaskWaiting 0 DEMO_TASK_ID_INVALID] ++ t2 /\
    cur = env_busy_once ([] ++ t1) QTaskCurrent.
Proof.
  apply (wait_idle_brackets_wait env_busy_once DEMO_EVENT_TIMER DEMO_EVENT_I2C_IDLE
           DEMO_TASK_ID_INVALID 0 2 []).
  - reflexivity.
  - vm_compute. right. right. right. right. left. reflexivity.
Defined.

Lemma handle_interrupt_wakes_waiter_witness :
  exists t0 cur t2,
    let blocked := t0 ++ [TaskGetCurrent cur; StoreTaskWaiting 0 cur;
                          Write (LM4_I2C MIMR 0) 3] in
    snd (wait_idle env_busy_once DEMO_EVENT_TIMER DEMO_EVENT_I2C_IDLE
           DEMO_TASK_ID_INVALID 2 0 []) =
      blocked ++ TaskWaitEvent 1000000 268435460 :: t2 /\
    cur = env_busy_once ([] ++ t0) QTaskCurrent /\
    let s := env_busy_once ([] ++ blocked) (QRead (LM4_I2C MMIS 0)) in
    handle_interrupt env_busy_once DEMO_EVENT_I2C_IDLE DEMO_TASK_ID_INVALID 0
      ([] ++ blocked) =
      (Ok tt,
       ([] ++ blocked) ++
         Read (LM4_I2C MMIS 0) s :: Write (LM4_I2C MICR 0) s ::
         (if cur =? DEMO_TASK_ID_INVALID then []
          else [TaskSetEvent cur DEMO_EVENT_I2C_IDLE 0])).
Proof.
  apply (handle_interrupt_wakes_waiter env_busy_once DEMO_EVENT_TIMER
           DEMO_EVENT_I2C_IDLE DEMO_TASK_ID_INVALID 0 2 []).
  - reflexivity.
  - vm_compute. right. right. right. right. left. reflexivity.
Defined.

(** ** What a transfer touches *)

Lemma raw_is_on_port (p : Z) (e : event) : raw_event e = true -> on_port p e = true.
Proof.
  destruct e as [[[] ?|] ?|[[] ?|] ?| | | | |[]|[]| | | | | | | | |]; simpl; congruence.
Qed.

Lemma on_port_no_port_mutex (p : Z) (e : event) :
  on_port p e = true -> negb (port_mutex_event e) = true.
Proof. destruct e as [| | | | | |[]|[]| | | | | | | | |]; simpl; congruence. Qed.

Ltac shape_port :=
  repeat first
    [ progress intros
    | solve [auto with hw]
    | apply logs_stop
    | apply returns_logs; apply logs_ret
    | apply returns_logs; apply logs_emit; simpl; rewrite ?Z.eqb_refl; reflexivity
    | apply returns_logs; apply logs_ask; intros; simpl; rewrite ?Z.eqb_refl;
      reflexivity
    | apply logs_bind
    | match goal with
      | |- logs_only _ (match ?x with _ => _ end) => destruct x
      | |- logs_only _ (if ?x then _ else _) => destruct x
      | |- logs_only _ (let (_, _) := ?x in _) => destruct x
      end ].

Section Footprint.

Variable env : environment.
Variable tbl : list i2c_port_t.
Variable gl : Z -> gpio_info.
Variable scl_read_first : bool.
Variable TASK_EVENT_TIMER : Z.
Variable TASK_EVENT_I2C_IDLE : Z.
Variable TASK_ID_INVALID : Z.
Variable p : Z.

Local Abbreviation wait_idle' :=
  (wait_idle env TASK_EVENT_TIMER TASK_EVENT_I2C_IDLE TASK_ID_INVALID).
Local Abbreviation i2c_transmit_receive' :=
  (i2c_transmit_receive env tbl gl scl_read_first
      TASK_EVENT_TIMER TASK_EVENT_I2C_IDLE TASK_ID_INVALID).

Lemma wait_idle_loop_port (fuel : nat) :
  forall i ev,
    logs_only (on_port p)
      (wait_idle_loop env TASK_EVENT_TIMER TASK_EVENT_I2C_IDLE TASK_ID_INVALID
         fuel p i ev).
Proof.
  induction fuel as [|fuel IH]; intros i ev; cbn [wait_idle_loop];
    unfold task_get_current, task_set_event, task_wait_event, reg_write, reg_read,
      set_task_waiting_on_port;
    shape_port.
Qed.

Lemma wait_idle_port (fuel : nat) : logs_only (on_port p) (wait_idle' fuel p).
Proof.
  unfold wait_idle, reg_read. apply logs_bind; [shape_port|].
  intros i. apply wait_idle_loop_port.
Qed.

#[local] Hint Resolve wait_idle_port : hw.

Lemma transmit_loop_port (fuel : nat) (d : list Z) (tsize rsize stop : Z) (left : nat) :
  forall i started,
    logs_only (on_port p)
      (transmit_loop env TASK_EVENT_TIMER TASK_EVENT_I2C_IDLE TASK_ID_INVALID
         fuel p d tsize rsize stop left i started).
Proof.
  induction left as [|left IH]; intros i started; cbn [transmit_loop];
    unfold reg_write; cbv zeta; shape_port.
Qed.

Lemma receive_loop_port (fuel : nat) (rsize stop : Z) (left : nat) :
  forall rx i started,
    logs_only (on_port p)
      (receive_loop env TASK_EVENT_TIMER TASK_EVENT_I2C_IDLE TASK_ID_INVALID
         fuel p rx rsize stop left i started).
Proof.
  induction left as [|left IH]; intros rx i started; cbn [receive_loop];
    unfold reg_write, reg_read; cbv zeta; shape_port.
Qed.

#[local] Hint Resolve transmit_loop_port receive_loop_port : hw.

Lemma phases_port (fuel : nat) (addr : Z) (tx : option (list Z)) (tsize : Z)
    (rx : list Z) (rsize stop : Z) (started : bool) :
  logs_only (on_port p)
    (i2c_transmit_receive_phases env TASK_EVENT_TIMER TASK_EVENT_I2C_IDLE
       TASK_ID_INVALID fuel p addr tx tsize rx rsize stop started).
Proof.
  unfold i2c_transmit_receive_phases, i2c_transmit_phase, i2c_receive_phase,
    reg_write, reg_read.
  cbv zeta. shape_port.
Qed.

Lemma i2c_unwedge_port : logs_only (on_port p) (i2c_unwedge env tbl gl p).
Proof.
  apply (logs_weaken raw_event); [exact (raw_is_on_port p) | apply i2c_unwedge_logs].
Qed.

#[local] Hint Resolve i2c_unwedge_port phases_port : hw.

Lemma preflight_port (addr : Z) (started : bool) :
  logs_only (on_port p) (i2c_transmit_receive_preflight env tbl gl scl_read_first p addr started).
Proof.
  unfold i2c_transmit_receive_preflight, i2c_transmit_receive_stale,
    i2c_transmit_receive_recover, i2c_get_line_levels, reg_read, reg_write,
    cprintf, clock_wait_cycles, usleep.
  shape_port.
Qed.

#[local] Hint Resolve preflight_port : hw.

Lemma i2c_transmit_receive_port (fuel : nat) (addr : Z) (tx : option (list Z))
    (tsize : Z) (rx : list Z) (rsize start stop : Z) :
  logs_only (on_port p)
    (i2c_transmit_receive' fuel p addr tx tsize rx rsize start stop).
Proof. unfold i2c_transmit_receive. cbv zeta. shape_port. Qed.

(** X5.  A transfer on port [p] stays within the port: whatever it is asked to
    do and however it ends, every controller register it reads or writes
    and every entry of [task_waiting_on_port] it stores to is the one of
    port [p]; it takes and releases no port lock (that is left to its
    callers) and does not read the system clock. *)
Theorem i2c_transmit_receive_isolation (fuel : nat) (addr : Z) (tx : option (list Z))
    (tsize : Z) (rx : list Z) (rsize start stop : Z) (h : list event) :
  exists r tr,
    i2c_transmit_receive' fuel p addr tx tsize rx rsize start stop h = (r, h ++ tr) /\
    forallb (on_port p) tr = true.
Proof. apply i2c_transmit_receive_port. Qed.

End Footprint.

(** ** The port lock *)

Lemma forallb_no_port_mutex (p : Z) (tr : list event) :
  forallb (on_port p) tr = true ->
  forallb (fun e => negb (port_mutex_event e)) tr = true.
Proof.
  rewrite !forallb_forall. intros H x Hx. apply (on_port_no_port_mutex p). auto.
Qed.

(** Lock, run [m], unlock, finish with a computation that logs nothing. *)
Lemma holds_port_lock_wrap {A B : Type} (p : Z) (m : M A) (k : A -> M B) :
  logs_only (on_port p) m ->
  (forall a h, snd (k a h) = h) ->
  holds_port_lock p
    (mutex_lock (port_mutex p);;
     let* r := m in
     mutex_unlock (port_mutex p);;
     k r).
Proof.
  intros Hm Hk h. unfold mutex_lock, mutex_unlock.
  rewrite (bind_run _ _ _ _ _ (emit_run _ _)).
  destruct (Hm (h ++ [MutexLock (port_mutex p)])) as (r & tr & R & F).
  destruct r as [a|w].
  - rewrite (bind_run _ _ _ _ _ R).
    rewrite (bind_run _ _ _ _ _ (emit_run _ _)).
    pose proof (Hk a (((h ++ [MutexLock (port_mutex p)]) ++ tr) ++
                      [MutexUnlock (port_mutex p)])) as Hs.
    destruct (k a _) as [rb hb]. simpl in Hs. subst hb.
    exists rb, (MutexLock (port_mutex p) :: tr ++ [MutexUnlock (port_mutex p)]).
    split; [rewrite <- !app_assoc; reflexivity|].
    intros b _. exists tr. split; [reflexivity|].
    apply (forallb_no_port_mutex p). exact F.
  - rewrite (bind_stuck _ _ _ _ _ R).
    exists (Stuck w), (MutexLock (port_mutex p) :: tr).
    split; [rewrite <- !app_assoc; reflexivity | discriminate].
Qed.

Lemma load_pure (buf : list Z) (i : Z) (h : list event) : snd (load buf i h) = h.
Proof.
  unfold load. destruct (i <? 0); [reflexivity|].
  destruct (buf !! Z.to_nat i); reflexivity.
Qed.

Section Locks.

Variable env : environment.
Variable tbl : list i2c_port_t.
Variable gl : Z -> gpio_info.
Variable scl_read_first : bool.
Variable TASK_EVENT_TIMER : Z.
Variable TASK_EVENT_I2C_IDLE : Z.
Variable TASK_ID_INVALID : Z.
Variable I2C_FLAG_BIG_ENDIAN : Z.

Local Abbreviation i2c_transmit_receive' :=
  (i2c_transmit_receive env tbl gl scl_read_first
      TASK_EVENT_TIMER TASK_EVENT_I2C_IDLE TASK_ID_INVALID).
Local Abbreviation port_of_transfer :=
  (i2c_transmit_receive_port env tbl gl scl_read_first TASK_EVENT_TIMER
     TASK_EVENT_I2C_IDLE TASK_ID_INVALID).

Lemma i2c_read8_holds_lock (fuel : nat) (p addr offset data val0 : Z) :
  holds_port_lock p
    (i2c_read8 env tbl gl scl_read_first
        TASK_EVENT_TIMER TASK_EVENT_I2C_IDLE TASK_ID_INVALID
       fuel p addr offset data val0).
Proof.
  unfold i2c_read8. cbv zeta. apply holds_port_lock_wrap; [apply port_of_transfer|].
  intros [rv buf] h. destruct (ec_is_success rv); [|reflexivity].
  unfold bind. pose proof (load_pure buf 0 h) as L.
  destruct (load buf 0 h) as [[v|w] h0]; simpl in L; subst h0; reflexivity.
Qed.

Lemma i2c_read16_holds_lock (fuel : nat) (p addr offset data b0 b1 : Z) :
  holds_port_lock p
    (i2c_read16 env tbl gl scl_read_first
        TASK_EVENT_TIMER TASK_EVENT_I2C_IDLE TASK_ID_INVALID
       I2C_FLAG_BIG_ENDIAN fuel p addr offset data b0 b1).
Proof.
  unfold i2c_read16. cbv zeta. apply holds_port_lock_wrap; [apply port_of_transfer|].
  intros [rv buf] h. destruct (ec_is_success rv); [|reflexivity].
  unfold bind. pose proof (load_pure buf 0 h) as L.
  destruct (load buf 0 h) as [[v|w] h0]; simpl in L; subst h0; [|reflexivity].
  pose proof (load_pure buf 1 h) as L1.
  destruct (load buf 1 h) as [[v1|w1] h1]; simpl in L1; subst h1; [|reflexivity].
  destruct (negb _); reflexivity.
Qed.

Lemma i2c_write8_holds_lock (fuel : nat) (p addr offset data : Z) :
  holds_port_lock p
    (i2c_write8 env tbl gl scl_read_first
        TASK_EVENT_TIMER TASK_EVENT_I2C_IDLE TASK_ID_INVALID
       fuel p addr offset data).
Proof.
  unfold i2c_write8. cbv zeta. apply holds_port_lock_wrap; [apply port_of_transfer|].
  reflexivity.
Qed.

Lemma i2c_write16_holds_lock (fuel : nat) (p addr offset data : Z) :
  holds_port_lock p
    (i2c_write16 env tbl gl scl_read_first
        TASK_EVENT_TIMER TASK_EVENT_I2C_IDLE TASK_ID_INVALID
       I2C_FLAG_BIG_ENDIAN fuel p addr offset data).
Proof.
  unfold i2c_write16. cbv zeta. apply holds_port_lock_wrap; [apply port_of_transfer|].
  reflexivity.
Qed.

Lemma i2c_read_string_holds_lock (fuel : nat) (p addr offset : Z) (data : list Z)
    (len bl0 : Z) :
  holds_port_lock p
    (i2c_read_string env tbl gl scl_read_first
        TASK_EVENT_TIMER TASK_EVENT_I2C_IDLE TASK_ID_INVALID
       fuel p addr offset data len bl0).
Proof.
  intros h. unfold i2c_read_string, mutex_lock, mutex_unlock. cbv zeta.
  rewrite (bind_run _ _ _ _ _ (emit_run _ _)).
  set (lock := MutexLock (port_mutex p)). set (unlock := MutexUnlock (port_mutex p)).
  match goal with |- context [bind (i2c_transmit_receive' ?f ?q ?a ?tx ?ts ?rx ?rs ?st ?sp) _ ?h1] =>
    destruct (port_of_transfer q f a tx ts rx rs st sp h1) as (r & t1 & R & F1) end.
  destruct r as [[rv lenbuf]|w].
  2:{ rewrite (bind_stuck _ _ _ _ _ R). exists (Stuck w), (lock :: t1).
      split; [rewrite <- !app_assoc; reflexivity | discriminate]. }
  rewrite (bind_run _ _ _ _ _ R).
  destruct (ec_is_success rv).
  2:{ rewrite (bind_run _ _ _ _ _ (emit_run _ _)).
      eexists _, (lock :: t1 ++ [unlock]).
      split; [unfold ret; rewrite <- !app_assoc; reflexivity|].
      intros a _. exists t1. split; [reflexivity|].
      apply (forallb_no_port_mutex p). exact F1. }
  unfold bind at 1.
  pose proof (load_pure lenbuf 0 ((h ++ [lock]) ++ t1)) as L.
  destruct (load lenbuf 0 _) as [[bl|w] h0]; simpl in L; subst h0.
  2:{ exists (Stuck w), (lock :: t1).
      split; [rewrite <- !app_assoc; reflexivity | discriminate]. }
  match goal with |- context [bind (i2c_transmit_receive' ?f ?q ?a ?tx ?ts ?rx ?rs ?st ?sp) _ ?h1] =>
    destruct (port_of_transfer q f a tx ts rx rs st sp h1) as (r2 & t2 & R2 & F2) end.
  destruct r2 as [[rv2 data']|w].
  2:{ rewrite (bind_stuck _ _ _ _ _ R2). exists (Stuck w), (lock :: t1 ++ t2).
      split; [rewrite <- !app_assoc; reflexivity | discriminate]. }
  rewrite (bind_run _ _ _ _ _ R2).
  unfold store. destruct ((0 <=? _) && _).
  2:{ exists (Stuck OutOfBounds), (lock :: t1 ++ t2).
      split; [unfold bind, stop_with; rewrite <- !app_assoc; reflexivity | discriminate]. }
  unfold bind at 1, ret at 1.
  rewrite (bind_run _ _ _ _ _ (emit_run _ _)).
  eexists _, (lock :: (t1 ++ t2) ++ [unlock]).
  split; [unfold ret; rewrite <- !app_assoc; reflexivity|].
  intros a _. exists (t1 ++ t2). split; [reflexivity|].
  rewrite forallb_app, (forallb_no_port_mutex p _ F1), (forallb_no_port_mutex p _ F2).
  reflexivity.
Qed.

(** X6.  Every register access of the driver runs under the lock of its port:
    when [i2c_read8], [i2c_read16], [i2c_write8], [i2c_write16] or
    [i2c_read_string] returns, with success or with an error, it has taken
    the lock of the port first, released it last, and touched no port lock
    in between. *)
Theorem i2c_accessors_hold_port_lock (fuel : nat) (p addr offset data x0 x1 : Z)
    (buf : list Z) (len : Z) :
  holds_port_lock p
    (i2c_read8 env tbl gl scl_read_first
        TASK_EVENT_TIMER TASK_EVENT_I2C_IDLE TASK_ID_INVALID
       fuel p addr offset data x0) /\
  holds_port_lock p
    (i2c_read16 env tbl gl scl_read_first
        TASK_EVENT_TIMER TASK_EVENT_I2C_IDLE TASK_ID_INVALID
       I2C_FLAG_BIG_ENDIAN fuel p addr offset data x0 x1) /\
  holds_port_lock p
    (i2c_write8 env tbl gl scl_read_first
        TASK_EVENT_TIMER TASK_EVENT_I2C_IDLE TASK_ID_INVALID
       fuel p addr offset data) /\
  holds_port_lock p
    (i2c_write16 env tbl gl scl_read_first
        TASK_EVENT_TIMER TASK_EVENT_I2C_IDLE TASK_ID_INVALID
       I2C_FLAG_BIG_ENDIAN fuel p addr offset data) /\
  holds_port_lock p
    (i2c_read_string env tbl gl scl_read_first
        TASK_EVENT_TIMER TASK_EVENT_I2C_IDLE TASK_ID_INVALID
       fuel p addr offset buf len x0).
Proof.
  split; [apply i2c_read8_holds_lock|].
  split; [apply i2c_read16_holds_lock|].
  split; [apply i2c_write8_holds_lock|].
  split; [apply i2c_write16_holds_lock|].
  apply i2c_read_string_holds_lock.
Qed.

End Locks.

(** ** What a write puts on the bus *)

Lemma mdr_writes_app (p : Z) (t1 t2 : list event) :
  mdr_writes p (t1 ++ t2) = mdr_writes p t1 ++ mdr_writes p t2.
Proof.
  induction t1 as [|x t1 IH]; [reflexivity|].
  destruct x as [| [[] q|] w | | | | | | | | | | | | | | |]; simpl; rewrite ?IH;
    try reflexivity.
  destruct (q =? p); simpl; rewrite ?IH; reflexivity.
Qed.

Lemma msa_writes_app (p : Z) (t1 t2 : list event) :
  msa_writes p (t1 ++ t2) = msa_writes p t1 ++ msa_writes p t2.
Proof.
  induction t1 as [|x t1 IH]; [reflexivity|].
  destruct x as [| [[] q|] w | | | | | | | | | | | | | | |]; simpl; rewrite ?IH;
    try reflexivity.
  destruct (q =? p); simpl; rewrite ?IH; reflexivity.
Qed.

Lemma mdr_writes_quiet (p : Z) (tr : list event) :
  forallb (fun x => negb (issue_event x)) tr = true -> mdr_writes p tr = [].
Proof.
  induction tr as [|x tr IH]; [reflexivity|]. simpl.
  intros H. apply andb_true_iff in H. destruct H as [Hx Ht].
  destruct x as [| [[] q|] w | | | | | | | | | | | | | | |]; simpl in *;
    try discriminate; auto.
Qed.

Lemma msa_writes_quiet (p : Z) (tr : list event) :
  forallb (fun x => negb (issue_event x)) tr = true -> msa_writes p tr = [].
Proof.
  induction tr as [|x tr IH]; [reflexivity|]. simpl.
  intros H. apply andb_true_iff in H. destruct H as [Hx Ht].
  destruct x as [| [[] q|] w | | | | | | | | | | | | | | |]; simpl in *;
    try discriminate; auto.
Qed.

Lemma wait_is_quiet (tr : list event) :
  forallb wait_event tr = true -> forallb (fun x => negb (issue_event x)) tr = true.
Proof.
  rewrite !forallb_forall. intros H x Hx. apply wait_is_not_issue. auto.
Qed.

Section Writes.

Variable env : environment.
Variable tbl : list i2c_port_t.
Variable gl : Z -> gpio_info.
Variable scl_read_first : bool.
Variable TASK_EVENT_TIMER : Z.
Variable TASK_EVENT_I2C_IDLE : Z.
Variable TASK_ID_INVALID : Z.
Variable I2C_FLAG_BIG_ENDIAN : Z.

Local Abbreviation wait_idle' :=
  (wait_idle env TASK_EVENT_TIMER TASK_EVENT_I2C_IDLE TASK_ID_INVALID).
Local Abbreviation transmit_loop' :=
  (transmit_loop env TASK_EVENT_TIMER TASK_EVENT_I2C_IDLE TASK_ID_INVALID).
Local Abbreviation i2c_transmit_phase' :=
  (i2c_transmit_phase env TASK_EVENT_TIMER TASK_EVENT_I2C_IDLE TASK_ID_INVALID).
Local Abbreviation i2c_transmit_receive' :=
  (i2c_transmit_receive env tbl gl scl_read_first
      TASK_EVENT_TIMER TASK_EVENT_I2C_IDLE TASK_ID_INVALID).

(** The control word the transmit loop builds for a byte. *)
Local Abbreviation control_word first last :=
  (if last
   then Z.lor (if first then Z.lor LM4_I2C_MCS_RUN LM4_I2C_MCS_START
               else LM4_I2C_MCS_RUN) LM4_I2C_MCS_STOP
   else if first then Z.lor LM4_I2C_MCS_RUN LM4_I2C_MCS_START
        else LM4_I2C_MCS_RUN).

(** The transmit loop: a data byte and a control word per byte it gets to,
    the bytes in the order of the buffer. *)
Lemma transmit_loop_words (fuel : nat) (p : Z) (d : list Z) (tsize rsize stop : Z)
    (left : nat) :
  forall i started h, 0 <= i ->
  exists r tr,
    transmit_loop' fuel p d tsize rsize stop left i started h = (r, h ++ tr) /\
    (length (mcs_writes p tr) <= left)%nat /\
    (forall st, r = Ok (None, st) -> length (mcs_writes p tr) = left) /\
    (forall rv st, r = Ok (Some rv, st) -> ec_is_success rv = false) /\
    mdr_writes p tr = take (length (mcs_writes p tr)) (drop (Z.to_nat i) d) /\
    msa_writes p tr = [] /\
    forall k w, mcs_writes p tr !! k = Some w ->
      w = control_word (Nat.eqb k 0 && negb started)
            (negb (stop =? 0) && (rsize =? 0) && (i + Z.of_nat k =? tsize - 1)).
Proof.
  induction left as [|left IH]; intros i started h Hi; cbn [transmit_loop].
  - exists (Ok (None, started)), []. unfold ret. rewrite app_nil_r.
    split; [reflexivity|]. split; [simpl; lia|]. split; [reflexivity|].
    split; [discriminate|]. split; [reflexivity|]. split; [reflexivity|].
    intros k w H. discriminate.
  - cbv zeta. unfold load.
    destruct (Z.ltb_spec i 0) as [Hneg|_]; [lia|].
    destruct (d !! Z.to_nat i) as [b|] eqn:Eb.
    2:{ exists (Stuck OutOfBounds), []. unfold bind, stop_with. rewrite app_nil_r.
        split; [reflexivity|]. split; [simpl; lia|]. split; [discriminate|].
        split; [discriminate|]. split; [reflexivity|]. split; [reflexivity|].
        intros k w H. discriminate. }
    unfold bind at 1, ret.
    rewrite (bind_run _ _ _ _ _ (reg_write_run _ _ _)).
    rewrite (bind_run _ _ _ _ _ (reg_write_run _ _ _)).
    match goal with |- context [Write (LM4_I2C MCS p) ?x] => set (w1 := x) end.
    assert (Hw1 : w1 = control_word (negb started)
                         (negb (stop =? 0) && (rsize =? 0) && (i =? tsize - 1))).
    { unfold w1. destruct started, (negb (stop =? 0) && (rsize =? 0) && (i =? tsize - 1));
        reflexivity. }
    clearbody w1.
    assert (Hdrop : drop (Z.to_nat i) d = b :: drop (Z.to_nat (i + 1)) d).
    { replace (Z.to_nat (i + 1)) with (S (Z.to_nat i)) by lia.
      apply drop_S. exact Eb. }
    match goal with |- context [bind _ _ ?h1] =>
      destruct (wait_idle_logs env TASK_EVENT_TIMER TASK_EVENT_I2C_IDLE
                  TASK_ID_INVALID fuel p h1) as (rw & tw & Rw & Lw) end.
    pose proof (mcs_writes_wait p tw Lw) as Mw.
    pose proof (mdr_writes_quiet p tw (wait_is_quiet tw Lw)) as Dw.
    pose proof (msa_writes_quiet p tw (wait_is_quiet tw Lw)) as Aw.
    assert (Hone : forall (r : res (option ec_error * bool)),
              (forall st, r <> Ok (None, st)) ->
              (forall rv st, r = Ok (Some rv, st) -> ec_is_success rv = false) ->
              let tr := Write (LM4_I2C MDR p) b :: Write (LM4_I2C MCS p) w1 :: tw in
              (length (mcs_writes p tr) <= S left)%nat /\
              (forall st, r = Ok (None, st) -> length (mcs_writes p tr) = S left) /\
              (forall rv st, r = Ok (Some rv, st) -> ec_is_success rv = false) /\
              mdr_writes p tr = take (length (mcs_writes p tr)) (drop (Z.to_nat i) d) /\
              msa_writes p tr = [] /\
              forall k w, mcs_writes p tr !! k = Some w ->
                w = control_word (Nat.eqb k 0 && negb started)
                      (negb (stop =? 0) && (rsize =? 0) &&
                       (i + Z.of_nat k =? tsize - 1))).
    { intros r Hr Hf. cbv zeta. simpl. rewrite Z.eqb_refl, Mw, Dw, Aw, Hdrop. simpl.
      split; [lia|]. split; [intros st E; destruct (Hr st E)|].
      split; [exact Hf|]. split; [reflexivity|]. split; [reflexivity|].
      intros [|k] w H; [|discriminate]. simpl in H. inversion H; subst w.
      rewrite Z.add_0_r. exact Hw1. }
    destruct rw as [rv|w].
    + rewrite (bind_run _ _ _ _ _ Rw). destruct (ec_is_success rv) eqn:Erv.
      * match goal with |- context [transmit_loop' _ _ _ _ _ _ _ _ _ ?h2] =>
          destruct (IH (i + 1) true h2 ltac:(lia))
            as (r & t3 & R3 & Len3 & Full3 & Fail3 & D3 & A3 & W3) end.
        exists r, (Write (LM4_I2C MDR p) b :: Write (LM4_I2C MCS p) w1 :: tw ++ t3).
        split; [rewrite R3, <- !app_assoc; reflexivity|].
        simpl. rewrite Z.eqb_refl, mcs_writes_app, mdr_writes_app, msa_writes_app,
          Mw, Dw, Aw, Hdrop. simpl.
        split; [lia|]. split; [intros st E; rewrite (Full3 st E); reflexivity|].
        split; [exact Fail3|]. split; [rewrite D3; reflexivity|].
        split; [exact A3|].
        intros [|k] w H.
        -- simpl in H. inversion H; subst w. rewrite Z.add_0_r. exact Hw1.
        -- simpl in H. rewrite (W3 k w H).
           replace (i + Z.of_nat (S k)) with (i + 1 + Z.of_nat k) by lia.
           simpl. rewrite andb_false_r. reflexivity.
      * exists (Ok (Some rv, true)),
          (Write (LM4_I2C MDR p) b :: Write (LM4_I2C MCS p) w1 :: tw).
        split; [unfold ret; rewrite <- !app_assoc; reflexivity|].
        apply Hone; [discriminate|]. intros rv' st E. inversion E; subst. exact Erv.
    + rewrite (bind_stuck _ _ _ _ _ Rw).
      exists (Stuck w), (Write (LM4_I2C MDR p) b :: Write (LM4_I2C MCS p) w1 :: tw).
      split; [rewrite <- !app_assoc; reflexivity|].
      apply Hone; discriminate.
Qed.

Lemma control_word_flags (first last : bool) :
  has_flag (control_word first last) LM4_I2C_MCS_RUN = true /\
  has_flag (control_word first last) LM4_I2C_MCS_START = first /\
  has_flag (control_word first last) LM4_I2C_MCS_STOP = last /\
  has_flag (control_word first last) LM4_I2C_MCS_ACK = false.
Proof. destruct first, last; repeat split; reflexivity. Qed.

(** X7.  The write phase of a transfer.  The slave address register gets the
    low 8 bits of the address, once, before the first byte.  There
    is a control word for each byte sent, [transmit_size] of them when the
    phase runs to its end.  Every control word has RUN; only the first one
    can have START, and it has it exactly when no START was sent before;
    only the last byte's can have STOP, and it has it exactly when the
    caller asked for a stop and no read phase follows; none has ACK. *)
Theorem i2c_transmit_phase_control_words (fuel : nat) (p addr : Z) (d : list Z)
    (tsize rsize stop : Z) (started : bool) (h : list event) :
  exists r tr,
    i2c_transmit_phase' fuel p addr (Some d) tsize rsize stop started h = (r, h ++ tr) /\
    msa_writes p tr = [Z.land addr 255] /\
    (length (mcs_writes p tr) <= Z.to_nat tsize)%nat /\
    (forall st, r = Ok (None, st) -> length (mcs_writes p tr) = Z.to_nat tsize) /\
    forall k w, mcs_writes p tr !! k = Some w ->
      has_flag w LM4_I2C_MCS_RUN = true /\
      has_flag w LM4_I2C_MCS_START = (Nat.eqb k 0 && negb started) /\
      has_flag w LM4_I2C_MCS_STOP =
        (negb (stop =? 0) && (rsize =? 0) && (Z.of_nat k =? tsize - 1)) /\
      has_flag w LM4_I2C_MCS_ACK = false.
Proof.
  unfold i2c_transmit_phase.
  rewrite (bind_run _ _ _ _ _ (reg_write_run _ _ _)).
  destruct (transmit_loop_words fuel p d tsize rsize stop (Z.to_nat tsize) 0 started
              (h ++ [Write (LM4_I2C MSA p) (Z.land addr 255)]) ltac:(lia))
    as (r & tr & R & Len & Full & _ & _ & A & W).
  exists r, (Write (LM4_I2C MSA p) (Z.land addr 255) :: tr).
  split; [rewrite R, <- app_assoc; reflexivity|].
  simpl. rewrite Z.eqb_refl, A.
  split; [reflexivity|]. split; [exact Len|]. split; [exact Full|].
  intros k w H. rewrite (W k w H). apply control_word_flags.
Qed.

(** A transfer that only writes, seen from the bus. *)
Lemma i2c_transmit_receive_write (fuel : nat) (p addr : Z) (d : list Z) (tsize : Z)
    (rx : list Z) (start stop : Z) (h : list event) :
  1 <= tsize ->
  exists r tr,
    i2c_transmit_receive' fuel p addr (Some d) tsize rx 0 start stop h = (r, h ++ tr) /\
    (length (mcs_writes p tr) <= Z.to_nat tsize)%nat /\
    mdr_writes p tr = take (length (mcs_writes p tr)) d /\
    (forall k w, mcs_writes p tr !! k = Some w ->
       w = control_word (Nat.eqb k 0 && negb (start =? 0))
             (negb (stop =? 0) && (Z.of_nat k =? tsize - 1))) /\
    forall rv buf, r = Ok (rv, buf) -> ec_is_success rv = true ->
      length (mcs_writes p tr) = Z.to_nat tsize /\
      msa_writes p tr = [Z.land addr 255].
Proof.
  intros Hsize. unfold i2c_transmit_receive. cbv zeta.
  destruct (Z.eqb_spec tsize 0) as [E|_]; [lia|]. cbn [andb].
  destruct (preflight_quiet env tbl gl scl_read_first p addr (start =? 0) h) as (r0 & t0 & R0 & Q0).
  pose proof (mcs_writes_quiet p t0 Q0) as M0.
  pose proof (mdr_writes_quiet p t0 Q0) as D0.
  pose proof (msa_writes_quiet p t0 Q0) as A0.
  destruct r0 as [[]|w0].
  2:{ rewrite (bind_stuck _ _ _ _ _ R0). exists (Stuck w0), t0.
      split; [reflexivity|]. rewrite M0, D0. simpl.
      split; [lia|]. split; [reflexivity|]. split; [discriminate | discriminate]. }
  rewrite (bind_run _ _ _ _ _ R0).
  unfold i2c_transmit_receive_phases, i2c_transmit_phase.
  rewrite bind_assoc.
  rewrite (bind_run _ _ _ _ _ (reg_write_run _ _ _)).
  set (msa := Write (LM4_I2C MSA p) (Z.land addr 255)).
  destruct (transmit_loop_words fuel p d tsize 0 stop (Z.to_nat tsize) 0 (start =? 0)
              ((h ++ t0) ++ [msa]) ltac:(lia))
    as (r1 & t1 & R1 & Len & Full & Fail & D1 & A1 & W1).
  assert (Hproj : forall t2, mcs_writes p t2 = [] -> mdr_writes p t2 = [] ->
            msa_writes p t2 = [] ->
            let tr := t0 ++ msa :: t1 ++ t2 in
            mcs_writes p tr = mcs_writes p t1 /\
            mdr_writes p tr = take (length (mcs_writes p t1)) d /\
            msa_writes p tr = [Z.land addr 255]).
  { intros t2 M2 D2 A2. cbv zeta.
    rewrite mcs_writes_app, mdr_writes_app, msa_writes_app, M0, D0, A0.
    unfold msa. simpl. rewrite Z.eqb_refl.
    rewrite mcs_writes_app, mdr_writes_app, msa_writes_app, M2, D2, A2, A1, D1.
    rewrite !app_nil_r. auto. }
  assert (Hwords : forall k w, mcs_writes p t1 !! k = Some w ->
            w = control_word (Nat.eqb k 0 && negb (start =? 0))
                  (negb (stop =? 0) && (Z.of_nat k =? tsize - 1))).
  { intros k w H. rewrite (W1 k w H). rewrite andb_true_r. reflexivity. }
  destruct r1 as [[[rv1|] st]|w1].
  - rewrite (bind_run _ _ _ _ _ R1). unfold ret.
    exists (Ok (rv1, rx)), (t0 ++ msa :: t1 ++ []).
    split; [rewrite app_nil_r, <- !app_assoc; reflexivity|].
    destruct (Hproj [] eq_refl eq_refl eq_refl) as (Pm & Pd & Pa).
    rewrite Pm, Pd. split; [exact Len|]. split; [reflexivity|].
    split; [exact Hwords|].
    intros rv buf E S. inversion E; subst.
    rewrite (Fail rv st eq_refl) in S. discriminate.
  - rewrite (bind_run _ _ _ _ _ R1).
    unfold i2c_receive_phase. cbn [Z.eqb]. unfold ret at 1.
    rewrite (bind_run _ _ _ _ _ eq_refl).
    rewrite (bind_run _ _ _ _ _ (reg_read_run env _ _)).
    match goal with |- context [Read (LM4_I2C MCS p) ?x] => set (v := x) end.
    destruct (Hproj [Read (LM4_I2C MCS p) v] eq_refl eq_refl eq_refl) as (Pm & Pd & Pa).
    exists (Ok (if Z.land v (Z.lor (Z.lor LM4_I2C_MCS_CLKTO LM4_I2C_MCS_ARBLST)
                                     LM4_I2C_MCS_ERROR) =? 0
                then EC_SUCCESS else EC_ERROR_UNKNOWN, rx)),
      (t0 ++ msa :: t1 ++ [Read (LM4_I2C MCS p) v]).
    split.
    { destruct (Z.land v _ =? 0); unfold ret; rewrite <- !app_assoc; reflexivity. }
    rewrite Pm, Pd. split; [exact Len|]. split; [reflexivity|].
    split; [exact Hwords|].
    intros rv buf _ _. split; [exact (Full st eq_refl) | exact Pa].
  - rewrite (bind_stuck _ _ _ _ _ R1).
    exists (Stuck w1), (t0 ++ msa :: t1 ++ []).
    split; [rewrite app_nil_r, <- !app_assoc; reflexivity|].
    destruct (Hproj [] eq_refl eq_refl eq_refl) as (Pm & Pd & Pa).
    rewrite Pm, Pd. split; [exact Len|]. split; [reflexivity|].
    split; [exact Hwords | discriminate].
Qed.

Lemma uint8_low (x : Z) : to_uint8 (Z.land x 255) = x mod 256.
Proof.
  unfold to_uint8. change 255 with (Z.ones 8). rewrite Z.land_ones by discriminate.
  change (2 ^ 8) with 256. apply Zmod_mod.
Qed.

Lemma uint8_high (x : Z) : to_uint8 (Z.land (Z.shiftr x 8) 255) = x / 256 mod 256.
Proof. rewrite uint8_low, Z.shiftr_div_pow2 by discriminate. reflexivity. Qed.

(** A register write: lock, a transfer of the bytes [d] with START and
    STOP, unlock. *)
Lemma i2c_write_run (fuel : nat) (p addr : Z) (d : list Z) (tsize : Z)
    (h : list event) :
  1 <= tsize ->
  exists r tr,
    (mutex_lock (port_mutex p);;
     let* r := i2c_transmit_receive' fuel p addr (Some d) tsize [] 0 START STOP in
     mutex_unlock (port_mutex p);;
     ret (fst r)) h = (r, h ++ tr) /\
    (length (mcs_writes p tr) <= Z.to_nat tsize)%nat /\
    mdr_writes p tr = take (length (mcs_writes p tr)) d /\
    (forall k w, mcs_writes p tr !! k = Some w ->
       w = control_word (Nat.eqb k 0) (Z.of_nat k =? tsize - 1)) /\
    (r = Ok EC_SUCCESS ->
     length (mcs_writes p tr) = Z.to_nat tsize /\
     msa_writes p tr = [Z.land addr 255]).
Proof.
  intros Hsize. unfold mutex_lock, mutex_unlock.
  rewrite (bind_run _ _ _ _ _ (emit_run _ _)).
  destruct (i2c_transmit_receive_write fuel p addr d tsize [] START STOP
              (h ++ [MutexLock (port_mutex p)]) Hsize)
    as (r & tr & R & Len & D & W & S).
  assert (W' : forall k w, mcs_writes p tr !! k = Some w ->
                 w = control_word (Nat.eqb k 0) (Z.of_nat k =? tsize - 1)).
  { intros k w H. rewrite (W k w H). simpl. rewrite andb_true_r. reflexivity. }
  destruct r as [[rv buf]|w].
  - rewrite (bind_run _ _ _ _ _ R).
    rewrite (bind_run _ _ _ _ _ (emit_run _ _)).
    exists (Ok rv),
      (MutexLock (port_mutex p) :: tr ++ [MutexUnlock (port_mutex p)]).
    split; [unfold ret; rewrite <- !app_assoc; reflexivity|].
    cbn [mcs_writes mdr_writes msa_writes].
    rewrite mcs_writes_app, mdr_writes_app, msa_writes_app. simpl.
    rewrite !app_nil_r.
    split; [exact Len|]. split; [exact D|]. split; [exact W'|].
    intros E. inversion E; subst rv. apply (S EC_SUCCESS buf eq_refl eq_refl).
  - rewrite (bind_stuck _ _ _ _ _ R).
    exists (Stuck w), (MutexLock (port_mutex p) :: tr).
    split; [rewrite <- !app_assoc; reflexivity|].
    cbn [mcs_writes mdr_writes msa_writes].
    split; [exact Len|]. split; [exact D|]. split; [exact W' | discriminate].
Qed.

(** The bytes and control words of [i2c_write16]. *)
Lemma i2c_write16_bus (fuel : nat) (p addr offset data : Z) (h : list event) :
  exists r tr,
    i2c_write16 env tbl gl scl_read_first
        TASK_EVENT_TIMER TASK_EVENT_I2C_IDLE TASK_ID_INVALID
      I2C_FLAG_BIG_ENDIAN fuel p addr offset data h = (r, h ++ tr) /\
    let bytes :=
      offset mod 256 ::
      (if Z.land addr I2C_FLAG_BIG_ENDIAN =? 0
       then [data mod 256; data / 256 mod 256]
       else [data / 256 mod 256; data mod 256]) in
    (length (mcs_writes p tr) <= 3)%nat /\
    mdr_writes p tr = take (length (mcs_writes p tr)) bytes /\
    (r = Ok EC_SUCCESS ->
     msa_writes p tr = [Z.land addr 255] /\
     mdr_writes p tr = bytes /\
     mcs_writes p tr = [3; 1; 5]).
Proof.
  unfold i2c_write16. cbv zeta.
  match goal with |- context [Some ?l] => set (d := l) end.
  assert (Hd : d = offset mod 256 ::
                 (if Z.land addr I2C_FLAG_BIG_ENDIAN =? 0
                  then [data mod 256; data / 256 mod 256]
                  else [data / 256 mod 256; data mod 256])).
  { unfold d.
    destruct (Z.land addr I2C_FLAG_BIG_ENDIAN =? 0); simpl;
      rewrite uint8_high, !uint8_low; reflexivity. }
  destruct (i2c_write_run fuel p addr d 3 h ltac:(lia)) as (r & tr & R & Len & D & W & S).
  exists r, tr. split; [exact R|]. rewrite <- Hd.
  split; [exact Len|]. split; [exact D|].
  intros E. destruct (S E) as (N & A). split; [exact A|].
  split.
  { rewrite D, N. apply take_ge. rewrite Hd.
    destruct (Z.land addr I2C_FLAG_BIG_ENDIAN =? 0); simpl; lia. }
  destruct (mcs_writes p tr) as [|w0 [|w1 [|w2 [|? ?]]]]; try discriminate N.
  rewrite (W 0%nat w0 eq_refl), (W 1%nat w1 eq_refl), (W 2%nat w2 eq_refl).
  reflexivity.
Qed.

(** X8.  [i2c_write16] on the bus.  It sends the low 8 bits of the offset and
    then the two bytes of the low 16 bits of [data], the high byte first
    when the slave address carries [I2C_FLAG_BIG_ENDIAN], the low byte
    first otherwise.  However the call ends, the bytes written to the data
    register are an initial part of these three, with one control word
    each.  When it returns success all three went out, to the address given
    (low 8 bits), with the control words 3, 1, 5: RUN and START, RUN, RUN
    and STOP. *)
Theorem i2c_write16_on_the_wire (fuel : nat) (p addr offset data : Z) (h : list event) :
  exists r tr,
    i2c_write16 env tbl gl scl_read_first
        TASK_EVENT_TIMER TASK_EVENT_I2C_IDLE TASK_ID_INVALID
      I2C_FLAG_BIG_ENDIAN fuel p addr offset data h = (r, h ++ tr) /\
    let bytes :=
      offset mod 256 ::
      (if Z.land addr I2C_FLAG_BIG_ENDIAN =? 0
       then [data mod 256; data / 256 mod 256]
       else [data / 256 mod 256; data mod 256]) in
    (length (mcs_writes p tr) <= 3)%nat /\
    mdr_writes p tr = take (length (mcs_writes p tr)) bytes /\
    (r = Ok EC_SUCCESS ->
     msa_writes p tr = [Z.land addr 255] /\
     mdr_writes p tr = bytes /\
     mcs_writes p tr = [3; 1; 5]).
Proof. apply i2c_write16_bus. Qed.

(** X9.  [i2c_write8] on the bus: the low 8 bits of the offset, then the low 8
    bits of [data].  However the call ends, the bytes written to the data
    register are an initial part of these two, with one control word each.
    When it returns success both went out, to the address given (low 8
    bits), with the control words 3 and 5: RUN and START, RUN and STOP. *)
Theorem i2c_write8_on_the_wire (fuel : nat) (p addr offset data : Z) (h : list event) :
  exists r tr,
    i2c_write8 env tbl gl scl_read_first
        TASK_EVENT_TIMER TASK_EVENT_I2C_IDLE TASK_ID_INVALID
      fuel p addr offset data h = (r, h ++ tr) /\
    let bytes := [offset mod 256; data mod 256] in
    (length (mcs_writes p tr) <= 2)%nat /\
    mdr_writes p tr = take (length (mcs_writes p tr)) bytes /\
    (r = Ok EC_SUCCESS ->
     msa_writes p tr = [Z.land addr 255] /\
     mdr_writes p tr = bytes /\
     mcs_writes p tr = [3; 5]).
Proof.
  unfold i2c_write8. cbv zeta. unfold to_uint8.
  destruct (i2c_write_run fuel p addr [offset mod 256; data mod 256] 2 h ltac:(lia))
    as (r & tr & R & Len & D & W & S).
  exists r, tr. split; [exact R|].
  split; [exact Len|]. split; [exact D|].
  intros E. destruct (S E) as (N & A). split; [exact A|].
  split; [rewrite D, N; reflexivity|].
  destruct (mcs_writes p tr) as [|w0 [|w1 [|? ?]]]; try discriminate N.
  rewrite (W 0%nat w0 eq_refl), (W 1%nat w1 eq_refl).
  reflexivity.
Qed.

End Writes.

(** ** What a read returns *)

Lemma lor_shiftl_byte (a b : Z) :
  0 <= b < 256 -> Z.lor (Z.shiftl a 8) b = 256 * a + b.
Proof.
  intros Hb. rewrite Z.shiftl_mul_pow2 by discriminate. change (2 ^ 8) with 256.
  rewrite (Z.mul_comm 256 a).
  assert (Hland : Z.land (a * 256) b = 0).
  { apply Z.bits_inj'. intros n Hn. rewrite Z.land_spec, Z.bits_0.
    destruct (Z.lt_ge_cases n 8) as [Hlt|Hge].
    - change 256 with (2 ^ 8). rewrite Z.mul_pow2_bits_low by exact Hlt. reflexivity.
    - assert (Z.testbit b n = false) as ->; [|apply andb_false_r].
      destruct (Z.eq_dec b 0) as [->|Hnz]; [apply Z.bits_0|].
      apply Z.bits_above_log2; [lia|].
      apply Z.lt_le_trans with 8; [|exact Hge].
      apply Z.log2_lt_pow2; [lia|]. change (2 ^ 8) with 256. lia. }
  rewrite <- (Z.lxor_lor _ _ Hland). symmetry. apply Z.add_nocarry_lxor. exact Hland.
Qed.

Lemma two_bytes (x : Z) : 256 * (x / 256 mod 256) + x mod 256 = x mod 65536.
Proof.
  change 65536 with (256 * 256). rewrite Z.rem_mul_r by first [discriminate | reflexivity].
  rewrite Z.add_comm. reflexivity.
Qed.

Lemma mod_256_range (x : Z) : 0 <= x mod 256 < 256.
Proof. apply Z.mod_pos_bound. reflexivity. Qed.

Lemma land_255_mod (x : Z) : Z.land x 255 = x mod 256.
Proof. change 255 with (Z.ones 8). rewrite Z.land_ones by discriminate. reflexivity. Qed.

Section Reads.

Variable env : environment.
Variable tbl : list i2c_port_t.
Variable gl : Z -> gpio_info.
Variable scl_read_first : bool.
Variable TASK_EVENT_TIMER : Z.
Variable TASK_EVENT_I2C_IDLE : Z.
Variable TASK_ID_INVALID : Z.
Variable I2C_FLAG_BIG_ENDIAN : Z.

Local Abbreviation i2c_transmit_receive' :=
  (i2c_transmit_receive env tbl gl scl_read_first
      TASK_EVENT_TIMER TASK_EVENT_I2C_IDLE TASK_ID_INVALID).
Local Abbreviation i2c_read16' :=
  (i2c_read16 env tbl gl scl_read_first TASK_EVENT_TIMER TASK_EVENT_I2C_IDLE TASK_ID_INVALID
     I2C_FLAG_BIG_ENDIAN).
Local Abbreviation i2c_read8' :=
  (i2c_read8 env tbl gl scl_read_first
      TASK_EVENT_TIMER TASK_EVENT_I2C_IDLE TASK_ID_INVALID).
Local Abbreviation i2c_write16' :=
  (i2c_write16 env tbl gl scl_read_first
      TASK_EVENT_TIMER TASK_EVENT_I2C_IDLE TASK_ID_INVALID
     I2C_FLAG_BIG_ENDIAN).

(** A successful [i2c_read16] read two bytes and assembled them. *)
Lemma i2c_read16_bus (fuel : nat) (p addr offset data b0 b1 : Z) (h tr : list event)
    (v : Z) :
  i2c_read16' fuel p addr offset data b0 b1 h = (Ok (EC_SUCCESS, v), h ++ tr) ->
  exists x0 x1,
    mdr_reads p tr = [x0; x1] /\
    v = (if Z.land addr I2C_FLAG_BIG_ENDIAN =? 0
         then 256 * (x1 mod 256) + x0 mod 256
         else 256 * (x0 mod 256) + x1 mod 256).
Proof.
  unfold i2c_read16, mutex_lock, mutex_unlock. cbv zeta.
  rewrite (bind_run _ _ _ _ _ (emit_run _ _)).
  match goal with |- context [bind (i2c_transmit_receive' ?f ?q ?a ?tx ?ts ?rx ?rs ?st ?sp) _ ?h1] =>
    destruct (i2c_transmit_receive_buf env tbl gl scl_read_first
        TASK_EVENT_TIMER TASK_EVENT_I2C_IDLE
                TASK_ID_INVALID f q a tx ts rx rs st sp h1)
      as (r & t1 & R & S); [lia | simpl; lia |] end.
  destruct r as [[rv buf]|w].
  2:{ rewrite (bind_stuck _ _ _ _ _ R). discriminate. }
  rewrite (bind_run _ _ _ _ _ R).
  rewrite (bind_run _ _ _ _ _ (emit_run _ _)).
  cbv zeta in S. destruct S as (_ & B & F).
  destruct (ec_is_success rv) eqn:Erv.
  2:{ unfold ret. intros E. inversion E; subst. discriminate. }
  specialize (F eq_refl).
  destruct (mdr_reads p t1) as [|x0 [|x1 [|? ?]]] eqn:Ev; try discriminate F.
  simpl in B. subst buf.
  unfold load. simpl. unfold bind, ret.
  rewrite !land_255_mod.
  intros E.
  assert (Htr : tr = MutexLock (port_mutex p) :: t1 ++ [MutexUnlock (port_mutex p)]).
  { destruct (negb _); inversion E as [[Hv Hh]];
      rewrite <- !app_assoc in Hh; apply app_inv_head in Hh; symmetry; exact Hh. }
  exists x0, x1. split.
  { rewrite Htr. cbn [mdr_reads]. rewrite mdr_reads_app, Ev. reflexivity. }
  destruct (Z.land addr I2C_FLAG_BIG_ENDIAN =? 0); simpl in E;
    inversion E as [[Hv Hh]]; apply lor_shiftl_byte; apply mod_256_range.
Qed.

(** X10.  When [i2c_read16] returns success it has read two bytes from the data
    register and its value is made of the low 8 bits of each: the first
    byte is the high half when the slave address carries
    [I2C_FLAG_BIG_ENDIAN], the low half otherwise; the value lies between 0
    and 65535. *)
Theorem i2c_read16_value (fuel : nat) (p addr offset data b0 b1 : Z) (h tr : list event)
    (v : Z) :
  i2c_read16' fuel p addr offset data b0 b1 h = (Ok (EC_SUCCESS, v), h ++ tr) ->
  exists x0 x1,
    mdr_reads p tr = [x0; x1] /\
    v = (if Z.land addr I2C_FLAG_BIG_ENDIAN =? 0
         then 256 * (x1 mod 256) + x0 mod 256
         else 256 * (x0 mod 256) + x1 mod 256) /\
    0 <= v <= 65535.
Proof.
  intros H. destruct (i2c_read16_bus _ _ _ _ _ _ _ _ _ _ H) as (x0 & x1 & E & V).
  exists x0, x1. split; [exact E|]. split; [exact V|].
  pose proof (mod_256_range x0) as H0. pose proof (mod_256_range x1) as H1.
  revert V H0 H1. generalize (x0 mod 256), (x1 mod 256). intros y0 y1 V H0 H1.
  destruct (Z.land addr I2C_FLAG_BIG_ENDIAN =? 0); lia.
Qed.

(** X11.  Writing a word and reading it back.  If [i2c_write16] succeeded and a
    later [i2c_read16] with the same slave address (hence the same byte
    order) succeeds, reading from the data register the two bytes that the
    write sent after the offset, then the value read is [data] on 16
    bits. *)
Theorem i2c_write16_read16_round_trip (fuel fuel' : nat)
    (p addr offset offset' data data0 b0 b1 : Z) (h tw h' tr : list event) (v : Z) :
  i2c_write16' fuel p addr offset data h = (Ok EC_SUCCESS, h ++ tw) ->
  i2c_read16' fuel' p addr offset' data0 b0 b1 h' = (Ok (EC_SUCCESS, v), h' ++ tr) ->
  mdr_reads p tr = drop 1 (mdr_writes p tw) ->
  v = data mod 65536.
Proof.
  intros Hw Hr Hsame.
  destruct (i2c_write16_bus env tbl gl scl_read_first TASK_EVENT_TIMER TASK_EVENT_I2C_IDLE
              TASK_ID_INVALID I2C_FLAG_BIG_ENDIAN fuel p addr offset data h)
    as (r & tw' & Rw & Sw).
  rewrite Hw in Rw. inversion Rw as [[Hr' Ht]]. apply app_inv_head in Ht. subst r tw'.
  cbv zeta in Sw. destruct Sw as (_ & _ & Sw). destruct (Sw eq_refl) as (_ & D & _).
  destruct (i2c_read16_bus _ _ _ _ _ _ _ _ _ _ Hr) as (x0 & x1 & E & V).
  rewrite E, D in Hsame. subst v.
  destruct (Z.land addr I2C_FLAG_BIG_ENDIAN =? 0); simpl in Hsame;
    inversion Hsame; subst x0 x1; rewrite !Zmod_mod.
  - apply two_bytes.
  - apply two_bytes.
Qed.

(** X12.  When [i2c_read8] returns success it has read one byte from the data
    register and its value is the low 8 bits of that byte. *)
Theorem i2c_read8_value (fuel : nat) (p addr offset data val0 : Z) (h tr : list event)
    (rv : ec_error) (v : Z) :
  i2c_read8' fuel p addr offset data val0 h = (Ok (rv, v), h ++ tr) ->
  ec_is_success rv = true ->
  exists x, mdr_reads p tr = [x] /\ v = x mod 256 /\ 0 <= v <= 255.
Proof.
  unfold i2c_read8, mutex_lock, mutex_unlock. cbv zeta.
  rewrite (bind_run _ _ _ _ _ (emit_run _ _)).
  match goal with |- context [bind (i2c_transmit_receive' ?f ?q ?a ?tx ?ts ?rx ?rs ?st ?sp) _ ?h1] =>
    destruct (i2c_transmit_receive_buf env tbl gl scl_read_first
        TASK_EVENT_TIMER TASK_EVENT_I2C_IDLE
                TASK_ID_INVALID f q a tx ts rx rs st sp h1)
      as (r & t1 & R & S); [lia | simpl; lia |] end.
  destruct r as [[rv1 buf]|w].
  2:{ rewrite (bind_stuck _ _ _ _ _ R). discriminate. }
  rewrite (bind_run _ _ _ _ _ R).
  rewrite (bind_run _ _ _ _ _ (emit_run _ _)).
  cbv zeta in S. destruct S as (_ & B & F).
  destruct (ec_is_success rv1) eqn:Erv.
  2:{ unfold ret. intros E Hs. inversion E; subst. congruence. }
  specialize (F eq_refl).
  destruct (mdr_reads p t1) as [|x [|? ?]] eqn:Ev; try discriminate F.
  simpl in B. subst buf.
  unfold load. simpl. unfold bind, ret. rewrite land_255_mod.
  intros E _. inversion E as [[Hrv Hv Hh]].
  rewrite <- !app_assoc in Hh. apply app_inv_head in Hh. subst tr.
  exists x. split.
  { cbn [mdr_reads app]. rewrite mdr_reads_app, Ev. reflexivity. }
  split; [reflexivity|].
  pose proof (mod_256_range x) as Hx. revert Hx. generalize (x mod 256). intros; lia.
Qed.

End Reads.

Lemma i2c_read16_value_witness :
  exists x0 x1,
    mdr_reads 0
      (snd (i2c_read16 env_reads_word demo_ports demo_gpio_list true
              DEMO_EVENT_TIMER DEMO_EVENT_I2C_IDLE DEMO_TASK_ID_INVALID
              DEMO_FLAG_BIG_ENDIAN 1 0 22 8 0 0 0 [])) = [x0; x1] /\
    48879 = (if Z.land 22 DEMO_FLAG_BIG_ENDIAN =? 0
             then 256 * (x1 mod 256) + x0 mod 256
             else 256 * (x0 mod 256) + x1 mod 256) /\
    0 <= 48879 <= 65535.
Proof.
  apply (i2c_read16_value env_reads_word demo_ports demo_gpio_list true
           DEMO_EVENT_TIMER DEMO_EVENT_I2C_IDLE DEMO_TASK_ID_INVALID
           DEMO_FLAG_BIG_ENDIAN 1 0 22 8 0 0 0 []).
  vm_compute. reflexivity.
Defined.

Lemma i2c_write16_read16_round_trip_witness : 48879 = 245487 mod 65536.
Proof.
  apply (i2c_write16_read16_round_trip env_reads_word demo_ports demo_gpio_list true
           DEMO_EVENT_TIMER DEMO_EVENT_I2C_IDLE DEMO_TASK_ID_INVALID
           DEMO_FLAG_BIG_ENDIAN 1 1 0 22 8 8 245487 0 0 0
           []
           (snd (i2c_write16 env_reads_word demo_ports demo_gpio_list true
                   DEMO_EVENT_TIMER DEMO_EVENT_I2C_IDLE DEMO_TASK_ID_INVALID
                   DEMO_FLAG_BIG_ENDIAN 1 0 22 8 245487 []))
           []
           (snd (i2c_read16 env_reads_word demo_ports demo_gpio_list true
                   DEMO_EVENT_TIMER DEMO_EVENT_I2C_IDLE DEMO_TASK_ID_INVALID
                   DEMO_FLAG_BIG_ENDIAN 1 0 22 8 0 0 0 []))).
  - vm_compute. reflexivity.
  - vm_compute. reflexivity.
  - vm_compute. reflexivity.
Defined.

Lemma i2c_read8_value_witness :
  exists x,
    mdr_reads 0
      (snd (i2c_read8 env_long_block demo_ports demo_gpio_list true
              DEMO_EVENT_TIMER DEMO_EVENT_I2C_IDLE DEMO_TASK_ID_INVALID
              1 0 22 8 0 0 [])) = [x] /\
    200 = x mod 256 /\ 0 <= 200 <= 255.
Proof.
  apply (i2c_read8_value env_long_block demo_ports demo_gpio_list true
           DEMO_EVENT_TIMER DEMO_EVENT_I2C_IDLE DEMO_TASK_ID_INVALID
           1 0 22 8 0 0 [] _ EC_SUCCESS).
  - vm_compute. reflexivity.
  - reflexivity.
Defined.

(** ** Properties of a log as a whole *)

Section Traces.

Variable Q : list event -> Prop.
Hypothesis Q_nil : Q [].
Hypothesis Q_app : forall t1 t2, Q t1 -> Q t2 -> Q (t1 ++ t2).

Lemma trace_ret {A : Type} (a : A) : logs_trace Q (ret a).
Proof. intros h. exists (Ok a), []. rewrite app_nil_r. split; [reflexivity | exact Q_nil]. Qed.

Lemma trace_stop {A : Type} (w : stuck) : logs_trace Q (@stop_with A w).
Proof.
  intros h. exists (Stuck w), []. rewrite app_nil_r. split; [reflexivity | exact Q_nil].
Qed.

Lemma trace_emit (e : event) : Q [e] -> logs_trace Q (emit e).
Proof. intros He h. exists (Ok tt), [e]. split; [reflexivity | exact He]. Qed.

Lemma trace_ask (env : environment) (q : query) (obs : Z -> event) :
  (forall v, Q [obs v]) -> logs_trace Q (ask env q obs).
Proof. intros Ho h. eexists _, [_]. split; [reflexivity | apply Ho]. Qed.

Lemma trace_bind {A B : Type} (m : M A) (f : A -> M B) :
  logs_trace Q m -> (forall a, logs_trace Q (f a)) -> logs_trace Q (bind m f).
Proof.
  intros Hm Hf h. destruct (Hm h) as (r & t1 & R & Q1). destruct r as [a|w].
  - rewrite (bind_run _ _ _ _ _ R).
    destruct (Hf a (h ++ t1)) as (r2 & t2 & R2 & Q2).
    exists r2, (t1 ++ t2). split; [rewrite R2, app_assoc; reflexivity|].
    apply Q_app; assumption.
  - rewrite (bind_stuck _ _ _ _ _ R). exists (Stuck w), t1. auto.
Qed.

Lemma trace_of_logs {A : Type} (P : event -> bool) (m : M A) :
  (forall e, P e = true -> Q [e]) -> logs_only P m -> logs_trace Q m.
Proof.
  intros HP Hm h. destruct (Hm h) as (r & tr & R & F).
  exists r, tr. split; [exact R|]. clear R.
  induction tr as [|x tr IH]; [exact Q_nil|].
  simpl in F. apply andb_true_iff in F. destruct F as [Fx Ft].
  change (x :: tr) with ([x] ++ tr). apply Q_app; auto.
Qed.

End Traces.

(** ** No task stays registered *)

Section Registration.

Variable env : environment.
Variable tbl : list i2c_port_t.
Variable gl : Z -> gpio_info.
Variable scl_read_first : bool.
Variable TASK_EVENT_TIMER : Z.
Variable TASK_EVENT_I2C_IDLE : Z.
Variable TASK_ID_INVALID : Z.

Local Abbreviation INV := TASK_ID_INVALID.
Local Abbreviation clears := (clears_waiting INV).
Local Abbreviation wait_idle' :=
  (wait_idle env TASK_EVENT_TIMER TASK_EVENT_I2C_IDLE TASK_ID_INVALID).
Local Abbreviation i2c_transmit_receive' :=
  (i2c_transmit_receive env tbl gl scl_read_first
      TASK_EVENT_TIMER TASK_EVENT_I2C_IDLE TASK_ID_INVALID).

Lemma clears_nil : clears [].
Proof. intros q id0. left. reflexivity. Qed.

Lemma clears_app (t1 t2 : list event) : clears t1 -> clears t2 -> clears (t1 ++ t2).
Proof.
  intros H1 H2 q id0. rewrite fold_left_app.
  destruct (H1 q id0) as [E|E]; rewrite E; [apply H2|].
  destruct (H2 q INV) as [E2|E2]; right; exact E2.
Qed.

Lemma clears_raw (e : event) : raw_event e = true -> clears [e].
Proof.
  intros H q id0. left.
  destruct e as [| | | | | | | | | | |? ?| | | | |]; try reflexivity. discriminate.
Qed.

Ltac shape_clears :=
  repeat first
    [ progress intros
    | solve [auto with hw]
    | apply (trace_stop clears clears_nil)
    | apply (trace_ret clears clears_nil)
    | apply (trace_emit clears); intros ? ?; left; reflexivity
    | apply (trace_ask clears); intros ? ? ?; left; reflexivity
    | apply (trace_bind clears clears_app)
    | match goal with
      | |- logs_trace _ (match ?x with _ => _ end) => destruct x
      | |- logs_trace _ (if ?x then _ else _) => destruct x
      | |- logs_trace _ (let (_, _) := ?x in _) => destruct x
      end ].

Lemma wait_idle_clears (fuel : nat) (p : Z) : logs_trace clears (wait_idle' fuel p).
Proof. intros h. apply wait_idle_slot. Qed.

Lemma load_clears (buf : list Z) (i : Z) : logs_trace clears (load buf i).
Proof. unfold load. shape_clears. Qed.

Lemma store_clears (buf : list Z) (i v : Z) : logs_trace clears (store buf i v).
Proof. unfold store. shape_clears. Qed.

Lemma i2c_unwedge_clears (p : Z) : logs_trace clears (i2c_unwedge env tbl gl p).
Proof.
  apply (trace_of_logs clears clears_nil clears_app raw_event);
    [exact clears_raw | apply i2c_unwedge_logs].
Qed.

#[local] Hint Resolve wait_idle_clears load_clears store_clears i2c_unwedge_clears : hw.

Lemma transmit_loop_clears (fuel : nat) (p : Z) (d : list Z) (tsize rsize stop : Z)
    (left : nat) :
  forall i started,
    logs_trace clears
      (transmit_loop env TASK_EVENT_TIMER TASK_EVENT_I2C_IDLE TASK_ID_INVALID
         fuel p d tsize rsize stop left i started).
Proof.
  induction left as [|left IH]; intros i started; cbn [transmit_loop];
    unfold reg_write; cbv zeta; shape_clears.
Qed.

Lemma receive_loop_clears (fuel : nat) (p rsize stop : Z) (left : nat) :
  forall rx i started,
    logs_trace clears
      (receive_loop env TASK_EVENT_TIMER TASK_EVENT_I2C_IDLE TASK_ID_INVALID
         fuel p rx rsize stop left i started).
Proof.
  induction left as [|left IH]; intros rx i started; cbn [receive_loop];
    unfold reg_write, reg_read; cbv zeta; shape_clears.
Qed.

#[local] Hint Resolve transmit_loop_clears receive_loop_clears : hw.

Lemma i2c_transmit_receive_clears (fuel : nat) (p addr : Z) (tx : option (list Z))
    (tsize : Z) (rx : list Z) (rsize start stop : Z) :
  logs_trace clears (i2c_transmit_receive' fuel p addr tx tsize rx rsize start stop).
Proof.
  unfold i2c_transmit_receive, i2c_transmit_receive_preflight,
    i2c_transmit_receive_stale, i2c_transmit_receive_recover,
    i2c_transmit_receive_phases, i2c_transmit_phase, i2c_receive_phase,
    i2c_get_line_levels, reg_read, reg_write, cprintf, clock_wait_cycles, usleep.
  cbv zeta. shape_clears.
Qed.

(** X4.  No stale wake-up after a transfer.  If no task is registered for port
    [q] when a transfer starts (on [q] or on another port), none is when
    the transfer is over, however it ended: an interrupt of port [q] that
    arrives then acknowledges the interrupt status and posts no event to
    any task. *)
Theorem handle_interrupt_after_transfer (fuel : nat) (p addr : Z)
    (tx : option (list Z)) (tsize : Z) (rx : list Z) (rsize start stop : Z)
    (q : Z) (h : list event) :
  0 <= q < NUM_PORTS ->
  task_waiting_on_port h q = TASK_ID_INVALID ->
  let h' := snd (i2c_transmit_receive' fuel p addr tx tsize rx rsize start stop h) in
  let s := env h' (QRead (LM4_I2C MMIS q)) in
  task_waiting_on_port h' q = TASK_ID_INVALID /\
  handle_interrupt env TASK_EVENT_I2C_IDLE TASK_ID_INVALID q h' =
    (Ok tt, h' ++ [Read (LM4_I2C MMIS q) s; Write (LM4_I2C MICR q) s]).
Proof.
  intros Hq Hslot. cbv zeta.
  destruct (i2c_transmit_receive_clears fuel p addr tx tsize rx rsize start stop h)
    as (r & tr & R & C).
  rewrite R. cbn [snd].
  assert (Hafter : task_waiting_on_port (h ++ tr) q = TASK_ID_INVALID).
  { rewrite task_waiting_on_port_app, Hslot. destruct (C q INV) as [E|E]; exact E. }
  split; [exact Hafter|].
  assert (Hq' : (0 <=? q) && (q <? NUM_PORTS) = true).
  { apply andb_true_iff. split; [apply Z.leb_le | apply Z.ltb_lt]; lia. }
  rewrite (handle_interrupt_run env TASK_EVENT_I2C_IDLE TASK_ID_INVALID q _ Hq').
  cbv zeta. rewrite Hafter, Z.eqb_refl. reflexivity.
Qed.

End Registration.

Lemma handle_interrupt_after_transfer_witness :
  let h' := snd (i2c_transmit_receive env_busy_once demo_ports demo_gpio_list true
                   DEMO_EVENT_TIMER DEMO_EVENT_I2C_IDLE DEMO_TASK_ID_INVALID
                   2 0 22 (Some [8]) 1 [0] 1 START STOP
                   [StoreTaskWaiting 0 DEMO_TASK_ID_INVALID]) in
  let s := env_busy_once h' (QRead (LM4_I2C MMIS 0)) in
  task_waiting_on_port h' 0 = DEMO_TASK_ID_INVALID /\
  handle_interrupt env_busy_once DEMO_EVENT_I2C_IDLE DEMO_TASK_ID_INVALID 0 h' =
    (Ok tt, h' ++ [Read (LM4_I2C MMIS 0) s; Write (LM4_I2C MICR 0) s]).
Proof.
  apply (handle_interrupt_after_transfer env_busy_once demo_ports demo_gpio_list true
           DEMO_EVENT_TIMER DEMO_EVENT_I2C_IDLE DEMO_TASK_ID_INVALID
           2 0 22 (Some [8]) 1 [0] 1 START STOP 0
           [StoreTaskWaiting 0 DEMO_TASK_ID_INVALID]).
  - unfold NUM_PORTS. lia.
  - reflexivity.
Defined.

(** ** Ports without pins, ports that are not configured *)

Section Pins.

Variable env : environment.
Variable tbl : list i2c_port_t.
Variable gl : Z -> gpio_info.
Variable scl_read_first : bool.
Variable TASK_EVENT_TIMER : Z.
Variable TASK_EVENT_I2C_IDLE : Z.
Variable TASK_ID_INVALID : Z.
Variable p : Z.

(** X14.  A port of the table for which no pins are defined (SCL and SDA both 0)
    cannot be bit-banged, and the driver does not try: both lines read as
    1, as if idle, driving a line does nothing, raw mode is refused with
    [EC_ERROR_INVAL] and bus recovery fails with [EC_ERROR_UNKNOWN], all of
    it without a single access to the hardware. *)
Theorem i2c_unwedge_port_without_pins (e : i2c_port_t) (h : list event) :
  find_port tbl p = Some e -> scl e = 0 -> sda e = 0 ->
  i2c_raw_get_scl env tbl p h = (Ok 1, h) /\
  i2c_raw_get_sda env tbl p h = (Ok 1, h) /\
  (forall level, i2c_raw_set_scl tbl p level h = (Ok tt, h)) /\
  (forall level, i2c_raw_set_sda tbl p level h = (Ok tt, h)) /\
  (forall enable, i2c_raw_mode tbl gl p enable h = (Ok EC_ERROR_INVAL, h)) /\
  i2c_unwedge env tbl gl p h = (Ok EC_ERROR_UNKNOWN, h).
Proof.
  intros Hfind Hscl Hsda.
  unfold i2c_unwedge, i2c_raw_mode, i2c_raw_get_scl, i2c_raw_get_sda,
    i2c_raw_set_scl, i2c_raw_set_sda, get_scl_from_i2c_port, get_sda_from_i2c_port.
  rewrite Hfind, Hscl, Hsda. simpl. repeat split; reflexivity.
Qed.

(** X15.  A port that is missing from [i2c_ports] can be used until it needs
    recovery.  The first transfer that asks for a start and finds the status
    stale or the lines not idle runs into the ASSERT of the pin lookup: it
    does not return, and it has not issued a byte. *)
Theorem i2c_transmit_receive_unknown_port (fuel : nat) (addr : Z)
    (tx : option (list Z)) (tsize : Z) (rx : list Z) (rsize start stop : Z)
    (h : list event) :
  find_port tbl p = None ->
  (tsize =? 0) && (rsize =? 0) = false ->
  let m := env h (QRead (LM4_I2C MCS p)) in
  let l := Z.land (env (h ++ [Read (LM4_I2C MCS p) m]) (QRead (LM4_I2C MBMON p))) 3 in
  stale_port start m l = true ->
  exists tr,
    i2c_transmit_receive env tbl gl scl_read_first
        TASK_EVENT_TIMER TASK_EVENT_I2C_IDLE TASK_ID_INVALID
      fuel p addr tx tsize rx rsize start stop h = (Stuck AssertFailed, h ++ tr) /\
    forallb (fun x => negb (issue_event x)) tr = true.
Proof.
  intros Hfind Hsize m l Hstale.
  unfold stale_port in Hstale. apply andb_true_iff in Hstale.
  destruct Hstale as [Hstart Hbad]. apply negb_true_iff in Hstart.
  assert (Hrec : forall h0, exists tr,
            i2c_transmit_receive_recover env tbl gl scl_read_first p addr m h0 =
              (Stuck AssertFailed, h0 ++ tr) /\
            forallb (fun x => negb (issue_event x)) tr = true).
  { intros h0. unfold i2c_transmit_receive_recover.
    rewrite (bind_run _ _ _ _ _ (reg_read_run env _ _)).
    rewrite (bind_run _ _ _ _ _ (i2c_get_line_levels_run env _ _)).
    rewrite (bind_run _ _ _ _ _ (i2c_get_line_levels_run env _ _)).
    rewrite (bind_run _ _ _ _ _ (cprintf_run _ _)).
    unfold i2c_unwedge, i2c_raw_mode, get_sda_from_i2c_port. rewrite Hfind.
    unfold bind, stop_with.
    eexists [_; _; _; _]. split; [rewrite <- !app_assoc; reflexivity | reflexivity]. }
  unfold i2c_transmit_receive, i2c_transmit_receive_preflight,
    i2c_transmit_receive_stale.
  rewrite Hsize, Hstart.
  rewrite bind_assoc.
  rewrite (bind_run _ _ _ _ _ (reg_read_run env _ _)). fold m.
  destruct (negb (Z.land m (Z.lor LM4_I2C_MCS_CLKTO LM4_I2C_MCS_ARBLST) =? 0)) eqn:Ebits.
  - rewrite bind_assoc. unfold ret at 1. rewrite (bind_run _ _ _ _ _ eq_refl).
    destruct (Hrec (h ++ [Read (LM4_I2C MCS p) m])) as (tr & R & Q).
    rewrite (bind_stuck _ _ _ _ _ R).
    exists (Read (LM4_I2C MCS p) m :: tr).
    split; [rewrite <- app_assoc; reflexivity | exact Q].
  - simpl in Hbad. rewrite !bind_assoc.
    rewrite (bind_run _ _ _ _ _ (i2c_get_line_levels_run env _ _)). fold l.
    unfold ret at 1. rewrite (bind_run _ _ _ _ _ eq_refl). rewrite Hbad.
    match goal with |- context [bind _ _ ?h0] =>
      destruct (Hrec h0) as (tr & R & Q) end.
    rewrite (bind_stuck _ _ _ _ _ R).
    eexists (Read (LM4_I2C MCS p) m :: Read (LM4_I2C MBMON p) _ :: tr).
    split; [rewrite <- !app_assoc; reflexivity | exact Q].
Qed.

End Pins.

Lemma i2c_unwedge_port_without_pins_witness :
  let tbl := [ {| name := "spare"; port := 4; kbps := 100; scl := 0; sda := 0 |} ] in
  i2c_raw_get_scl env_scl_low tbl 4 [] = (Ok 1, []) /\
  i2c_raw_get_sda env_scl_low tbl 4 [] = (Ok 1, []) /\
  (forall level, i2c_raw_set_scl tbl 4 level [] = (Ok tt, [])) /\
  (forall level, i2c_raw_set_sda tbl 4 level [] = (Ok tt, [])) /\
  (forall enable, i2c_raw_mode tbl demo_gpio_list 4 enable [] = (Ok EC_ERROR_INVAL, [])) /\
  i2c_unwedge env_scl_low tbl demo_gpio_list 4 [] = (Ok EC_ERROR_UNKNOWN, []).
Proof.
  intros tbl.
  apply (i2c_unwedge_port_without_pins env_scl_low tbl demo_gpio_list 4
           {| name := "spare"; port := 4; kbps := 100; scl := 0; sda := 0 |} []);
    reflexivity.
Defined.

Lemma i2c_transmit_receive_unknown_port_witness :
  exists tr,
    i2c_transmit_receive env_clock_timeout demo_ports demo_gpio_list true
      DEMO_EVENT_TIMER DEMO_EVENT_I2C_IDLE DEMO_TASK_ID_INVALID
      1 5 22 (Some [0]) 1 [] 0 START STOP [] = (Stuck AssertFailed, [] ++ tr) /\
    forallb (fun x => negb (issue_event x)) tr = true.
Proof.
  apply (i2c_transmit_receive_unknown_port env_clock_timeout demo_ports demo_gpio_list true
           DEMO_EVENT_TIMER DEMO_EVENT_I2C_IDLE DEMO_TASK_ID_INVALID
           5 1 22 (Some [0]) 1 [] 0 START STOP []); reflexivity.
Defined.

(** ** Clock recalibration: the edges *)

(** X16.  A table entry with a target of 0 kHz stops the recalibration: the
    divisor computation divides by zero.  The ports before that entry have
    been programmed, the entry itself and the ports after it have not, and
    the function does not return. *)
Theorem i2c_freq_changed_zero_kbps (env : environment)
    (pre : list i2c_port_t) (e : i2c_port_t) (post : list i2c_port_t)
    (h : list event) :
  kbps e = 0 ->
  Forall (fun x => i2c_d (kbps x) <> 0) pre ->
  exists ds,
    length ds = length pre /\
    i2c_freq_changed env (pre ++ e :: post) h =
      (Stuck DivideByZero,
       h ++ ClockGetFreq (env h QClockFreq) ::
            zip_with (fun x d => Write (LM4_I2C MTPR (port x)) d) pre ds).
Proof.
  intros He Hpre. unfold i2c_freq_changed.
  assert (Hclock : clock_get_freq env h =
                     (Ok (env h QClockFreq), h ++ [ClockGetFreq (env h QClockFreq)]))
    by reflexivity.
  rewrite (bind_run _ _ _ _ _ Hclock). clear Hclock.
  set (freq := env h QClockFreq).
  assert (Hloop : forall h0, exists ds,
            length ds = length pre /\
            i2c_freq_changed_loop freq (pre ++ e :: post) h0 =
              (Stuck DivideByZero,
               h0 ++ zip_with (fun x d => Write (LM4_I2C MTPR (port x)) d) pre ds)).
  { induction Hpre as [|x pre Hx Hpre IH]; intros h0.
    - exists []. split; [reflexivity|]. simpl.
      unfold i2c_tpr. rewrite He. rewrite app_nil_r. reflexivity.
    - simpl. unfold i2c_tpr. apply Z.eqb_neq in Hx. rewrite Hx.
      rewrite (bind_run _ _ _ _ _ (reg_write_run _ _ _)).
      match goal with |- context [Write (LM4_I2C MTPR (port x)) ?v] => set (d := v) end.
      destruct (IH (h0 ++ [Write (LM4_I2C MTPR (port x)) d])) as (ds & L & R).
      exists (d :: ds). split; [simpl; rewrite L; reflexivity|].
      rewrite R, <- app_assoc. reflexivity. }
  destruct (Hloop (h ++ [ClockGetFreq freq])) as (ds & L & R).
  exists ds. split; [exact L|].
  rewrite (bind_stuck _ _ _ _ _ R), <- app_assoc. reflexivity.
Qed.

Lemma i2c_freq_changed_zero_kbps_witness :
  exists ds,
    length ds = length [demo_port 0] /\
    i2c_freq_changed env_idle
      ([demo_port 0] ++
       {| name := "off"; port := 2; kbps := 0; scl := 14; sda := 15 |} :: [demo_port 1])
      [] =
      (Stuck DivideByZero,
       [] ++ ClockGetFreq (env_idle [] QClockFreq) ::
             zip_with (fun x d => Write (LM4_I2C MTPR (port x)) d) [demo_port 0] ds).
Proof.
  apply (i2c_freq_changed_zero_kbps env_idle [demo_port 0]
           {| name := "off"; port := 2; kbps := 0; scl := 14; sda := 15 |}
           [demo_port 1] []).
  - reflexivity.
  - constructor; [vm_compute; discriminate | constructor].
Defined.

Lemma ceil_div_form (C d : Z) : 0 < d -> (C + d - 1) / d = (C - 1) / d + 1.
Proof.
  intros Hd. replace (C + d - 1) with (C - 1 + 1 * d) by lia.
  apply Z.div_add. lia.
Qed.

(** X17.  In the range where the computation does not overflow, the divisor
    moves the right way and never goes negative: a faster system clock
    never gives a smaller divisor, a faster bus target never gives a larger
    one. *)
Theorem i2c_tpr_monotone (C1 C2 F1 F2 : Z) :
  0 < C1 <= C2 -> 0 < F1 <= F2 -> C2 + 20000 * F2 <= INT_MAX ->
  exists D11 D21 D12,
    i2c_tpr C1 F1 = Some D11 /\
    i2c_tpr C2 F1 = Some D21 /\
    i2c_tpr C1 F2 = Some D12 /\
    0 <= D12 <= D11 /\ D11 <= D21.
Proof.
  intros HC HF Hb.
  rewrite (i2c_tpr_exact C1 F1), (i2c_tpr_exact C2 F1), (i2c_tpr_exact C1 F2) by lia.
  eexists _, _, _. repeat (split; [reflexivity|]).
  rewrite !ceil_div_form by lia.
  assert (H0 : 0 <= (C1 - 1) / (20000 * F2)) by (apply Z.div_pos; lia).
  assert (H1 : (C1 - 1) / (20000 * F2) <= (C1 - 1) / (20000 * F1))
    by (apply Z.div_le_compat_l; lia).
  assert (H2 : (C1 - 1) / (20000 * F1) <= (C2 - 1) / (20000 * F1))
    by (apply Z.div_le_mono; lia).
  revert H0 H1 H2.
  generalize ((C1 - 1) / (20000 * F2)), ((C1 - 1) / (20000 * F1)),
    ((C2 - 1) / (20000 * F1)).
  intros; lia.
Qed.

Lemma i2c_tpr_monotone_witness :
  exists D11 D21 D12,
    i2c_tpr 16000000 100 = Some D11 /\
    i2c_tpr 66666667 100 = Some D21 /\
    i2c_tpr 16000000 400 = Some D12 /\
    0 <= D12 <= D11 /\ D11 <= D21.
Proof.
  apply (i2c_tpr_monotone 16000000 66666667 100 400); unfold INT_MAX; lia.
Defined.

(** ** Bus recovery never leaves a pin as an input *)

Lemma inputs_restored_nil : inputs_restored [].
Proof. intros [|x t1] g flags t2 E; discriminate E. Qed.

Lemma inputs_restored_one (e : event) :
  (forall g flags, e = GpioSetFlags g flags -> ~ In GPIO_INPUT flags) ->
  inputs_restored [e].
Proof.
  intros He [|x [|y t1]] g flags t2 E Hin; try discriminate E.
  inversion E; subst. destruct (He g flags eq_refl Hin).
Qed.

Lemma inputs_restored_app (t1 t2 : list event) :
  inputs_restored t1 -> inputs_restored t2 -> inputs_restored (t1 ++ t2).
Proof.
  intros H1 H2 a g flags b E Hin.
  apply app_eq_app in E. destruct E as (l & [[Ea Eb] | [Ea Eb]]).
  - destruct l as [|x l].
    + (* the switch is the head of [t2] *)
      simpl in Eb. symmetry in Eb. exact (H2 [] g flags b Eb Hin).
    + (* the switch is in [t1] *)
      simpl in Eb. inversion Eb; subst x b. clear Eb.
      destruct (H1 a g flags l Ea Hin) as (v & t3 & ->).
      exists v, (t3 ++ t2). reflexivity.
  - (* the switch is in [t2] *)
    exact (H2 l g flags b Eb Hin).
Qed.

Section Inputs.

Variable env : environment.
Variable tbl : list i2c_port_t.
Variable gl : Z -> gpio_info.
Variable p : Z.

Ltac shape_inputs :=
  repeat first
    [ progress intros
    | solve [auto with hw]
    | apply (trace_stop inputs_restored inputs_restored_nil)
    | apply (trace_ret inputs_restored inputs_restored_nil)
    | apply (trace_emit inputs_restored); apply inputs_restored_one;
      intros ? ? E; inversion E; simpl; intuition discriminate
    | apply (trace_ask inputs_restored); intros ?; apply inputs_restored_one;
      intros ? ? E; inversion E
    | apply (trace_bind inputs_restored inputs_restored_app)
    | match goal with
      | |- logs_trace _ (match ?x with _ => _ end) => destruct x
      | |- logs_trace _ (if ?x then _ else _) => destruct x
      | |- logs_trace _ (let (_, _) := ?x in _) => destruct x
      end ].

(** One sample of a pin: the level as driven and, unless that is low, the
    true level with the pin switched to input and back. *)
Lemma sample_restores (g : Z) :
  logs_trace inputs_restored
    (let* l := gpio_get_level env g in
     if l =? 0 then ret 0
     else
       gpio_set_flags g [GPIO_INPUT];;
       let* r := gpio_get_level env g in
       gpio_set_flags g [GPIO_OUTPUT; GPIO_OPEN_DRAIN];;
       ret r).
Proof.
  intros h. unfold gpio_get_level, gpio_set_flags, ask.
  unfold bind at 1. destruct (env h (QGpioLevel g) =? 0).
  - eexists _, [_]. split; [reflexivity|].
    apply inputs_restored_one. intros g' flags E. discriminate E.
  - unfold bind, emit, ret. eexists _, [_; _; _; _].
    split; [rewrite <- !app_assoc; reflexivity|].
    intros [|x1 [|x2 [|x3 [|x4 [|x5 t1]]]]] g' flags t2 E Hin;
      try discriminate E; inversion E; subst.
    + eexists _, []. reflexivity.
    + simpl in Hin. intuition discriminate.
Qed.

Lemma raw_get_scl_restores : logs_trace inputs_restored (i2c_raw_get_scl env tbl p).
Proof.
  unfold i2c_raw_get_scl. apply (trace_bind inputs_restored inputs_restored_app).
  - unfold get_scl_from_i2c_port. shape_inputs.
  - intros [g|]; [apply sample_restores | shape_inputs].
Qed.

Lemma raw_get_sda_restores : logs_trace inputs_restored (i2c_raw_get_sda env tbl p).
Proof.
  unfold i2c_raw_get_sda. apply (trace_bind inputs_restored inputs_restored_app).
  - unfold get_sda_from_i2c_port. shape_inputs.
  - intros [g|]; [apply sample_restores | shape_inputs].
Qed.

#[local] Hint Resolve raw_get_scl_restores raw_get_sda_restores : hw.

Lemma raw_set_scl_restores (v : Z) : logs_trace inputs_restored (i2c_raw_set_scl tbl p v).
Proof.
  unfold i2c_raw_set_scl, get_scl_from_i2c_port, gpio_set_level. shape_inputs.
Qed.

Lemma raw_set_sda_restores (v : Z) : logs_trace inputs_restored (i2c_raw_set_sda tbl p v).
Proof.
  unfold i2c_raw_set_sda, get_sda_from_i2c_port, gpio_set_level. shape_inputs.
Qed.

Lemma raw_mode_restores (enable : Z) :
  logs_trace inputs_restored (i2c_raw_mode tbl gl p enable).
Proof.
  unfold i2c_raw_mode, get_scl_from_i2c_port, get_sda_from_i2c_port,
    gpio_set_level, gpio_set_flags, gpio_set_alternate_function, mutex_lock,
    mutex_unlock.
  shape_inputs.
Qed.

#[local] Hint Resolve raw_set_scl_restores raw_set_sda_restores raw_mode_restores : hw.

Lemma unwedge_wait_scl_restores (n : nat) :
  logs_trace inputs_restored (unwedge_wait_scl env tbl p n).
Proof.
  induction n as [|n IH]; cbn [unwedge_wait_scl]; unfold cprintf, udelay; shape_inputs.
Qed.

Lemma unwedge_clock_bits_restores (n : nat) :
  logs_trace inputs_restored (unwedge_clock_bits env tbl p n).
Proof.
  induction n as [|n IH]; cbn [unwedge_clock_bits]; unfold udelay; shape_inputs.
Qed.

#[local] Hint Resolve unwedge_wait_scl_restores unwedge_clock_bits_restores : hw.

Lemma unwedge_sda_attempts_restores (n : nat) :
  logs_trace inputs_restored (unwedge_sda_attempts env tbl p n).
Proof.
  induction n as [|n IH]; cbn [unwedge_sda_attempts]; unfold udelay; shape_inputs.
Qed.

#[local] Hint Resolve unwedge_sda_attempts_restores : hw.

(** X18.  Bus recovery never leaves a pin as an input.  However [i2c_unwedge]
    goes, every time it switches a pin to input (to see the true level of a
    line it does not drive low), the very next things it does are to sample
    that pin once and to switch it back to an open-drain output: wherever
    in its log a pin is given flags with [GPIO_INPUT] among them, the next
    two events are the sample of that pin and its switch back. *)
Theorem i2c_unwedge_restores_outputs (h : list event) :
  exists r tr,
    i2c_unwedge env tbl gl p h = (r, h ++ tr) /\
    forall t1 g flags t2,
      tr = t1 ++ GpioSetFlags g flags :: t2 ->
      In GPIO_INPUT flags ->
      exists v t3,
        t2 = GpioGetLevel g v :: GpioSetFlags g [GPIO_OUTPUT; GPIO_OPEN_DRAIN] :: t3.
Proof.
  revert h. change (logs_trace inputs_restored (i2c_unwedge env tbl gl p)).
  unfold i2c_unwedge, cprintf. shape_inputs.
Qed.

End Inputs.

(** ** The receive buffer keeps its size *)

Lemma returns_with_bind {A B : Type} (Ra : A -> Prop) (R : B -> Prop) (m : M A)
    (f : A -> M B) :
  returns_with Ra m -> (forall a, Ra a -> returns_with R (f a)) ->
  returns_with R (bind m f).
Proof.
  intros Hm Hf h b h' E. unfold bind in E.
  destruct (m h) as [[a|w] h1] eqn:Em; [|discriminate].
  exact (Hf a (Hm _ _ _ Em) _ _ _ E).
Qed.

Lemma returns_with_any {A : Type} (m : M A) : returns_with (fun _ => True) m.
Proof. intros h a h' _. exact I. Qed.

Lemma returns_with_ret {A : Type} (R : A -> Prop) (a : A) : R a -> returns_with R (ret a).
Proof. intros Ha h b h' E. inversion E; subst. exact Ha. Qed.

Lemma returns_with_stop {A : Type} (R : A -> Prop) (w : stuck) :
  returns_with R (@stop_with A w).
Proof. intros h b h' E. discriminate. Qed.

Section BufferSize.

Variable env : environment.
Variable tbl : list i2c_port_t.
Variable gl : Z -> gpio_info.
Variable scl_read_first : bool.
Variable TASK_EVENT_TIMER : Z.
Variable TASK_EVENT_I2C_IDLE : Z.
Variable TASK_ID_INVALID : Z.

Local Abbreviation i2c_transmit_receive' :=
  (i2c_transmit_receive env tbl gl scl_read_first
      TASK_EVENT_TIMER TASK_EVENT_I2C_IDLE TASK_ID_INVALID).

Lemma receive_loop_size (fuel : nat) (p rsize stop : Z) (left : nat) :
  forall rx i started,
    returns_with (fun r => length (snd r) = length rx)
      (receive_loop env TASK_EVENT_TIMER TASK_EVENT_I2C_IDLE TASK_ID_INVALID
         fuel p rx rsize stop left i started).
Proof.
  induction left as [|left IH]; intros rx i started; cbn [receive_loop].
  - apply returns_with_ret. reflexivity.
  - cbv zeta.
    apply (returns_with_bind (fun _ => True)); [apply returns_with_any|]. intros b _.
    apply (returns_with_bind (fun _ => True)); [apply returns_with_any|]. intros _ _.
    apply (returns_with_bind (fun _ => True)); [apply returns_with_any|]. intros _ _.
    apply (returns_with_bind (fun _ => True)); [apply returns_with_any|]. intros rv _.
    destruct (ec_is_success rv); [|apply returns_with_ret; reflexivity].
    apply (returns_with_bind (fun _ => True)); [apply returns_with_any|]. intros v _.
    apply (returns_with_bind (fun buf => length buf = length rx)).
    + unfold store. destruct (_ && _); [|apply returns_with_stop].
      apply returns_with_ret. apply length_insert.
    + intros buf Hbuf h r h' E. rewrite <- Hbuf. exact (IH buf _ _ _ _ _ E).
Qed.

Lemma i2c_transmit_receive_size (fuel : nat) (p addr : Z) (tx : option (list Z))
    (tsize : Z) (rx : list Z) (rsize start stop : Z) :
  returns_with (fun r => length (snd r) = length rx)
    (i2c_transmit_receive' fuel p addr tx tsize rx rsize start stop).
Proof.
  unfold i2c_transmit_receive. cbv zeta.
  destruct (_ && _); [apply returns_with_ret; reflexivity|].
  apply (returns_with_bind (fun _ => True)); [apply returns_with_any|]. intros _ _.
  unfold i2c_transmit_receive_phases.
  apply (returns_with_bind (fun _ => True)); [apply returns_with_any|]. intros [[rv|] st] _;
    [apply returns_with_ret; reflexivity|].
  apply (returns_with_bind (fun r => length (snd r) = length rx)).
  - unfold i2c_receive_phase. destruct (rsize =? 0); [apply returns_with_ret; reflexivity|].
    cbv zeta.
    apply (returns_with_bind (fun _ => True)); [apply returns_with_any|]. intros _ _.
    apply receive_loop_size.
  - intros [[rv|] buf] Hbuf; simpl in Hbuf; [apply returns_with_ret; exact Hbuf|].
    apply (returns_with_bind (fun _ => True)); [apply returns_with_any|]. intros v _.
    destruct (_ =? 0); apply returns_with_ret; exact Hbuf.
Qed.


End BufferSize.


(** ** The console commands *)

Lemma lor_even_1 (k : Z) : Z.lor (2 * k) 1 = 2 * k + 1.
Proof.
  assert (Hland : Z.land (2 * k) 1 = 0).
  { apply Z.bits_inj'. intros n Hn. rewrite Z.land_spec, Z.bits_0.
    destruct (Z.eq_dec n 0) as [->|Hne].
    - rewrite Z.testbit_even_0. reflexivity.
    - change 1 with (2 ^ 0). rewrite Z.pow2_bits_false by lia. apply andb_false_r. }
  rewrite <- (Z.lxor_lor _ _ Hland). symmetry. apply Z.add_nocarry_lxor. exact Hland.
Qed.

Lemma seq_0_S (n : nat) : seq 0 (S n) = 0%nat :: map S (seq 0 n).
Proof. simpl. rewrite seq_shift. reflexivity. Qed.

Section Console.

Variable env : environment.
Variable tbl : list i2c_port_t.
Variable gl : Z -> gpio_info.
Variable TASK_EVENT_TIMER : Z.
Variable TASK_EVENT_I2C_IDLE : Z.
Variable TASK_ID_INVALID : Z.
Variable strtoi : string -> Z * string.
Variable sda_read_first : bool.

Local Abbreviation wait_idle' :=
  (wait_idle env TASK_EVENT_TIMER TASK_EVENT_I2C_IDLE TASK_ID_INVALID).
Local Abbreviation scan_bus_loop' :=
  (scan_bus_loop env TASK_EVENT_TIMER TASK_EVENT_I2C_IDLE TASK_ID_INVALID).
Local Abbreviation scan_bus' :=
  (scan_bus env TASK_EVENT_TIMER TASK_EVENT_I2C_IDLE TASK_ID_INVALID sda_read_first).

(** A wait, with everything known about its log. *)
Lemma wait_idle_quiet_on_port (fuel : nat) (p : Z) (h : list event) :
  exists r tr,
    wait_idle' fuel p h = (r, h ++ tr) /\
    forallb (on_port p) tr = true /\
    forallb wait_event tr = true.
Proof.
  destruct (wait_idle_logs env TASK_EVENT_TIMER TASK_EVENT_I2C_IDLE TASK_ID_INVALID
              fuel p h) as (r & tr & R & L).
  destruct (wait_idle_port env TASK_EVENT_TIMER TASK_EVENT_I2C_IDLE TASK_ID_INVALID
              p fuel h) as (r' & tr' & R' & L').
  rewrite R in R'. inversion R' as [[Hr Ht]]. apply app_inv_head in Ht. subst r' tr'.
  exists r, tr. auto.
Qed.

Lemma scan_bus_loop_run (fuel : nat) (p : Z) (left : nat) :
  forall a h, exists r tr,
    scan_bus_loop' fuel p left a h = (r, h ++ tr) /\
    forallb (on_port p) tr = true /\
    forall out, r = Ok out ->
      msa_writes p tr = map (fun k => Z.lor (a + 2 * Z.of_nat k) 1) (seq 0 left) /\
      mcs_writes p tr = repeat 7 left /\
      Forall (fun o => o = ConDot \/
                       exists k, (k < left)%nat /\ o = ConFound (a + 2 * Z.of_nat k)) out.
Proof.
  induction left as [|left IH]; intros a h; cbn [scan_bus_loop].
  - exists (Ok []), []. unfold ret. rewrite app_nil_r. split; [reflexivity|].
    split; [reflexivity|]. intros out E. inversion E. repeat split. constructor.
  - rewrite (bind_run _ _ _ _ _ (reg_write_run _ _ _)).
    rewrite (bind_run _ _ _ _ _ (reg_write_run _ _ _)).
    set (wa := Write (LM4_I2C MSA p) (Z.lor a 1)).
    set (wc := Write (LM4_I2C MCS p) 7).
    destruct (wait_idle_quiet_on_port fuel p ((h ++ [wa]) ++ [wc]))
      as (rw & tw & Rw & Pw & Lw).
    pose proof (mcs_writes_wait p tw Lw) as Mw.
    pose proof (msa_writes_quiet p tw (wait_is_quiet tw Lw)) as Aw.
    destruct rw as [rv|w].
    2:{ rewrite (bind_stuck _ _ _ _ _ Rw). exists (Stuck w), (wa :: wc :: tw).
        split; [rewrite <- !app_assoc; reflexivity|].
        split; [simpl; rewrite Z.eqb_refl; exact Pw | discriminate]. }
    rewrite (bind_run _ _ _ _ _ Rw). cbv zeta.
    destruct (IH (a + 2) (((h ++ [wa]) ++ [wc]) ++ tw)) as (r & t3 & R3 & P3 & S3).
    destruct r as [out3|w].
    2:{ rewrite (bind_stuck _ _ _ _ _ R3). exists (Stuck w), (wa :: wc :: tw ++ t3).
        split; [rewrite <- !app_assoc; reflexivity|].
        split; [|discriminate].
        simpl. rewrite Z.eqb_refl, forallb_app, Pw, P3. reflexivity. }
    rewrite (bind_run _ _ _ _ _ R3).
    eexists _, (wa :: wc :: tw ++ t3).
    split; [unfold ret; rewrite <- !app_assoc; reflexivity|].
    split; [simpl; rewrite Z.eqb_refl, forallb_app, Pw, P3; reflexivity|].
    intros out E. inversion E; subst out. clear E.
    destruct (S3 out3 eq_refl) as (A3 & M3 & F3).
    unfold wa, wc. cbn [msa_writes mcs_writes]. rewrite Z.eqb_refl.
    rewrite msa_writes_app, mcs_writes_app, Aw, Mw, A3, M3. cbn [app].
    split.
    { rewrite seq_0_S. cbn [map]. rewrite Z.add_0_r. f_equal.
      rewrite map_map. apply map_ext. intros k. f_equal. lia. }
    split; [reflexivity|].
    assert (Hshift : Forall (fun o => o = ConDot \/
                       exists k, (k < S left)%nat /\ o = ConFound (a + 2 * Z.of_nat k))
                       out3).
    { eapply Forall_impl; [exact F3|]. intros o [Ho|(k & Hk & Ho)]; [left; exact Ho|].
      right. exists (S k). split; [lia|]. rewrite Ho. f_equal. lia. }
    constructor; [left; reflexivity|].
    destruct (ec_is_success rv); cbn [app]; [|exact Hshift].
    constructor; [|exact Hshift].
    right. exists 0%nat. split; [lia|]. f_equal. lia.
Qed.

(** The two ways of [scan_bus]. *)
Lemma scan_bus_run (fuel : nat) (p : Z) (desc : string) (h : list event) :
  let a := env h (QRead (LM4_I2C MBMON p)) in
  exists r tr,
    scan_bus' fuel p desc h = (r, h ++ tr) /\
    if Z.land a 3 =? 3 then
      forall out, r = Ok out ->
        (exists body,
           tr = Read (LM4_I2C MBMON p) a :: MutexLock (port_mutex p) ::
                body ++ [MutexUnlock (port_mutex p)] /\
           forallb (on_port p) body = true) /\
        msa_writes p tr = map (fun k => 2 * Z.of_nat k + 1) (seq 0 128) /\
        mcs_writes p tr = repeat 7 128 /\
        exists items,
          out = ConScanning p desc :: items ++ [ConNewline] /\
          Forall (fun o => o = ConDot \/
                           exists k, (k < 128)%nat /\ o = ConFound (2 * Z.of_nat k))
            items
    else
      exists m1 m2,
        tr = [Read (LM4_I2C MBMON p) a; Read (LM4_I2C MBMON p) m1;
              Read (LM4_I2C MBMON p) m2] /\
        let d := if sda_read_first then m1 else m2 in
        let c := if sda_read_first then m2 else m1 in
        r = Ok [ConScanning p desc;
                ConPortBusy (if Z.land d 2 =? 0 then 0 else 1)
                            (if Z.land c 1 =? 0 then 0 else 1)].
Proof.
  intros a. unfold scan_bus.
  rewrite (bind_run _ _ _ _ _ (reg_read_run env _ _)). fold a.
  destruct (Z.land a 3 =? 3); cbn [negb].
  - unfold mutex_lock, mutex_unlock.
    rewrite (bind_run _ _ _ _ _ (emit_run _ _)).
    set (rd := Read (LM4_I2C MBMON p) a). set (lock := MutexLock (port_mutex p)).
    destruct (scan_bus_loop_run fuel p 128 0 ((h ++ [rd]) ++ [lock]))
      as (r & tl & R & P & S).
    destruct r as [items|w].
    2:{ rewrite (bind_stuck _ _ _ _ _ R). exists (Stuck w), (rd :: lock :: tl).
        split; [rewrite <- !app_assoc; reflexivity | discriminate]. }
    rewrite (bind_run _ _ _ _ _ R).
    rewrite (bind_run _ _ _ _ _ (emit_run _ _)).
    eexists _, (rd :: lock :: tl ++ [MutexUnlock (port_mutex p)]).
    split; [unfold ret; rewrite <- !app_assoc; reflexivity|].
    intros out E. inversion E; subst out. clear E.
    destruct (S items eq_refl) as (A & M & F).
    split; [exists tl; split; [reflexivity | exact P]|].
    unfold rd, lock. cbn [msa_writes mcs_writes].
    rewrite msa_writes_app, mcs_writes_app, A, M. cbn [msa_writes mcs_writes].
    rewrite !app_nil_r.
    split.
    { apply map_ext. intros k. rewrite Z.add_0_l. apply lor_even_1. }
    split; [reflexivity|].
    exists items. split; [reflexivity|].
    eapply Forall_impl; [exact F|]. intros o [Ho|(k & Hk & Ho)]; [left; exact Ho|].
    right. exists k. split; [exact Hk|]. rewrite Ho, Z.add_0_l. reflexivity.
  - rewrite (bind_run _ _ _ _ _ (reg_read_run env _ _)).
    rewrite (bind_run _ _ _ _ _ (reg_read_run env _ _)).
    eexists _, [_; _; _]. split; [unfold ret; rewrite <- !app_assoc; reflexivity|].
    eexists _, _. split; reflexivity.
Qed.


Lemma scan_headers_app (o1 o2 : list console_out) :
  scan_headers (o1 ++ o2) = scan_headers o1 ++ scan_headers o2.
Proof. unfold scan_headers. apply flat_map_app. Qed.

Lemma scan_headers_items (n : nat) (items : list console_out) :
  Forall (fun o => o = ConDot \/
                   exists k, (k < n)%nat /\ o = ConFound (2 * Z.of_nat k)) items ->
  scan_headers items = [].
Proof.
  induction 1 as [|o items Ho F IH]; [reflexivity|].
  cbn [scan_headers flat_map]. fold (scan_headers items). rewrite IH.
  destruct Ho as [->|(k & _ & ->)]; reflexivity.
Qed.

Lemma scan_bus_headers (fuel : nat) (p : Z) (desc : string) (h : list event) :
  exists r tr,
    scan_bus' fuel p desc h = (r, h ++ tr) /\
    forall out, r = Ok out -> scan_headers out = [(p, desc)].
Proof.
  destruct (scan_bus_run fuel p desc h) as (r & tr & R & S).
  exists r, tr. split; [exact R|]. intros out E.
  destruct (Z.land (env h (QRead (LM4_I2C MBMON p))) 3 =? 3).
  - destruct (S out E) as (_ & _ & _ & items & Eo & F). subst out.
    cbn [scan_headers flat_map app]. fold (scan_headers (items ++ [ConNewline])).
    rewrite scan_headers_app. cbn [scan_headers flat_map app].
    rewrite (scan_headers_items _ _ F). reflexivity.
  - destruct S as (m1 & m2 & _ & Er). cbv zeta in Er. rewrite Er in E.
    inversion E. reflexivity.
Qed.

(** X23.  [i2cscan] takes no argument into account and cannot fail: when it
    returns, it returns success, and it has announced a scan of every port
    of the table, once each, in the order of the table, under the name the
    table gives. *)
Theorem command_scan_ports (fuel : nat) (argc : Z) (argv : list string)
    (h : list event) :
  exists r tr,
    command_scan env tbl TASK_EVENT_TIMER TASK_EVENT_I2C_IDLE TASK_ID_INVALID
      sda_read_first fuel argc argv h = (r, h ++ tr) /\
    forall res out, r = Ok (res, out) ->
      res = CmdReturn EC_SUCCESS /\
      scan_headers out = map (fun e => (port e, name e)) tbl.
Proof.
  unfold command_scan.
  assert (Hloop : forall h0, exists r tr,
            command_scan_loop env TASK_EVENT_TIMER TASK_EVENT_I2C_IDLE TASK_ID_INVALID
              sda_read_first fuel tbl h0 = (r, h0 ++ tr) /\
            forall out, r = Ok out ->
              scan_headers out = map (fun e => (port e, name e)) tbl).
  { induction tbl as [|e t IH]; intros h0; cbn [command_scan_loop].
    - exists (Ok []), []. unfold ret. rewrite app_nil_r. split; [reflexivity|].
      intros out E. inversion E. reflexivity.
    - destruct (scan_bus_headers fuel (port e) (name e) h0) as (r1 & t1 & R1 & S1).
      destruct r1 as [o1|w].
      2:{ rewrite (bind_stuck _ _ _ _ _ R1). exists (Stuck w), t1.
          split; [reflexivity | discriminate]. }
      rewrite (bind_run _ _ _ _ _ R1).
      destruct (IH (h0 ++ t1)) as (r2 & t2 & R2 & S2).
      destruct r2 as [o2|w].
      2:{ rewrite (bind_stuck _ _ _ _ _ R2). exists (Stuck w), (t1 ++ t2).
          split; [rewrite app_assoc; reflexivity | discriminate]. }
      rewrite (bind_run _ _ _ _ _ R2).
      exists (Ok (o1 ++ o2)), (t1 ++ t2).
      split; [unfold ret; rewrite app_assoc; reflexivity|].
      intros out E. inversion E; subst out.
      rewrite scan_headers_app, (S1 o1 eq_refl), (S2 o2 eq_refl). reflexivity. }
  destruct (Hloop h) as (r & tr & R & S).
  destruct r as [o|w].
  - rewrite (bind_run _ _ _ _ _ R). exists (Ok (CmdReturn EC_SUCCESS, o)), tr.
    split; [reflexivity|]. intros res out E. inversion E; subst. auto.
  - rewrite (bind_stuck _ _ _ _ _ R). exists (Stuck w), tr.
    split; [reflexivity | discriminate].
Qed.

Local Abbreviation command_i2cread_loop' :=
  (command_i2cread_loop env TASK_EVENT_TIMER TASK_EVENT_I2C_IDLE TASK_ID_INVALID).
Local Abbreviation command_i2cread' :=
  (command_i2cread env tbl TASK_EVENT_TIMER TASK_EVENT_I2C_IDLE TASK_ID_INVALID strtoi).

(** The control word of byte [i] of a read of [count] bytes. *)
Local Abbreviation read_word count i :=
  (if i =? 0 then (if count >? 1 then 11 else 7)
   else (if i =? count - 1 then 5 else 9)).




(** X25.  [i2cread] checks its arguments before it touches anything: when it
    returns one of the parameter errors (too few arguments, a port that
    does not parse or is not in the table, an address that does not parse
    or is odd, a count that does not parse), it has taken no lock, made no
    access to the hardware and printed nothing. *)
Theorem command_i2cread_validates (fuel : nat) (argc : Z) (argv : list string)
    (h h' : list event) (res : command_result) (out : list console_out) :
  command_i2cread' fuel argc argv h = (Ok (res, out), h') ->
  (forall rv, res <> CmdReturn rv) ->
  h' = h /\ out = [].
Proof.
  assert (Hret : forall (c : command_result) h0,
            @ret (command_result * list console_out) (c, []) h0 = (Ok (res, out), h') ->
            h' = h0 /\ out = []).
  { intros c h0 E. inversion E. auto. }
  unfold command_i2cread.
  destruct (argc <? 3); [intros E _; exact (Hret _ _ E)|].
  unfold arg at 1. destruct (argv !! 1%nat) as [a1|]; [|discriminate].
  unfold ret at 1. rewrite (bind_run _ _ _ _ _ eq_refl).
  destruct (strtoi a1) as [p e1].
  destruct (negb (String.eqb e1 EmptyString)); [intros E _; exact (Hret _ _ E)|].
  destruct (find_port tbl p) as [e|]; [|intros E _; exact (Hret _ _ E)].
  unfold arg at 1. destruct (argv !! 2%nat) as [a2|]; [|discriminate].
  unfold ret at 1. rewrite (bind_run _ _ _ _ _ eq_refl).
  destruct (strtoi a2) as [addr e2].
  destruct (_ || _); [intros E _; exact (Hret _ _ E)|].
  match goal with |- bind ?m _ _ = _ -> _ =>
    assert (Hparsed : exists r, m h = (r, h)) end.
  { destruct (argc >? 3); [|eexists; reflexivity].
    unfold arg. destruct (argv !! 3%nat) as [a3|]; [|eexists; reflexivity].
    unfold ret at 1. rewrite (bind_run _ _ _ _ _ eq_refl).
    destruct (strtoi a3) as [count e3]. destruct (negb _); eexists; reflexivity. }
  destruct Hparsed as ([[count|]|w] & Ep).
  - rewrite (bind_run _ _ _ _ _ Ep). intros E Hres. exfalso.
    assert (Hcmd : returns_with (fun r => exists rv, fst r = CmdReturn rv)
              (mutex_lock (port_mutex p);;
               reg_write (LM4_I2C MSA p) (Z.lor addr 1);;
               let* r := command_i2cread_loop' fuel p count (Z.to_nat count) 0 in
               match r with
               | (Some rv, out0) => ret (CmdReturn rv, ConReading count p addr :: out0)
               | (None, out0) =>
                   mutex_unlock (port_mutex p);;
                   ret (CmdReturn EC_SUCCESS,
                        ConReading count p addr :: out0 ++ [ConNewline])
               end)).
    { apply (returns_with_bind (fun _ => True)); [apply returns_with_any|]. intros _ _.
      apply (returns_with_bind (fun _ => True)); [apply returns_with_any|]. intros _ _.
      apply (returns_with_bind (fun _ => True)); [apply returns_with_any|].
      intros [[rv|] out0] _.
      - apply returns_with_ret. exists rv. reflexivity.
      - apply (returns_with_bind (fun _ => True)); [apply returns_with_any|]. intros _ _.
        apply returns_with_ret. exists EC_SUCCESS. reflexivity. }
    destruct (Hcmd _ _ _ E) as (rv & Erv). simpl in Erv. exact (Hres rv Erv).
  - rewrite (bind_run _ _ _ _ _ Ep). intros E _. exact (Hret _ _ E).
  - rewrite (bind_stuck _ _ _ _ _ Ep). discriminate.
Qed.

End Console.


Lemma command_i2cread_validates_witness :
  @nil event = [] /\ @nil console_out = [].
Proof.
  apply (command_i2cread_validates env_long_block demo_ports DEMO_EVENT_TIMER
           DEMO_EVENT_I2C_IDLE DEMO_TASK_ID_INVALID demo_strtoi 1 3
           ["i2cread"%string; "1"%string; "23"%string] [] [] EC_ERROR_PARAM2 []).
  - reflexivity.
  - discriminate.
Defined.

(** ** More on the engine and on bus recovery *)

Section EngineMore.

Variable env : environment.
Variable tbl : list i2c_port_t.
Variable gl : Z -> gpio_info.
Variable scl_read_first : bool.
Variable TASK_EVENT_TIMER : Z.
Variable TASK_EVENT_I2C_IDLE : Z.
Variable TASK_ID_INVALID : Z.

(** X13.  What a transfer leaves in the receive buffer.  With a buffer that has
    room for [receive_size] bytes, when the transfer returns it has read at
    most [receive_size] bytes from the data register; the buffer starts
    with the low 8 bits of each of them, in the order they were read, and
    is otherwise as it was; on success all [receive_size] bytes were
    read. *)
Theorem i2c_transmit_receive_fills_buffer (fuel : nat) (p addr : Z)
    (tx : option (list Z)) (tsize : Z) (rx : list Z) (rsize start stop : Z)
    (h : list event) :
  0 <= rsize <= Z.of_nat (length rx) ->
  exists r tr,
    i2c_transmit_receive env tbl gl scl_read_first
        TASK_EVENT_TIMER TASK_EVENT_I2C_IDLE TASK_ID_INVALID
      fuel p addr tx tsize rx rsize start stop h = (r, h ++ tr) /\
    forall rv buf, r = Ok (rv, buf) ->
      Z.of_nat (length (mdr_reads p tr)) <= rsize /\
      buf = map (fun v => v mod 256) (mdr_reads p tr) ++
            drop (length (mdr_reads p tr)) rx /\
      (ec_is_success rv = true -> Z.of_nat (length (mdr_reads p tr)) = rsize).
Proof.
  intros Hsize.
  destruct (i2c_transmit_receive_buf env tbl gl scl_read_first
      TASK_EVENT_TIMER TASK_EVENT_I2C_IDLE
              TASK_ID_INVALID fuel p addr tx tsize rx rsize start stop h)
    as (r & tr & R & S); [lia | lia |].
  exists r, tr. split; [exact R|].
  intros rv buf E. subst r. cbv zeta in S. destruct S as (L & B & F).
  split; [lia|]. split.
  - rewrite B. f_equal. apply map_ext. intros v. apply land_255_mod.
  - intros Hs. specialize (F Hs). lia.
Qed.

(** X19.  Bus recovery touches nothing but the pins: whatever the port and
    however it goes, [i2c_unwedge] only samples and drives GPIOs, switches
    their mode, takes and releases the raw-mode lock, waits with [udelay]
    and writes to the console.  It accesses no register of an I2C
    controller, no port lock and no service of the scheduler. *)
Theorem i2c_unwedge_touches_only_pins (p : Z) (h : list event) :
  exists r tr,
    i2c_unwedge env tbl gl p h = (r, h ++ tr) /\
    forallb raw_event tr = true.
Proof. apply i2c_unwedge_logs. Qed.

Variable p : Z.
Variable e : i2c_port_t.
Hypothesis Hfind : find_port tbl p = Some e.
Hypothesis Hpins : (scl e =? 0) && (sda e =? 0) = false.

Lemma sample_high (g : Z) (h : list event) :
  (forall h', env h' (QGpioLevel g) <> 0) ->
  (let* l := gpio_get_level env g in
   if l =? 0 then ret 0
   else
     gpio_set_flags g [GPIO_INPUT];;
     let* r := gpio_get_level env g in
     gpio_set_flags g [GPIO_OUTPUT; GPIO_OPEN_DRAIN];;
     ret r) h =
    (Ok (env (h ++ [GpioGetLevel g (env h (QGpioLevel g)); GpioSetFlags g [GPIO_INPUT]])
           (QGpioLevel g)),
     h ++ [GpioGetLevel g (env h (QGpioLevel g));
           GpioSetFlags g [GPIO_INPUT];
           GpioGetLevel g
             (env (h ++ [GpioGetLevel g (env h (QGpioLevel g));
                         GpioSetFlags g [GPIO_INPUT]]) (QGpioLevel g));
           GpioSetFlags g [GPIO_OUTPUT; GPIO_OPEN_DRAIN]]).
Proof.
  intros Hhigh. unfold gpio_get_level, gpio_set_flags, ask.
  unfold bind at 1. pose proof (Hhigh h) as H0. apply Z.eqb_neq in H0. rewrite H0.
  unfold bind, emit, ret. rewrite <- !app_assoc. reflexivity.
Qed.

(** X20.  Bus recovery leaves a healthy bus alone.  On a port with pins, when
    both lines read high whenever they are sampled, [i2c_unwedge] enters
    raw mode, samples the clock and then the data line (each one as driven
    and once more as an input), leaves raw mode and returns success: it
    drives no clock pulse and no STOP, and it does not wait. *)
Theorem i2c_unwedge_idle_bus (h : list event) :
  (forall h', env h' (QGpioLevel (scl e)) <> 0) ->
  (forall h', env h' (QGpioLevel (sda e)) <> 0) ->
  exists c1 c2 d1 d2,
    i2c_unwedge env tbl gl p h =
      (Ok EC_SUCCESS,
       h ++ raw_mode_enter gl e ++
            [GpioGetLevel (scl e) c1; GpioSetFlags (scl e) [GPIO_INPUT];
             GpioGetLevel (scl e) c2;
             GpioSetFlags (scl e) [GPIO_OUTPUT; GPIO_OPEN_DRAIN];
             GpioGetLevel (sda e) d1; GpioSetFlags (sda e) [GPIO_INPUT];
             GpioGetLevel (sda e) d2;
             GpioSetFlags (sda e) [GPIO_OUTPUT; GPIO_OPEN_DRAIN]] ++
            raw_mode_exit gl e).
Proof.
  intros Hscl Hsda. unfold i2c_unwedge.
  rewrite (bind_run _ _ _ _ _ (raw_mode_enter_run tbl gl p e Hfind Hpins h)).
  cbn [ec_is_success].
  assert (Hc : forall h0,
            i2c_raw_get_scl env tbl p h0 =
              (Ok (env (h0 ++ [GpioGetLevel (scl e) (env h0 (QGpioLevel (scl e)));
                               GpioSetFlags (scl e) [GPIO_INPUT]])
                     (QGpioLevel (scl e))),
               h0 ++ [GpioGetLevel (scl e) (env h0 (QGpioLevel (scl e)));
                      GpioSetFlags (scl e) [GPIO_INPUT];
                      GpioGetLevel (scl e)
                        (env (h0 ++ [GpioGetLevel (scl e) (env h0 (QGpioLevel (scl e)));
                                     GpioSetFlags (scl e) [GPIO_INPUT]])
                           (QGpioLevel (scl e)));
                      GpioSetFlags (scl e) [GPIO_OUTPUT; GPIO_OPEN_DRAIN]])).
  { intros h0. unfold i2c_raw_get_scl.
    rewrite (bind_run _ _ _ _ _ (get_scl_run tbl p e Hfind Hpins h0)).
    apply sample_high. exact Hscl. }
  assert (Hd : forall h0,
            i2c_raw_get_sda env tbl p h0 =
              (Ok (env (h0 ++ [GpioGetLevel (sda e) (env h0 (QGpioLevel (sda e)));
                               GpioSetFlags (sda e) [GPIO_INPUT]])
                     (QGpioLevel (sda e))),
               h0 ++ [GpioGetLevel (sda e) (env h0 (QGpioLevel (sda e)));
                      GpioSetFlags (sda e) [GPIO_INPUT];
                      GpioGetLevel (sda e)
                        (env (h0 ++ [GpioGetLevel (sda e) (env h0 (QGpioLevel (sda e)));
                                     GpioSetFlags (sda e) [GPIO_INPUT]])
                           (QGpioLevel (sda e)));
                      GpioSetFlags (sda e) [GPIO_OUTPUT; GPIO_OPEN_DRAIN]])).
  { intros h0. unfold i2c_raw_get_sda.
    rewrite (bind_run _ _ _ _ _ (get_sda_run tbl p e Hfind Hpins h0)).
    apply sample_high. exact Hsda. }
  rewrite (bind_run _ _ _ _ _ (Hc _)).
  match goal with |- context [if ?v =? 0 then unwedge_wait_scl _ _ _ _ else _] =>
    pose proof (Hscl (h ++ raw_mode_enter gl e ++
                      [GpioGetLevel (scl e)
                         (env (h ++ raw_mode_enter gl e) (QGpioLevel (scl e)));
                       GpioSetFlags (scl e) [GPIO_INPUT]])) as Hv;
    replace (v =? 0) with false
  end.
  2:{ symmetry. apply Z.eqb_neq. rewrite <- app_assoc. exact Hv. }
  unfold ret at 1. rewrite (bind_run _ _ _ _ _ eq_refl).
  rewrite (bind_run _ _ _ _ _ (Hd _)).
  match goal with |- context [if ?v =? 0 then _ else _] =>
    assert (Hv2 : (v =? 0) = false) by (apply Z.eqb_neq; apply Hsda); rewrite Hv2
  end.
  rewrite (bind_run _ _ _ _ _ (raw_mode_exit_run tbl gl p e Hfind Hpins _)).
  eexists _, _, _, _. unfold ret. rewrite <- !app_assoc. reflexivity.
Qed.

End EngineMore.

Lemma i2c_transmit_receive_fills_buffer_witness :
  exists r tr,
    i2c_transmit_receive env_stalls_in_block demo_ports demo_gpio_list true
      DEMO_EVENT_TIMER DEMO_EVENT_I2C_IDLE DEMO_TASK_ID_INVALID
      1 0 22 None 0 [65; 66; 67; 68] 3 START STOP [] = (r, [] ++ tr) /\
    forall rv buf, r = Ok (rv, buf) ->
      Z.of_nat (length (mdr_reads 0 tr)) <= 3 /\
      buf = map (fun v => v mod 256) (mdr_reads 0 tr) ++
            drop (length (mdr_reads 0 tr)) [65; 66; 67; 68] /\
      (ec_is_success rv = true -> Z.of_nat (length (mdr_reads 0 tr)) = 3).
Proof.
  apply (i2c_transmit_receive_fills_buffer env_stalls_in_block demo_ports
           demo_gpio_list true DEMO_EVENT_TIMER DEMO_EVENT_I2C_IDLE DEMO_TASK_ID_INVALID
           1 0 22 None 0 [65; 66; 67; 68] 3 START STOP []).
  simpl. lia.
Defined.

Lemma i2c_unwedge_idle_bus_witness :
  exists c1 c2 d1 d2,
    i2c_unwedge env_idle demo_ports demo_gpio_list 0 [] =
      (Ok EC_SUCCESS,
       [] ++ raw_mode_enter demo_gpio_list (demo_port 0) ++
            [GpioGetLevel (scl (demo_port 0)) c1;
             GpioSetFlags (scl (demo_port 0)) [GPIO_INPUT];
             GpioGetLevel (scl (demo_port 0)) c2;
             GpioSetFlags (scl (demo_port 0)) [GPIO_OUTPUT; GPIO_OPEN_DRAIN];
             GpioGetLevel (sda (demo_port 0)) d1;
             GpioSetFlags (sda (demo_port 0)) [GPIO_INPUT];
             GpioGetLevel (sda (demo_port 0)) d2;
             GpioSetFlags (sda (demo_port 0)) [GPIO_OUTPUT; GPIO_OPEN_DRAIN]] ++
            raw_mode_exit demo_gpio_list (demo_port 0)).
Proof.
  apply (i2c_unwedge_idle_bus env_idle demo_ports demo_gpio_list 0 (demo_port 0)).
  - reflexivity.
  - reflexivity.
  - intros h'. discriminate.
  - intros h'. discriminate.
Defined.

(** ** The lock of the callers, the interrupt entry points, the table bound *)

Section EntryMore.

Variable env : environment.
Variable tbl : list i2c_port_t.
Variable gl : Z -> gpio_info.
Variable scl_read_first : bool.
Variable TASK_EVENT_TIMER : Z.
Variable TASK_EVENT_I2C_IDLE : Z.
Variable TASK_ID_INVALID : Z.

(** X26.  [i2c_lock] works on the lock that the register accesses take: any
    non-zero argument takes the lock of the port, zero releases it.  A
    caller that brackets transfers on the port with the two calls holds the
    lock as the accesses do: first thing taken, last thing released, no
    port lock touched in between. *)
Theorem i2c_lock_brackets_transfer (fuel : nat) (p lock addr : Z)
    (tx : option (list Z)) (tsize : Z) (rx : list Z) (rsize start stop : Z) :
  lock <> 0 ->
  holds_port_lock p
    (i2c_lock p lock;;
     let* r := i2c_transmit_receive env tbl gl scl_read_first
         TASK_EVENT_TIMER TASK_EVENT_I2C_IDLE
                 TASK_ID_INVALID fuel p addr tx tsize rx rsize start stop in
     i2c_lock p 0;;
     ret r).
Proof.
  intros Hlock. unfold i2c_lock. apply Z.eqb_neq in Hlock. rewrite Hlock.
  cbn [Z.eqb]. apply holds_port_lock_wrap; [apply i2c_transmit_receive_port|].
  reflexivity.
Qed.

(** X27.  The six interrupt entry points stay inside the driver's table and
    inside their port: each of them returns, having read and acknowledged
    the interrupt status of its own port and touched no register of another
    port. *)
Theorem i2c_interrupts_in_bounds (h : list event) :
  Forall2
    (fun (irq : M unit) (n : Z) =>
       exists tr, irq h = (Ok tt, h ++ tr) /\
                  forallb (on_port n) tr = true /\
                  exists s, In (Read (LM4_I2C MMIS n) s) tr /\
                            In (Write (LM4_I2C MICR n) s) tr)
    [ i2c0_interrupt env TASK_EVENT_I2C_IDLE TASK_ID_INVALID;
      i2c1_interrupt env TASK_EVENT_I2C_IDLE TASK_ID_INVALID;
      i2c2_interrupt env TASK_EVENT_I2C_IDLE TASK_ID_INVALID;
      i2c3_interrupt env TASK_EVENT_I2C_IDLE TASK_ID_INVALID;
      i2c4_interrupt env TASK_EVENT_I2C_IDLE TASK_ID_INVALID;
      i2c5_interrupt env TASK_EVENT_I2C_IDLE TASK_ID_INVALID ]
    [0; 1; 2; 3; 4; 5].
Proof.
  assert (Hone : forall n, (0 <=? n) && (n <? NUM_PORTS) = true ->
            exists tr,
              handle_interrupt env TASK_EVENT_I2C_IDLE TASK_ID_INVALID n h =
                (Ok tt, h ++ tr) /\
              forallb (on_port n) tr = true /\
              exists s, In (Read (LM4_I2C MMIS n) s) tr /\
                        In (Write (LM4_I2C MICR n) s) tr).
  { intros n Hn. rewrite (handle_interrupt_run env _ _ n h Hn). cbv zeta.
    eexists. split; [reflexivity|]. split.
    - simpl. rewrite Z.eqb_refl. destruct (_ =? TASK_ID_INVALID); reflexivity.
    - eexists. split; [left; reflexivity | right; left; reflexivity]. }
  repeat (constructor; [apply Hone; reflexivity|]). constructor.
Qed.

End EntryMore.

Lemma i2c_lock_brackets_transfer_witness :
  holds_port_lock 0
    (i2c_lock 0 1;;
     let* r := i2c_transmit_receive env_idle demo_ports demo_gpio_list true
                 DEMO_EVENT_TIMER DEMO_EVENT_I2C_IDLE DEMO_TASK_ID_INVALID
                 1 0 22 (Some [8]) 1 [0] 1 START STOP in
     i2c_lock 0 0;;
     ret r).
Proof.
  apply (i2c_lock_brackets_transfer env_idle demo_ports demo_gpio_list true
           DEMO_EVENT_TIMER DEMO_EVENT_I2C_IDLE DEMO_TASK_ID_INVALID
           1 0 1 22 (Some [8]) 1 [0] 1 START STOP).
  discriminate.
Defined.
